(** * University curriculum scheduler: a shallow embedding

    The three domain classes of the scheduler ([Teacher], [Course], [Module])
    and the three passes of [Scheduler] are translated function by function.

    Conventions of the embedding:
    - Python [int] is [Z]; [str] is [string]; [None]-able fields are [option].
    - A [set] that is only tested for membership or measured with [len] is a
      [gset]; a [set] that the code iterates over ([prereqs],
      [possible_teachers]) is the [list] of its elements in iteration order,
      because [min] and the early [return]s observe that order.
    - A [dict] of objects is the list of its values in insertion order; the
      loaders always store an object under its own [name] / [number], so
      lookup is by that attribute.
    - An object reference held in a list ([Module.courses], the working list
      [unassigned]) is the name of the object; reads go through the store.
    - A raised exception is [Raise]; loops that Python writes with [while]
      take fuel and answer [OutOfFuel] when it is exhausted. *)

From stdpp Require Import base option list gmap strings.
From Stdlib Require Import ZArith Lia.

Local Open Scope string_scope.
Local Open Scope Z_scope.

Set Warnings "-clear-no-such-hyp".

(** ** Exceptions and results *)

Inductive exn : Set :=
| ValueError | KeyError | RuntimeError | AttributeError | IndexError | TypeError.

Inductive result (A : Type) : Type :=
| Ok (a : A)
| Raise (e : exn)
| OutOfFuel.

Arguments Ok {A} a.
Arguments Raise {A} e.
Arguments OutOfFuel {A}.

#[global] Instance result_ret : MRet result := fun _ a => Ok a.
#[global] Instance result_bind : MBind result := fun _ _ f r =>
  match r with
  | Ok a => f a
  | Raise e => Raise e
  | OutOfFuel => OutOfFuel
  end.

(** [l[i]] with Python's negative indices and [IndexError]. *)
Definition py_index {A : Type} (l : list A) (i : Z) : result A :=
  let n := Z.of_nat (List.length l) in
  let j := if i <? 0 then i + n else i in
  if (j <? 0) || (n <=? j) then Raise IndexError
  else match l !! Z.to_nat j with
       | Some x => Ok x
       | None => Raise IndexError
       end.

(** ** Dicts of objects

    A dict whose values carry their own key: the values in insertion order.
    [store_get] is [d.get(k)]; [store_set] writes an object back under its
    key, which is what mutating the object through a reference does. *)

Section store_defs.
Context {A K : Type} `{EqDecision K} (key : A → K).

Definition store_get (l : list A) (k : K) : option A :=
  List.find (fun x => bool_decide (key x = k)) l.

Definition store_set (l : list A) (a : A) : list A :=
  (fun x => if bool_decide (key x = key a) then a else x) <$> l.
End store_defs.

(** ** classes/teacher.py *)

Record Teacher : Type := mkTeacher {
  t_name : string;
  can_teach_courses : gset string;
  availability : list Z;
  capacity_total : Z;
  capacity_left : Z;
  teaches : list (string * Z);
  assigned_modules : gset Z
}.

Definition is_available_for (self : Teacher) (course_name : string)
    (module : Z) (strict : bool) : result bool :=
  if capacity_left self <? 1 then Ok false
  else if bool_decide (module ∈ assigned_modules self) then Ok false
  else
    v ← py_index (availability self) (module - 1);
    if v =? -1 then Ok false
    else
      soft ← (if strict
              then v' ← py_index (availability self) (module - 1); Ok (v' =? 0)
              else Ok false);
      if (soft : bool) then Ok false
      else if negb (bool_decide (course_name ∈ can_teach_courses self))
      then Ok false
      else Ok true.

(** [None] is the value Python returns when the function falls off its end. *)
Definition availability_score (self : Teacher) (module : Z) : result (option Z) :=
  val ← py_index (availability self) (module - 1);
  if val =? 1 then Ok (Some 0)
  else if val =? 0 then Ok (Some 1)
  else Ok None.

Definition assign_to (self : Teacher) (course_name : string) (module : Z)
    : result (bool * Teacher) :=
  ok ← is_available_for self course_name module false;
  if negb ok then Ok (false, self)
  else Ok (true,
           {| t_name := t_name self;
              can_teach_courses := can_teach_courses self;
              availability := availability self;
              capacity_total := capacity_total self;
              capacity_left := capacity_left self - 1;
              teaches := teaches self ++ [(course_name, module)];
              assigned_modules := {[module]} ∪ assigned_modules self |}).

Definition availability_value (self : Teacher) (module : Z) : result Z :=
  py_index (availability self) (module - 1).

Definition get_teacher (teachers : list Teacher) (n : string) : option Teacher :=
  store_get t_name teachers n.

(** Writing through a reference to a teacher object updates the store entry. *)
Definition set_teacher (teachers : list Teacher) (t : Teacher) : list Teacher :=
  store_set t_name teachers t.

(** ** classes/course.py *)

Record Course : Type := mkCourse {
  c_name : string;
  part_of_chain : bool;
  min_layer : Z;
  prereqs : list string;
  possible_teachers : list string;
  module_assigned : option Z;
  teacher_assigned : option string;
  layer_assigned : option Z;
  is_celebrity : bool
}.

(** [Course(name)] as [__init__] leaves it. *)
Definition new_course (name : string) : Course :=
  mkCourse name false 0 [] [] None None None false.

Definition get_course (courses : list Course) (n : string) : option Course :=
  store_get c_name courses n.

Definition set_course (courses : list Course) (c : Course) : list Course :=
  store_set c_name courses c.

Fixpoint all_prereqs_assigned_loop (ps : list string) (courses : list Course)
    : result bool :=
  match ps with
  | [] => Ok true
  | prereq_name :: ps' =>
      match get_course courses prereq_name with
      | None => Raise KeyError
      | Some prereq =>
          match module_assigned prereq with
          | None => Ok false
          | Some _ => all_prereqs_assigned_loop ps' courses
          end
      end
  end.

Definition all_prereqs_assigned (self : Course) (courses : list Course)
    : result bool :=
  all_prereqs_assigned_loop (prereqs self) courses.

Fixpoint get_latest_assigned_prereq_loop (ps : list string)
    (courses : list Course) (latest : Z) : result Z :=
  match ps with
  | [] => Ok latest
  | prereq_name :: ps' =>
      match get_course courses prereq_name with
      | None => Raise KeyError
      | Some prereq =>
          match module_assigned prereq with
          | None => Raise ValueError
          | Some prereq_module =>
              get_latest_assigned_prereq_loop ps' courses
                (Z.max latest prereq_module)
          end
      end
  end.

Definition get_latest_assigned_prereq (self : Course) (courses : list Course)
    : result Z :=
  get_latest_assigned_prereq_loop (prereqs self) courses 0.

(** [teachers.get(name)] may be [None]; calling a method on it is an
    [AttributeError]. *)
Fixpoint has_teachers_for_module_loop (cname : string) (names : list string)
    (module : Z) (teachers : list Teacher) (strict : bool) : result bool :=
  match names with
  | [] => Ok false
  | teacher_name :: names' =>
      match get_teacher teachers teacher_name with
      | None => Raise AttributeError
      | Some teacher =>
          ok ← is_available_for teacher cname module strict;
          if (ok : bool) then Ok true
          else has_teachers_for_module_loop cname names' module teachers strict
      end
  end.

Definition has_teachers_for_module (self : Course) (module : Z)
    (teachers : list Teacher) (strict : bool) : result bool :=
  has_teachers_for_module_loop (c_name self) (possible_teachers self)
    module teachers strict.

(** One entry of the list [available]:
    (teacher_name, availability_score, specialization, capacity_left). *)
Definition avail_entry : Type := string * option Z * Z * Z.

Fixpoint available_loop (cname : string) (names : list string) (module : Z)
    (teachers : list Teacher) (strict : bool) : result (list avail_entry) :=
  match names with
  | [] => Ok []
  | teacher_name :: names' =>
      match get_teacher teachers teacher_name with
      | None => Raise KeyError
      | Some teacher =>
          ok ← is_available_for teacher cname module strict;
          if (ok : bool) then
            score ← availability_score teacher module;
            rest ← available_loop cname names' module teachers strict;
            Ok ((teacher_name, score,
                 Z.of_nat (size (can_teach_courses teacher)),
                 capacity_left teacher) :: rest)
          else available_loop cname names' module teachers strict
      end
  end.

(** The sort key [(t[1], t[2], -t[3])]. *)
Definition avail_key : Type := option Z * Z * Z.

Definition key_of (t : avail_entry) : avail_key :=
  let '(_, score, specialization, cap) := t in (score, specialization, - cap).

(** [==] and [<] between two availability scores, each an [int] or [None]. *)
Definition score_eq (a b : option Z) : bool :=
  match a, b with
  | Some x, Some y => x =? y
  | None, None => true
  | _, _ => false
  end.

Definition score_lt (a b : option Z) : result bool :=
  match a, b with
  | Some x, Some y => Ok (x <? y)
  | _, _ => Raise TypeError
  end.

(** Tuple comparison [k1 < k2]: the first differing component decides. *)
Definition key_lt (k1 k2 : avail_key) : result bool :=
  let '(a1, b1, c1) := k1 in
  let '(a2, b2, c2) := k2 in
  if negb (score_eq a1 a2) then score_lt a1 a2
  else if negb (b1 =? b2) then Ok (b1 <? b2)
  else Ok (c1 <? c2).

(** The builtin [min(iterable, key=...)]: an item replaces the running
    minimum only when its key is strictly smaller. *)
Fixpoint py_min_loop (best : avail_entry) (rest : list avail_entry)
    : result avail_entry :=
  match rest with
  | [] => Ok best
  | x :: rest' =>
      lt ← key_lt (key_of x) (key_of best);
      py_min_loop (if (lt : bool) then x else best) rest'
  end.

Definition get_teacher_for_module (self : Course) (module : Z)
    (teachers : list Teacher) (strict : bool) : result (option string) :=
  available ← available_loop (c_name self) (possible_teachers self)
                 module teachers strict;
  match available with
  | [] => Ok None
  | first :: rest =>
      best ← py_min_loop first rest;
      Ok (Some (best.1.1.1))
  end.

Fixpoint prereqs_before_loop (ps : list string) (courses : list Course)
    (absolute_current : Z) : result bool :=
  match ps with
  | [] => Ok true
  | prereq_name :: ps' =>
      match get_course courses prereq_name with
      | None => Raise KeyError
      | Some prereq =>
          match layer_assigned prereq with
          | None => Ok false
          | Some prereq_layer =>
              match module_assigned prereq with
              | None => Raise TypeError
              | Some prereq_module =>
                  let absolute_prereq := prereq_layer * 14 + prereq_module in
                  if absolute_current <=? absolute_prereq then Ok false
                  else prereqs_before_loop ps' courses absolute_current
              end
          end
      end
  end.

Definition can_be_assigned_to_module (self : Course) (module layer : Z)
    (courses : list Course) (teachers : list Teacher) (strict : bool)
    : result bool :=
  if bool_decide (is_Some (module_assigned self)) then Ok false
  else if layer <? min_layer self then Ok false
  else
    assigned ← all_prereqs_assigned self courses;
    if negb assigned then Ok false
    else
      let absolute_current := layer * 14 + module in
      before ← prereqs_before_loop (prereqs self) courses absolute_current;
      if negb before then Ok false
      else
        has ← has_teachers_for_module self module teachers strict;
        if negb has then Ok false else Ok true.

Definition set_assignment (self : Course) (module layer : Z) (teacher : string)
    : Course :=
  {| c_name := c_name self;
     part_of_chain := part_of_chain self;
     min_layer := min_layer self;
     prereqs := prereqs self;
     possible_teachers := possible_teachers self;
     module_assigned := Some module;
     teacher_assigned := Some teacher;
     layer_assigned := Some layer;
     is_celebrity := is_celebrity self |}.

(** Returns the flag, the course object after the call and the teacher store
    after the call. *)
Definition assign_to_module (self : Course) (module layer : Z)
    (courses : list Course) (teachers : list Teacher) (strict : bool)
    : result (bool * Course * list Teacher) :=
  can ← can_be_assigned_to_module self module layer courses teachers strict;
  if negb can then Ok (false, self, teachers)
  else
    chosen ← get_teacher_for_module self module teachers strict;
    match chosen with
    | None => Ok (false, self, teachers)
    | Some chosen_teacher =>
        match get_teacher teachers chosen_teacher with
        | None => Raise KeyError
        | Some teacher =>
            '(ok, teacher') ← assign_to teacher (c_name self) module;
            if negb ok then Ok (false, self, teachers)
            else Ok (true,
                     set_assignment self module layer chosen_teacher,
                     set_teacher teachers teacher')
        end
    end.

(** ** classes/module.py

    [Module] is a reserved word; the class is called [ModuleSlot] here. *)

Record ModuleSlot : Type := mkModule {
  number : Z;
  max_capacity : Z;
  m_courses : list string;
  chain_layers : gmap Z Z;
  has_celebrity_course : bool
}.

Definition new_module (number : Z) : ModuleSlot :=
  mkModule number 9 [] ∅ false.

Definition get_module (modules : list ModuleSlot) (n : Z) : option ModuleSlot :=
  store_get number modules n.

Definition set_module (modules : list ModuleSlot) (m : ModuleSlot)
    : list ModuleSlot :=
  store_set number modules m.

Definition total_count (self : ModuleSlot) : Z :=
  Z.of_nat (List.length (m_courses self)).

Definition chain_count_in_layer (self : ModuleSlot) (layer : Z) : Z :=
  default 0 (chain_layers self !! layer).

(** [any(c.part_of_chain for c in self.courses)]; the occupants are read
    through the course store. *)
Definition any_chain (courses : list Course) (occupants : list string) : bool :=
  existsb (fun n => match get_course courses n with
                    | Some c => part_of_chain c
                    | None => false
                    end) occupants.

Definition can_accept (self : ModuleSlot) (course : Course) (layer : Z)
    (is_celebrity : bool) (courses : list Course) : bool :=
  if total_count self >=? max_capacity self then false
  else if part_of_chain course && has_celebrity_course self then false
  else if part_of_chain course && (chain_count_in_layer self layer >=? 1)
  then false
  else if is_celebrity && has_celebrity_course self then false
  else if is_celebrity && any_chain courses (m_courses self) then false
  else true.

Definition add_course (self : ModuleSlot) (course : Course) (layer : Z)
    (is_celebrity : bool) (courses : list Course) : result ModuleSlot :=
  flag ← (if is_celebrity then
            if has_celebrity_course self then Raise ValueError
            else if any_chain courses (m_courses self) then Raise ValueError
            else Ok true
          else Ok (has_celebrity_course self));
  Ok {| number := number self;
        max_capacity := max_capacity self;
        m_courses := m_courses self ++ [c_name course];
        chain_layers :=
          if part_of_chain course
          then <[layer := chain_count_in_layer self layer + 1]>
                 (chain_layers self)
          else chain_layers self;
        has_celebrity_course := flag |}.

(** ** classes/scheduler.py *)

Record Scheduler : Type := mkScheduler {
  teachers : list Teacher;
  courses : list Course;
  modules : list ModuleSlot
}.

(** [str.strip()] on ASCII text: the characters Python's [str.isspace]
    accepts below 128 are 9..13, 28..31 and 32. *)
Definition py_isspace (a : Ascii.ascii) : bool :=
  let n := Ascii.N_of_ascii a in
  ((9 <=? n) && (n <=? 13) || (28 <=? n) && (n <=? 32))%N.

Fixpoint lstrip (s : string) : string :=
  match s with
  | String a s' => if py_isspace a then lstrip s' else s
  | EmptyString => EmptyString
  end.

Definition strip (s : string) : string :=
  String.rev (lstrip (String.rev (lstrip s))).

(** *** Pass 1 *)

Definition set_celebrity (self : Course) (module_num : Z) (teacher_name : string)
    : Course :=
  {| c_name := c_name self;
     part_of_chain := part_of_chain self;
     min_layer := min_layer self;
     prereqs := prereqs self;
     possible_teachers := possible_teachers self;
     module_assigned := Some module_num;
     teacher_assigned := Some teacher_name;
     layer_assigned := layer_assigned self;
     is_celebrity := true |}.

(** The body of the [for] loop of [pass1_celebrity] on one row. *)
Definition pass1_row (self : Scheduler) (row : string * Z * string)
    : result Scheduler :=
  let '(course_name0, module_num, teacher_name0) := row in
  let course_name := strip course_name0 in
  let teacher_name := strip teacher_name0 in
  if bool_decide (course_name = "") || bool_decide (teacher_name = "")
  then Raise ValueError
  else
    match get_module (modules self) module_num with
    | None => Raise ValueError
    | Some module =>
        match get_course (courses self) course_name with
        | None => Raise KeyError
        | Some course =>
            match get_teacher (teachers self) teacher_name with
            | None => Raise KeyError
            | Some teacher =>
                if bool_decide (is_Some (module_assigned course))
                then Raise ValueError
                else if negb (bool_decide
                                (teacher_name ∈ possible_teachers course))
                then Raise ValueError
                else
                  avail ← is_available_for teacher course_name module_num false;
                  if negb avail then Raise ValueError
                  else if negb (can_accept module course 0 true (courses self))
                  then Raise ValueError
                  else
                    '(ok, teacher') ← assign_to teacher course_name module_num;
                    if negb ok then Raise ValueError
                    else
                      let course' :=
                        set_celebrity course module_num teacher_name in
                      let courses' := set_course (courses self) course' in
                      module' ← add_course module course' 0 true courses';
                      Ok {| teachers := set_teacher (teachers self) teacher';
                            courses := courses';
                            modules := set_module (modules self) module' |}
            end
        end
    end.

Fixpoint pass1_loop (self : Scheduler) (rows : list (string * Z * string))
    (assigned : Z) : result (Z * Scheduler) :=
  match rows with
  | [] => Ok (assigned, self)
  | row :: rows' =>
      self' ← pass1_row self row;
      pass1_loop self' rows' (assigned + 1)
  end.

Definition pass1_celebrity (self : Scheduler)
    (celebrity_courses : list (string * Z * string)) : result (Z * Scheduler) :=
  pass1_loop self celebrity_courses 0.

(** *** Pass 2 *)

(** [range(1, 15)] *)
Definition module_range : list Z := seqZ 1 14.

Definition is_ready (self : Scheduler) (course : Course) (layer : Z)
    : result bool :=
  if negb (part_of_chain course) then Ok false
  else if bool_decide (is_Some (module_assigned course)) then Ok false
  else if layer <? min_layer course then Ok false
  else all_prereqs_assigned course (courses self).

Definition fits_in_module (self : Scheduler) (course : Course)
    (module_num layer : Z) (strict : bool) : result bool :=
  match get_module (modules self) module_num with
  | None => Raise KeyError
  | Some modl =>
      if has_celebrity_course modl then Ok false
      else if negb (can_accept modl course layer false (courses self))
      then Ok false
      else can_be_assigned_to_module course module_num layer
             (courses self) (teachers self) strict
  end.

Fixpoint feasible_module_count_loop (self : Scheduler) (course : Course)
    (layer : Z) (strict : bool) (ms : list Z) (cnt : Z) : result Z :=
  match ms with
  | [] => Ok cnt
  | m :: ms' =>
      fits ← fits_in_module self course m layer strict;
      feasible_module_count_loop self course layer strict ms'
        (if (fits : bool) then cnt + 1 else cnt)
  end.

Definition feasible_module_count (self : Scheduler) (course : Course)
    (layer : Z) (strict : bool) : result Z :=
  feasible_module_count_loop self course layer strict module_range 0.

(** A candidate tuple [(mc, -latest, course.name, course)]. *)
Definition candidate2 : Type := Z * Z * string * Course.

(** Tuple [<] on the first three components; names are unique in the store,
    so the comparison never reaches the course object. *)
Definition candidate2_lt (a b : candidate2) : bool :=
  let '(mc1, nl1, n1, _) := a in
  let '(mc2, nl2, n2, _) := b in
  if negb (mc1 =? mc2) then mc1 <? mc2
  else if negb (nl1 =? nl2) then nl1 <? nl2
  else String.ltb n1 n2.

(** [list.sort()] is stable and uses [<] only. *)
Fixpoint insert_sorted {A : Type} (lt : A → A → bool) (x : A) (l : list A)
    : list A :=
  match l with
  | [] => [x]
  | y :: l' => if lt y x then y :: insert_sorted lt x l' else x :: l
  end.

Definition py_sort {A : Type} (lt : A → A → bool) (l : list A) : list A :=
  foldr (insert_sorted lt) [] l.

(** The working list [unassigned] holds references to course objects of the
    store: a name is dereferenced where the object is read.  A name that does
    not resolve cannot occur, each one was taken from the store. *)
Fixpoint pass2_candidates (self : Scheduler) (unassigned : list string)
    (module_num layer : Z) (strict : bool) : result (list candidate2) :=
  match unassigned with
  | [] => Ok []
  | n :: rest =>
      match get_course (courses self) n with
      | None => Raise KeyError
      | Some course =>
          ready ← is_ready self course layer;
          if negb ready then pass2_candidates self rest module_num layer strict
          else
            fits ← fits_in_module self course module_num layer strict;
            if negb fits
            then pass2_candidates self rest module_num layer strict
            else
              mc ← feasible_module_count self course layer strict;
              latest ← (match prereqs course with
                        | [] => Ok 0
                        | _ => get_latest_assigned_prereq course (courses self)
                        end);
              tl ← pass2_candidates self rest module_num layer strict;
              Ok ((mc, - latest, c_name course, course) :: tl)
      end
  end.

(** [list.remove(x)]: drops the first occurrence. *)
Fixpoint list_remove (n : string) (l : list string) : list string :=
  match l with
  | [] => []
  | x :: l' => if bool_decide (x = n) then l' else x :: list_remove n l'
  end.

(** The loop variables of a Pass 2 sweep. *)
Record p2 : Type := mkP2 {
  p2_self : Scheduler;
  p2_unassigned : list string;
  p2_assigned_total : Z;
  p2_progress_phase : Z
}.

(** Body of [for module_num in range(1, 15)]. *)
Definition pass2_module (layer : Z) (strict : bool) (s : p2) (module_num : Z)
    : result p2 :=
  let self := p2_self s in
  match get_module (modules self) module_num with
  | None => Raise KeyError
  | Some modl =>
      if has_celebrity_course modl then Ok s
      else if chain_count_in_layer modl layer >=? 1 then Ok s
      else
        candidates ← pass2_candidates self (p2_unassigned s)
                        module_num layer strict;
        match py_sort candidate2_lt candidates with
        | [] => Ok s
        | (_, _, _, chosen) :: _ =>
            '(ok, chosen', teachers') ←
              assign_to_module chosen module_num layer
                (courses self) (teachers self) strict;
            if negb ok then Raise RuntimeError
            else
              let courses' := set_course (courses self) chosen' in
              modl' ← add_course modl chosen' layer false courses';
              Ok {| p2_self :=
                      {| teachers := teachers';
                         courses := courses';
                         modules := set_module (modules self) modl' |};
                    p2_unassigned :=
                      list_remove (c_name chosen) (p2_unassigned s);
                    p2_assigned_total := p2_assigned_total s + 1;
                    p2_progress_phase := p2_progress_phase s + 1 |}
        end
  end.

Fixpoint pass2_sweep (layer : Z) (strict : bool) (s : p2) (ms : list Z)
    : result p2 :=
  match ms with
  | [] => Ok s
  | module_num :: ms' =>
      s' ← pass2_module layer strict s module_num;
      pass2_sweep layer strict s' ms'
  end.

(** The loop variables of one layer iteration, with the list of strictness
    flags whose sub-phase body was entered, in order. *)
Record p2_layer : Type := mkP2Layer {
  pl_self : Scheduler;
  pl_unassigned : list string;
  pl_assigned_total : Z;
  pl_progress_this_layer : Z;
  pl_phases_run : list bool
}.

(** [for strict in [True, False]: ... if progress_phase > 0: ...; break] *)
Fixpoint pass2_phases (layer : Z) (s : p2_layer) (flags : list bool)
    : result p2_layer :=
  match flags with
  | [] => Ok s
  | strict :: flags' =>
      r ← pass2_sweep layer strict
            (mkP2 (pl_self s) (pl_unassigned s) (pl_assigned_total s) 0)
            module_range;
      let ran := (pl_phases_run s ++ [strict])%list in
      if p2_progress_phase r >? 0
      then Ok (mkP2Layer (p2_self r) (p2_unassigned r) (p2_assigned_total r)
                 (pl_progress_this_layer s + p2_progress_phase r) ran)
      else pass2_phases layer
             (mkP2Layer (p2_self r) (p2_unassigned r) (p2_assigned_total r)
                (pl_progress_this_layer s) ran)
             flags'
  end.

(** One iteration of the [while] body, after the [max_layers] test. *)
Definition pass2_layer_iteration (self : Scheduler) (unassigned : list string)
    (assigned_total layer : Z) : result p2_layer :=
  pass2_phases layer (mkP2Layer self unassigned assigned_total 0 [])
    [true; false].

Fixpoint pass2_while (fuel : nat) (self : Scheduler) (unassigned : list string)
    (assigned_total layer max_layers : Z) : result (Z * Scheduler) :=
  match unassigned with
  | [] => Ok (assigned_total, self)
  | _ :: _ =>
      if layer >? max_layers then Ok (assigned_total, self)
      else
        match fuel with
        | O => OutOfFuel
        | S fuel' =>
            r ← pass2_layer_iteration self unassigned assigned_total layer;
            pass2_while fuel' (pl_self r) (pl_unassigned r)
              (pl_assigned_total r)
              (if pl_progress_this_layer r =? 0 then layer + 1 else layer)
              max_layers
        end
  end.

Definition chain_unassigned (self : Scheduler) : list string :=
  c_name <$> filter (fun c => part_of_chain c = true ∧ module_assigned c = None)
               (courses self).

(** Every iteration either places a unit or moves to the next layer, so this
    many iterations are enough. *)
Definition pass2_fuel (unassigned : list string) (max_layers : Z) : nat :=
  (List.length unassigned + Z.to_nat (max_layers + 1))%nat.

Definition pass2_chains (self : Scheduler) (max_layers : Z)
    : result (Z * Scheduler) :=
  let unassigned := chain_unassigned self in
  pass2_while (pass2_fuel unassigned max_layers) self unassigned 0 0 max_layers.

(** *** Pass 3 *)

Fixpoint teacher_options_count_loop (self : Scheduler) (cname : string)
    (names : list string) (module_num : Z) (strict : bool) (cnt : Z)
    : result Z :=
  match names with
  | [] => Ok cnt
  | teacher_name :: names' =>
      match get_teacher (teachers self) teacher_name with
      | None =>
          teacher_options_count_loop self cname names' module_num strict cnt
      | Some teacher =>
          ok ← is_available_for teacher cname module_num strict;
          teacher_options_count_loop self cname names' module_num strict
            (if (ok : bool) then cnt + 1 else cnt)
      end
  end.

Definition teacher_options_count (self : Scheduler) (course : Course)
    (module_num : Z) (strict : bool) : result Z :=
  teacher_options_count_loop self (c_name course) (possible_teachers course)
    module_num strict 0.

(** A candidate tuple [(opts, course.name, course)]. *)
Definition candidate3 : Type := Z * string * Course.

Definition candidate3_lt (a b : candidate3) : bool :=
  let '(o1, n1, _) := a in
  let '(o2, n2, _) := b in
  if negb (o1 =? o2) then o1 <? o2 else String.ltb n1 n2.

Fixpoint pass3_candidates (self : Scheduler) (modl : ModuleSlot)
    (unassigned : list string) (module_num : Z) (strict : bool)
    : result (list candidate3) :=
  match unassigned with
  | [] => Ok []
  | n :: rest =>
      match get_course (courses self) n with
      | None => Raise KeyError
      | Some course =>
          if negb (can_accept modl course 0 false (courses self))
          then pass3_candidates self modl rest module_num strict
          else
            has ← has_teachers_for_module course module_num
                    (teachers self) strict;
            if negb has
            then pass3_candidates self modl rest module_num strict
            else
              opts ← teacher_options_count self course module_num strict;
              tl ← pass3_candidates self modl rest module_num strict;
              Ok ((opts, c_name course, course) :: tl)
      end
  end.

(** The loop variables of a Pass 3 sweep. *)
Record p3 : Type := mkP3 {
  p3_self : Scheduler;
  p3_unassigned : list string;
  p3_assigned_total : Z;
  p3_progress : Z
}.

(** Body of [for module_num in module_nums]. *)
Definition pass3_module (strict : bool) (s : p3) (module_num : Z) : result p3 :=
  let self := p3_self s in
  match get_module (modules self) module_num with
  | None => Raise KeyError
  | Some modl =>
      candidates ← pass3_candidates self modl (p3_unassigned s)
                      module_num strict;
      match py_sort candidate3_lt candidates with
      | [] => Ok s
      | (_, _, chosen) :: _ =>
          '(ok, chosen', teachers') ←
            assign_to_module chosen module_num 0
              (courses self) (teachers self) strict;
          if negb ok then Ok s
          else
            let courses' := set_course (courses self) chosen' in
            modl' ← add_course modl chosen' 0 false courses';
            Ok {| p3_self :=
                    {| teachers := teachers';
                       courses := courses';
                       modules := set_module (modules self) modl' |};
                  p3_unassigned :=
                    list_remove (c_name chosen) (p3_unassigned s);
                  p3_assigned_total := p3_assigned_total s + 1;
                  p3_progress := p3_progress s + 1 |}
      end
  end.

Fixpoint pass3_sweep (strict : bool) (s : p3) (ms : list Z) : result p3 :=
  match ms with
  | [] => Ok s
  | module_num :: ms' =>
      s' ← pass3_module strict s module_num;
      pass3_sweep strict s' ms'
  end.

Definition pair_lt (a b : Z * Z) : bool :=
  if negb (a.1 =? b.1) then a.1 <? b.1 else a.2 <? b.2.

(** [sorted(self.modules.keys(), key=lambda m: (total_count, m))] *)
Definition module_nums (self : Scheduler) : list Z :=
  snd <$> py_sort pair_lt
            ((fun m => (total_count m, number m)) <$> modules self).

(** [while unassigned: ...; if progress == 0: break] *)
Fixpoint pass3_while (fuel : nat) (strict : bool) (s : p3) : result p3 :=
  match p3_unassigned s with
  | [] => Ok s
  | _ :: _ =>
      match fuel with
      | O => OutOfFuel
      | S fuel' =>
          r ← pass3_sweep strict
                (mkP3 (p3_self s) (p3_unassigned s) (p3_assigned_total s) 0)
                (module_nums (p3_self s));
          if p3_progress r =? 0 then Ok r
          else pass3_while fuel' strict r
      end
  end.

(** [for strict in [True, False]: while ...; if not unassigned: break].
    A sweep that makes progress shortens [unassigned], so the [while] loop
    runs at most [len(unassigned) + 1] times. *)
Fixpoint pass3_phases (s : p3) (flags : list bool) : result p3 :=
  match flags with
  | [] => Ok s
  | strict :: flags' =>
      r ← pass3_while (S (List.length (p3_unassigned s))) strict s;
      match p3_unassigned r with
      | [] => Ok r
      | _ :: _ => pass3_phases r flags'
      end
  end.

Definition all_unassigned (self : Scheduler) : list string :=
  c_name <$> filter (fun c => module_assigned c = None) (courses self).

Definition pass3_solitary (self : Scheduler) : result (Z * Scheduler) :=
  r ← pass3_phases (mkP3 self (all_unassigned self) 0 0) [true; false];
  Ok (p3_assigned_total r, p3_self r).


(** ** Constructors and callers

    [Teacher.__init__], [Module.__init__] with an explicit capacity, the
    module dict of [data_loaders.build_modules], the rows that the two CSV
    exports hand to the writer, and the order in which [main] runs the
    passes. *)

(** [Teacher(name, can_teach_courses, availability, capacity)] *)
Definition new_teacher (name : string) (can_teach : gset string)
    (availability : list Z) (capacity : Z) : Teacher :=
  mkTeacher name can_teach availability capacity capacity [] ∅.

(** [Module(number, max_capacity)] *)
Definition new_module_cap (number max_capacity : Z) : ModuleSlot :=
  mkModule number max_capacity [] ∅ false.

(** [build_modules(total_modules, max_capacity)]: one module per index of
    [range(1, total_modules + 1)]. *)
Definition build_modules (total_modules max_capacity : Z) : list ModuleSlot :=
  (fun i => new_module_cap i max_capacity) <$> seqZ 1 total_modules.

(** A row of out_schedule.csv: (module, course, teacher, needs confirmation). *)
Definition schedule_row : Type := Z * string * string * string.

Definition needs_confirmation : string :=
  "Used 0 availability, needs confirmation".

(** [self.teachers.get(course.teacher_assigned)]; [None] is no key. *)
Definition assigned_teacher (self : Scheduler) (course : Course)
    : option Teacher :=
  match teacher_assigned course with
  | Some name => get_teacher (teachers self) name
  | None => None
  end.

(** The loop of [export_schedule_csv] that fills [rows]. *)
Fixpoint schedule_rows_loop (self : Scheduler) (cs : list Course)
    : result (list schedule_row) :=
  match cs with
  | [] => Ok []
  | course :: cs' =>
      match module_assigned course with
      | None => schedule_rows_loop self cs'
      | Some module =>
          avail_val ← (match assigned_teacher self course with
                       | None => Ok ""
                       | Some teacher =>
                           v ← availability_value teacher module;
                           Ok (if v =? 1 then "" else needs_confirmation)
                       end);
          rest ← schedule_rows_loop self cs';
          Ok ((module, c_name course,
               default "" (teacher_assigned course), avail_val) :: rest)
      end
  end.

(** Tuple [<] on the sort key [(r[0], r[1], r[2])]. *)
Definition key_mct_lt (a b : Z * string * string) : bool :=
  let '(m1, c1, t1) := a in
  let '(m2, c2, t2) := b in
  if negb (m1 =? m2) then m1 <? m2
  else if negb (bool_decide (c1 = c2)) then String.ltb c1 c2
  else String.ltb t1 t2.

Definition schedule_row_lt (a b : schedule_row) : bool :=
  key_mct_lt (a.1.1.1, a.1.1.2, a.1.2) (b.1.1.1, b.1.1.2, b.1.2).

(** The rows [export_schedule_csv] writes, in the order it writes them. *)
Definition export_schedule_rows (self : Scheduler)
    : result (list schedule_row) :=
  rows ← schedule_rows_loop self (courses self);
  Ok (py_sort schedule_row_lt rows).

(** The loop of [export_soft_violations_csv]; an empty teacher name is as
    falsy as [None]. *)
Fixpoint soft_rows_loop (self : Scheduler) (cs : list Course)
    : result (list (Z * string * string)) :=
  match cs with
  | [] => Ok []
  | course :: cs' =>
      match module_assigned course, teacher_assigned course with
      | Some module, Some name =>
          if bool_decide (name = "") then soft_rows_loop self cs'
          else
            match get_teacher (teachers self) name with
            | None => soft_rows_loop self cs'
            | Some teacher =>
                v ← availability_value teacher module;
                rest ← soft_rows_loop self cs';
                Ok (if v =? 0 then (module, c_name course, name) :: rest
                    else rest)
            end
      | _, _ => soft_rows_loop self cs'
      end
  end.

Definition export_soft_violations_rows (self : Scheduler)
    : result (list (Z * string * string)) :=
  rows ← soft_rows_loop self (courses self);
  Ok (py_sort key_mct_lt rows).

(** The three passes as [main] calls them, [pass2_chains] with its default
    [max_layers=2]; the result is the three counts and the final stores. *)
Definition run_passes (self : Scheduler)
    (celebrity_courses : list (string * Z * string))
    : result (Z * Z * Z * Scheduler) :=
  '(assigned_celebrity, s1) ← pass1_celebrity self celebrity_courses;
  '(assigned_chain, s2) ← pass2_chains s1 2;
  '(assigned_solitary, s3) ← pass3_solitary s2;
  Ok (assigned_celebrity, assigned_chain, assigned_solitary, s3).
(** * Specification vocabulary and example data *)

(** The preference value the teacher declared for a module number. *)
Definition preference (self : Teacher) (module : Z) : option Z :=
  availability self !! Z.to_nat (module - 1).

(** The five reasons for which [is_available_for] answers [False]. *)
Definition unavailable (self : Teacher) (course_name : string) (module : Z)
    (strict : bool) (pref : Z) : Prop :=
  capacity_left self < 1
  ∨ module ∈ assigned_modules self
  ∨ pref = -1
  ∨ (strict = true ∧ pref = 0)
  ∨ course_name ∉ can_teach_courses self.

Definition alice : Teacher :=
  mkTeacher "Alice" {["CS101"]} [-1;-1;-1;-1;1;-1;-1;-1;-1;-1;-1;-1;-1;-1]
    1 1 [] ∅.


(** The selection key of a teacher for a module, as three integers:
    (availability score, number of teachable courses, minus capacity left).
    It is defined when the preference for the module is 1 or 0. *)
Definition key3 : Type := Z * Z * Z.

Definition resource_key (t : Teacher) (module : Z) : option key3 :=
  match availability_score t module with
  | Ok (Some score) =>
      Some (score, Z.of_nat (size (can_teach_courses t)), - capacity_left t)
  | _ => None
  end.

(** Ascending order on keys, component by component. *)
Definition key3_lt (a b : key3) : Prop :=
  a.1.1 < b.1.1
  ∨ (a.1.1 = b.1.1 ∧ (a.1.2 < b.1.2 ∨ (a.1.2 = b.1.2 ∧ a.2 < b.2))).

(** Every preference value a teacher declares is 1, 0 or -1. *)
Definition preferences_declared (teachers : list Teacher) : Prop :=
  Forall (fun t => Forall (fun v => v = -1 ∨ v = 0 ∨ v = 1) (availability t))
    teachers.

(** The statement that ties on the key are broken by the smaller name. *)
Definition ties_broken_by_name (self : Course) (module : Z)
    (teachers : list Teacher) (strict : bool) : Prop :=
  ∀ name t k n' t',
    get_teacher_for_module self module teachers strict = Ok (Some name) →
    get_teacher teachers name = Some t →
    resource_key t module = Some k →
    n' ∈ possible_teachers self →
    get_teacher teachers n' = Some t' →
    is_available_for t' (c_name self) module strict = Ok true →
    resource_key t' module = Some k →
    String.leb name n' = true.

(** Two interchangeable teachers, and a course whose set of possible teachers
    is iterated with "Bob" first. *)
Definition open_teacher (name : string) : Teacher :=
  mkTeacher name {["CS101"]} (replicate 14 1) 1 1 [] ∅.

Definition two_teachers : list Teacher :=
  [open_teacher "Alice"; open_teacher "Bob"].

Definition cs101_bob_first : Course :=
  mkCourse "CS101" false 0 [] ["Bob"; "Alice"] None None None false.

(** An entry of [available] whose score is an integer, with its key. *)
Definition entry_key (e : avail_entry) : option key3 :=
  match e with
  | (_, Some score, sp, cap) => Some (score, sp, - cap)
  | _ => None
  end.

(** What the list [available] records for a possible teacher. *)
Definition entry_for (cn : string) (module : Z) (ts : list Teacher)
    (strict : bool) (n : string) (t : Teacher) (e : avail_entry) : Prop :=
  get_teacher ts n = Some t
  ∧ is_available_for t cn module strict = Ok true
  ∧ availability_score t module = Ok (e.1.1.2)
  ∧ e.1.1.1 = n
  ∧ e.1.2 = Z.of_nat (size (can_teach_courses t))
  ∧ e.2 = capacity_left t.

(** One placement made by Pass 2 or Pass 3: a course [chosen] of the working
    list, accepted by the module, is assigned through [assign_to_module] and
    then added to the module. *)
Inductive placement (layer : Z) (self : Scheduler) (unassigned : list string)
    : Scheduler → list string → Prop :=
| placement_intro (module_num : Z) (strict : bool) (modl modl' : ModuleSlot)
    (chosen chosen' : Course) (teachers' : list Teacher) :
    get_module (modules self) module_num = Some modl →
    get_course (courses self) (c_name chosen) = Some chosen →
    c_name chosen ∈ unassigned →
    can_accept modl chosen layer false (courses self) = true →
    assign_to_module chosen module_num layer (courses self) (teachers self)
      strict = Ok (true, chosen', teachers') →
    add_course modl chosen' layer false (set_course (courses self) chosen')
      = Ok modl' →
    placement layer self unassigned
      {| teachers := teachers';
         courses := set_course (courses self) chosen';
         modules := set_module (modules self) modl' |}
      (list_remove (c_name chosen) unassigned).

(** [n] placements in a row, each at a layer satisfying [P]. *)
Inductive placements (P : Z → Prop)
    : nat → Scheduler → list string → Scheduler → list string → Prop :=
| placements_nil (self : Scheduler) (unassigned : list string) :
    placements P 0 self unassigned self unassigned
| placements_step (n : nat) (layer : Z) (self self1 self2 : Scheduler)
    (u u1 u2 : list string) :
    P layer →
    placement layer self u self1 u1 →
    placements P n self1 u1 self2 u2 →
    placements P (S n) self u self2 u2.

(** The courses of the first scenario of the specification: "CS101" can be
    taught by Alice only, who prefers module 5 and is forbidden elsewhere. *)
Definition cs101 : Course :=
  mkCourse "CS101" false 0 [] ["Alice"] None None None false.

Definition fourteen_modules : list ModuleSlot := new_module <$> seqZ 1 14.

Definition scenario1 : Scheduler :=
  {| teachers := [alice]; courses := [cs101]; modules := fourteen_modules |}.


(** Course [u] is unassigned and may not be placed below layer 1. *)
Definition held_back (self : Scheduler) (u : string) : Prop :=
  ∃ cu,
    get_course (courses self) u = Some cu
    ∧ module_assigned cu = None
    ∧ 1 ≤ min_layer cu.

(** Every course that has a layer (the courses placed by Pass 2 and Pass 3)
    has a module, and each of its prerequisites has a module and a layer whose
    absolute index [layer * 14 + module] is strictly smaller. *)
Definition prereqs_precede (self : Scheduler) : Prop :=
  ∀ n c layer,
    get_course (courses self) n = Some c →
    layer_assigned c = Some layer →
    ∃ m, module_assigned c = Some m
      ∧ ∀ p, p ∈ prereqs c →
          ∃ pc pl pm,
            get_course (courses self) p = Some pc
            ∧ layer_assigned pc = Some pl
            ∧ module_assigned pc = Some pm
            ∧ pl * 14 + pm < layer * 14 + m.

(** The same ordering asked of every chain course that has a module, the
    courses placed by Pass 1 included. *)
Definition prereqs_precede_all_assigned (self : Scheduler) : Prop :=
  ∀ n c m,
    get_course (courses self) n = Some c →
    part_of_chain c = true →
    module_assigned c = Some m →
    ∀ p, p ∈ prereqs c →
      ∃ pc layer pl pm,
        get_course (courses self) p = Some pc
        ∧ layer_assigned c = Some layer
        ∧ layer_assigned pc = Some pl
        ∧ module_assigned pc = Some pm
        ∧ pl * 14 + pm < layer * 14 + m.

(** No module holds both the celebrity flag and a chain course. *)
Definition no_fixed_with_chain (self : Scheduler) : Prop :=
  ∀ num modl,
    get_module (modules self) num = Some modl →
    has_celebrity_course modl = true →
    any_chain (courses self) (m_courses modl) = false.

(** In a module that holds the celebrity flag, every chain course is itself
    a course placed by Pass 1. *)
Definition fixed_and_chain_apart (self : Scheduler) : Prop :=
  ∀ num modl n c,
    get_module (modules self) num = Some modl →
    has_celebrity_course modl = true →
    n ∈ m_courses modl →
    get_course (courses self) n = Some c →
    part_of_chain c = true →
    is_celebrity c = true.

(** Two chain courses, "B" after "A", both taught by a teacher free in every
    module; and a third course outside the chain that asks for layer 1. *)
Definition bea : Teacher :=
  mkTeacher "Bea" {["A"; "B"; "C"]} (replicate 14 1) 5 5 [] ∅.

Definition course_a : Course :=
  mkCourse "A" true 0 [] ["Bea"] None None None false.

Definition course_b : Course :=
  mkCourse "B" true 0 ["A"] ["Bea"] None None None false.

Definition course_c : Course :=
  mkCourse "C" false 1 [] ["Bea"] None None None false.

Definition chain_scenario : Scheduler :=
  {| teachers := [bea];
     courses := [course_a; course_b; course_c];
     modules := fourteen_modules |}.

(** The stores as Pass 1 leaves them, or unchanged if it raises. *)
Definition after_pass1 (self : Scheduler)
    (rows : list (string * Z * string)) : Scheduler :=
  match pass1_celebrity self rows with
  | Ok (_, self') => self'
  | _ => self
  end.

(** The chain scenario once Pass 1 has fixed "A" in module 5. *)
Definition fixed_a_scenario : Scheduler :=
  after_pass1 chain_scenario [("A", 5, "Bea")].

(** The bookkeeping of a teacher is consistent: the modules taken are those
    of the bookings, no module is booked twice, and the capacity left is the
    total capacity minus the number of bookings, never negative. *)
Definition teacher_ok (t : Teacher) : Prop :=
  assigned_modules t = list_to_set (snd <$> teaches t)
  ∧ NoDup (snd <$> teaches t)
  ∧ capacity_left t = capacity_total t - Z.of_nat (List.length (teaches t))
  ∧ 0 ≤ capacity_left t.

(** Every teacher has exactly 14 preference values, each 1, 0 or -1. *)
Definition teachers_declared_14 (teachers : list Teacher) : Prop :=
  Forall (fun t => List.length (availability t) = 14%nat
                   ∧ Forall (fun v => v = -1 ∨ v = 0 ∨ v = 1) (availability t))
    teachers.

(** Every possible teacher of the course is a key of the teacher dict. *)
Definition teachers_resolve (c : Course) (teachers : list Teacher) : Prop :=
  Forall (fun n => is_Some (get_teacher teachers n)) (possible_teachers c).

(** No module of the dict holds more courses than its capacity. *)
Definition modules_within_capacity (self : Scheduler) : Prop :=
  ∀ num modl,
    get_module (modules self) num = Some modl →
    total_count modl ≤ max_capacity modl.

(** No module counts more than one chain course in any layer. *)
Definition one_chain_per_layer (self : Scheduler) : Prop :=
  ∀ num modl layer,
    get_module (modules self) num = Some modl →
    chain_count_in_layer modl layer ≤ 1.

(** Every teacher of the dict has consistent bookkeeping. *)
Definition teachers_ok (self : Scheduler) : Prop :=
  ∀ n t, get_teacher (teachers self) n = Some t → teacher_ok t.

(** The schedule and the bookings say the same: a course with a module and a
    teacher is booked by that teacher for that module, and every booking of a
    teacher is a course that has this module and this teacher. *)
Definition bookings_match (self : Scheduler) : Prop :=
  (∀ n c m tn,
     get_course (courses self) n = Some c →
     module_assigned c = Some m →
     teacher_assigned c = Some tn →
     ∃ t, get_teacher (teachers self) tn = Some t ∧ (n, m) ∈ teaches t)
  ∧ (∀ tn t n m,
       get_teacher (teachers self) tn = Some t →
       (n, m) ∈ teaches t →
       ∃ c, get_course (courses self) n = Some c
         ∧ module_assigned c = Some m
         ∧ teacher_assigned c = Some tn).

(** Courses that have a module in [s] are the same objects in [s']. *)
Definition assigned_stay (s s' : Scheduler) : Prop :=
  ∀ n c,
    get_course (courses s) n = Some c →
    is_Some (module_assigned c) →
    get_course (courses s') n = Some c.

(** One unassigned course gets a module and a teacher, and that teacher
    books it: the common step of the three passes, as far as courses and
    teachers go. *)
Definition booking_step (s s' : Scheduler) : Prop :=
  ∃ c c' num name t t',
    get_course (courses s) (c_name c) = Some c
    ∧ module_assigned c = None
    ∧ c_name c' = c_name c
    ∧ module_assigned c' = Some num
    ∧ teacher_assigned c' = Some name
    ∧ get_teacher (teachers s) name = Some t
    ∧ assign_to t (c_name c) num = Ok (true, t')
    ∧ courses s' = set_course (courses s) c'
    ∧ teachers s' = set_teacher (teachers s) t'.

(** Course [c] was unassigned and [c'] is [c] as Pass 2 assigns it: a chain
    course, in a module of 1..14, at a layer between 0 and [max_layers] and
    not below its [min_layer], with one of its possible teachers. *)
Definition placed_by_pass2 (max_layers : Z) (c c' : Course) : Prop :=
  module_assigned c = None
  ∧ part_of_chain c = true
  ∧ ∃ m l t,
      1 ≤ m ≤ 14
      ∧ 0 ≤ l ≤ max_layers
      ∧ min_layer c ≤ l
      ∧ t ∈ possible_teachers c
      ∧ c' = set_assignment c m l t.

(** Course [c] was unassigned and [c'] is [c] as Pass 3 assigns it: at layer
    0, which its [min_layer] allows, with one of its possible teachers. *)
Definition placed_by_pass3 (c c' : Course) : Prop :=
  module_assigned c = None
  ∧ min_layer c ≤ 0
  ∧ ∃ m t, t ∈ possible_teachers c ∧ c' = set_assignment c m 0 t.

(** Every course of [s] is still in [s'], unchanged or changed as [P] says. *)
Definition courses_evolve (P : Course → Course → Prop) (s s' : Scheduler)
    : Prop :=
  ∀ name c,
    get_course (courses s) name = Some c →
    ∃ c', get_course (courses s') name = Some c' ∧ (c' = c ∨ P c c').

(** The modules of [s] that hold the celebrity flag are unchanged in [s']. *)
Definition celebrity_modules_stay (s s' : Scheduler) : Prop :=
  ∀ num modl,
    get_module (modules s) num = Some modl →
    has_celebrity_course modl = true →
    get_module (modules s') num = Some modl.

(** What Pass 1 does for one row (course, module, teacher), between the
    stores [s] it started from and the stores [s'] it returns: the course had
    no module and lists the teacher as possible, the module had no celebrity
    course; afterwards the course carries the module, the teacher and the
    celebrity mark of the row, and the module holds the flag and the course as
    its newest occupant. *)
Definition row_honoured (s s' : Scheduler) (row : string * Z * string)
    : Prop :=
  let '(cn0, m, tn0) := row in
  ∃ c modl modl',
    get_course (courses s) (strip cn0) = Some c
    ∧ module_assigned c = None
    ∧ strip tn0 ∈ possible_teachers c
    ∧ get_module (modules s) m = Some modl
    ∧ has_celebrity_course modl = false
    ∧ get_course (courses s') (strip cn0)
      = Some (set_celebrity c m (strip tn0))
    ∧ get_module (modules s') m = Some modl'
    ∧ has_celebrity_course modl' = true
    ∧ m_courses modl' = (m_courses modl ++ [strip cn0])%list.

Definition row_course (row : string * Z * string) : string := strip row.1.1.

Definition row_module (row : string * Z * string) : Z := row.1.2.

(** The number of courses of the dict that have a module. *)
Definition assigned_count (self : Scheduler) : nat :=
  List.length (filter (fun c => is_Some (module_assigned c)) (courses self)).

(** The keys of the course dict are pairwise different. *)
Definition course_names_distinct (self : Scheduler) : Prop :=
  NoDup (c_name <$> courses self).

(** The stores as the loaders hand them to the scheduler: no course has a
    module or a layer, every module is empty with a capacity that is not
    negative, and no teacher has a booking or a negative capacity. *)
Definition freshly_loaded (self : Scheduler) : Prop :=
  Forall (fun c => module_assigned c = None ∧ layer_assigned c = None)
    (courses self)
  ∧ Forall (fun m => m_courses m = [] ∧ chain_layers m = ∅
                     ∧ has_celebrity_course m = false ∧ 0 ≤ max_capacity m)
      (modules self)
  ∧ Forall (fun t => teaches t = [] ∧ assigned_modules t = ∅
                     ∧ capacity_left t = capacity_total t
                     ∧ 0 ≤ capacity_total t)
      (teachers self).

(** The teacher data is well formed: every teacher has 14 preference values
    among 1, 0 and -1, and every possible teacher of every course is a key of
    the teacher dict. *)
Definition well_formed_teachers (self : Scheduler) : Prop :=
  teachers_declared_14 (teachers self)
  ∧ Forall (fun c => teachers_resolve c (teachers self)) (courses self).

(** The heads of the [while] loop of Pass 2 in the run started on [self]:
    the stores, the working list [unassigned], [assigned_total] and [layer]
    each time the loop condition is tested.  The first head is the state set
    up before the loop; from a head with a non-empty working list and a layer
    within [max_layers], one iteration of the body leads to the next. *)
Inductive pass2_loop_head (self : Scheduler) (max_layers : Z)
    : Scheduler → list string → Z → Z → Prop :=
| loop_head_first :
    pass2_loop_head self max_layers self (chain_unassigned self) 0 0
| loop_head_next (s : Scheduler) (unassigned : list string)
    (assigned_total layer : Z) (r : p2_layer) :
    pass2_loop_head self max_layers s unassigned assigned_total layer →
    unassigned ≠ [] →
    layer ≤ max_layers →
    pass2_layer_iteration s unassigned assigned_total layer = Ok r →
    pass2_loop_head self max_layers (pl_self r) (pl_unassigned r)
      (pl_assigned_total r)
      (if pl_progress_this_layer r =? 0 then layer + 1 else layer).

(** Every course of the working list is a chain course of the dict that has
    no module. *)
Definition still_unassigned (s : Scheduler) (unassigned : list string)
    : Prop :=
  ∀ name, name ∈ unassigned →
    ∃ c, get_course (courses s) name = Some c
      ∧ part_of_chain c = true
      ∧ module_assigned c = None.

(** Chain courses "A" and "B" as before, and a chain course "D" that may not
    be placed below layer 3. *)
Definition course_d : Course :=
  mkCourse "D" true 3 [] ["Bea"] None None None false.

Definition late_unit_scenario : Scheduler :=
  {| teachers := [bea];
     courses := [course_a; course_b; course_d];
     modules := fourteen_modules |}.
(** * Properties *)

(** ** The result monad *)

Lemma bind_Ok {A B : Type} (f : A → result B) (r : result A) (b : B) :
  (r ≫= f) = Ok b ↔ ∃ a, r = Ok a ∧ f a = Ok b.
Proof.
  destruct r as [a| |]; simpl; split; try (intros [a' [? ?]]); try discriminate.
  - intros H. by exists a.
  - by simplify_eq.
Qed.

Lemma bind_not_fuel {A B : Type} (f : A → result B) (r : result A) :
  r ≠ OutOfFuel → (∀ a, r = Ok a → f a ≠ OutOfFuel) → (r ≫= f) ≠ OutOfFuel.
Proof. destruct r; simpl; intros H1 H2; auto; discriminate. Qed.

(** Splits a hypothesis [(x ← e; k x) = Ok y] into its two steps. *)
Ltac inv_bind H :=
  let x := fresh "x" in
  let Hx := fresh "Hx" in
  apply bind_Ok in H as [x [Hx H]].

(** ** Stores *)

Section stores.
Context {A K : Type} `{EqDecision K} (key : A → K).

Lemma store_get_key l k a : store_get key l k = Some a → key a = k.
Proof.
  intros H. apply find_some in H as [_ H]. by apply bool_decide_eq_true in H.
Qed.

Lemma store_get_elem l k a : store_get key l k = Some a → a ∈ l.
Proof.
  intros H. apply find_some in H as [H _]. by apply list_elem_of_In.
Qed.

Lemma store_get_cons x l k :
  store_get key (x :: l) k =
    if decide (key x = k) then Some x else store_get key l k.
Proof. unfold store_get. simpl. case_bool_decide; case_decide; done. Qed.

Lemma store_set_cons x l a :
  store_set key (x :: l) a =
    (if decide (key x = key a) then a else x) :: store_set key l a.
Proof.
  unfold store_set. simpl. case_bool_decide; case_decide; done.
Qed.

Lemma store_get_set l a k :
  store_get key (store_set key l a) k =
    if decide (key a = k)
    then (match store_get key l k with Some _ => Some a | None => None end)
    else store_get key l k.
Proof.
  induction l as [|x l IH]; [by destruct (decide (key a = k))|].
  rewrite store_set_cons, !store_get_cons, IH.
  repeat case_decide; simplify_eq; try done; congruence.
Qed.
End stores.

Lemma get_course_set (cs : list Course) (c : Course) (n : string) :
  get_course (set_course cs c) n =
    if decide (c_name c = n)
    then (match get_course cs n with Some _ => Some c | None => None end)
    else get_course cs n.
Proof. apply (store_get_set c_name). Qed.

Lemma get_course_name (cs : list Course) (n : string) (c : Course) :
  get_course cs n = Some c → c_name c = n.
Proof. apply (store_get_key c_name). Qed.

Lemma get_teacher_set (ts : list Teacher) (t : Teacher) (n : string) :
  get_teacher (set_teacher ts t) n =
    if decide (t_name t = n)
    then (match get_teacher ts n with Some _ => Some t | None => None end)
    else get_teacher ts n.
Proof. apply (store_get_set t_name). Qed.

Lemma get_teacher_name (ts : list Teacher) (n : string) (t : Teacher) :
  get_teacher ts n = Some t → t_name t = n.
Proof. apply (store_get_key t_name). Qed.

Lemma get_module_set (ms : list ModuleSlot) (m : ModuleSlot) (n : Z) :
  get_module (set_module ms m) n =
    if decide (number m = n)
    then (match get_module ms n with Some _ => Some m | None => None end)
    else get_module ms n.
Proof. apply (store_get_set number). Qed.

Lemma get_module_number (ms : list ModuleSlot) (n : Z) (m : ModuleSlot) :
  get_module ms n = Some m → number m = n.
Proof. apply (store_get_key number). Qed.

(** ** Sorting and removal *)

Lemma insert_sorted_elem {A : Type} (lt : A → A → bool) (x y : A) (l : list A) :
  y ∈ insert_sorted lt x l ↔ y = x ∨ y ∈ l.
Proof.
  induction l as [|z l IH]; simpl.
  - set_solver.
  - destruct (lt z x); set_solver.
Qed.

Lemma py_sort_elem {A : Type} (lt : A → A → bool) (y : A) (l : list A) :
  y ∈ py_sort lt l ↔ y ∈ l.
Proof.
  induction l as [|x l IH]; simpl; [done|].
  rewrite insert_sorted_elem. set_solver.
Qed.

Lemma py_sort_head {A : Type} (lt : A → A → bool) (x : A) (l tl : list A) :
  py_sort lt l = x :: tl → x ∈ l.
Proof. intros H. apply (py_sort_elem lt). rewrite H. set_solver. Qed.

Lemma list_remove_length (n : string) (l : list string) :
  n ∈ l → S (List.length (list_remove n l)) = List.length l.
Proof.
  induction l as [|x l IH]; simpl; [by intros ?%elem_of_nil|].
  intros Hin. case_bool_decide; [done|].
  simpl. f_equal. apply IH. set_solver.
Qed.

Lemma list_remove_subseteq (n : string) (l : list string) :
  list_remove n l ⊆ l.
Proof.
  induction l as [|x l IH]; simpl; [done|].
  case_bool_decide; set_solver.
Qed.

(** ** Teacher *)

Lemma py_index_in_range {A : Type} (l : list A) (i : Z) :
  0 ≤ i < Z.of_nat (List.length l) →
  ∃ x, l !! Z.to_nat i = Some x ∧ py_index l i = Ok x.
Proof.
  intros Hi. unfold py_index.
  destruct (Z.ltb_spec i 0); [lia|].
  destruct (Z.ltb_spec i 0); [lia|].
  destruct (Z.leb_spec (Z.of_nat (List.length l)) i); [lia|]. simpl.
  destruct (l !! Z.to_nat i) as [x|] eqn:E; [by exists x|].
  apply lookup_ge_None in E. lia.
Qed.

Lemma is_available_for_cases (self : Teacher) (course_name : string)
    (module : Z) (strict : bool) (pref : Z) :
  py_index (availability self) (module - 1) = Ok pref →
  (unavailable self course_name module strict pref
     ∧ is_available_for self course_name module strict = Ok false)
  ∨ (¬ unavailable self course_name module strict pref
     ∧ is_available_for self course_name module strict = Ok true).
Proof.
  intros Hidx. unfold is_available_for, unavailable. rewrite Hidx. simpl.
  destruct (Z.ltb_spec (capacity_left self) 1); [left; split; [naive_solver|done]|].
  case_bool_decide; [left; split; [naive_solver|done]|].
  destruct (Z.eqb_spec pref (-1)); [left; split; [naive_solver|done]|].
  destruct strict; simpl.
  - destruct (Z.eqb_spec pref 0); simpl; [left; split; [naive_solver|done]|].
    case_bool_decide; simpl; [right|left; split; [naive_solver|done]].
    split; [|done]. intros [?|[?|[?|[[? ?]|?]]]]; by try lia.
  - case_bool_decide; simpl; [right|left; split; [naive_solver|done]].
    split; [|done]. intros [?|[?|[?|[[? ?]|?]]]]; by try lia.
Qed.

(** C7. For a teacher with its 14 preference values and a module number in
    1..14, [is_available_for] returns a boolean; it is [False] exactly when
    the capacity left is below 1, or the module is already taken by the
    teacher, or the preference for the module is -1, or [strict] holds and the
    preference is 0, or the course is not among those the teacher can teach;
    otherwise it is [True].  The function only reads the teacher: its result
    is a boolean and no teacher is returned. *)
Theorem is_available_for_spec (self : Teacher) (course_name : string)
    (module : Z) (strict : bool) :
  List.length (availability self) = 14%nat →
  1 ≤ module ≤ 14 →
  ∃ pref b,
    preference self module = Some pref
    ∧ is_available_for self course_name module strict = Ok b
    ∧ (b = false ↔ unavailable self course_name module strict pref)
    ∧ (b = true ↔ ¬ unavailable self course_name module strict pref).
Proof.
  intros Hlen Hm.
  destruct (py_index_in_range (availability self) (module - 1))
    as [pref [Hl Hi]]; [lia|].
  destruct (is_available_for_cases self course_name module strict pref Hi)
    as [[Hu He]|[Hu He]].
  - exists pref, false. repeat split; auto; try done.
  - exists pref, true. repeat split; auto; try done.
Qed.

Lemma is_available_for_spec_witness :
  List.length (availability alice) = 14%nat ∧ 1 ≤ 5 ≤ 14 ∧
  ∃ pref b,
    preference alice 5 = Some pref
    ∧ is_available_for alice "CS101" 5 true = Ok b
    ∧ (b = false ↔ unavailable alice "CS101" 5 true pref)
    ∧ (b = true ↔ ¬ unavailable alice "CS101" 5 true pref).
Proof.
  split; [reflexivity|]. split; [lia|].
  apply (is_available_for_spec alice "CS101" 5 true); [reflexivity|lia].
Defined.

Lemma py_index_fuel {A : Type} (l : list A) (i : Z) : py_index l i ≠ OutOfFuel.
Proof. unfold py_index. repeat case_match; done. Qed.

Lemma is_available_for_fuel (self : Teacher) (course_name : string)
    (module : Z) (strict : bool) :
  is_available_for self course_name module strict ≠ OutOfFuel.
Proof.
  unfold is_available_for.
  pose proof (py_index_fuel (availability self) (module - 1)) as Hi.
  destruct (py_index (availability self) (module - 1)); [|by repeat case_match|done].
  simpl. repeat (case_match; simpl; try done).
Qed.

(** C8. [assign_to] first asks [is_available_for] with [strict=False].  When
    the answer is [True] it returns [True] and the teacher has the pair
    appended to [teaches], the module added to [assigned_modules] and
    [capacity_left] lowered by exactly 1, nothing else changed.  When the
    answer is [False] it returns [False] and the teacher is unchanged.  An
    exception of the check is passed on, again with no change. *)
Theorem assign_to_spec (self : Teacher) (course_name : string) (module : Z) :
  match is_available_for self course_name module false with
  | Ok true =>
      ∃ self', assign_to self course_name module = Ok (true, self')
        ∧ teaches self' = (teaches self ++ [(course_name, module)])%list
        ∧ assigned_modules self' = {[module]} ∪ assigned_modules self
        ∧ capacity_left self' = capacity_left self - 1
        ∧ t_name self' = t_name self
        ∧ can_teach_courses self' = can_teach_courses self
        ∧ availability self' = availability self
        ∧ capacity_total self' = capacity_total self
  | Ok false => assign_to self course_name module = Ok (false, self)
  | Raise e => assign_to self course_name module = Raise e
  | OutOfFuel => False
  end.
Proof.
  unfold assign_to.
  destruct (is_available_for self course_name module false) as [[|]| |] eqn:E;
    simpl; try done.
  - eexists. repeat split; done.
  - by apply is_available_for_fuel in E.
Qed.

(** ** Choosing a teacher *)

Lemma py_index_elem {A : Type} (l : list A) (i : Z) (x : A) :
  py_index l i = Ok x → x ∈ l.
Proof.
  unfold py_index. repeat case_match; try done.
  all: intros ?; simplify_eq; by eapply list_elem_of_lookup_2.
Qed.

Lemma available_score (ts : list Teacher) (t : Teacher) (cn : string)
    (module : Z) (strict : bool) :
  preferences_declared ts → t ∈ ts →
  is_available_for t cn module strict = Ok true →
  ∃ score, availability_score t module = Ok (Some score).
Proof.
  intros Hdecl Ht Hav. unfold is_available_for in Hav.
  unfold availability_score.
  destruct (capacity_left t <? 1); [done|].
  case_bool_decide; [done|].
  destruct (py_index (availability t) (module - 1)) as [v| |] eqn:Hi;
    simpl in *; try done.
  destruct (Z.eqb_spec v (-1)); [done|].
  apply py_index_elem in Hi.
  unfold preferences_declared in Hdecl. rewrite Forall_forall in Hdecl.
  specialize (Hdecl t Ht). rewrite Forall_forall in Hdecl.
  destruct (Hdecl v Hi) as [?|[?|?]]; subst; try done; eauto.
Qed.

Lemma key_lt_some (s1 b1 c1 s2 b2 c2 : Z) :
  ∃ r : bool, key_lt (Some s1, b1, c1) (Some s2, b2, c2) = Ok r
    ∧ (r = true ↔ key3_lt (s1, b1, c1) (s2, b2, c2)).
Proof.
  unfold key_lt, key3_lt. simpl.
  destruct (Z.eqb_spec s1 s2); simpl.
  - destruct (Z.eqb_spec b1 b2); simpl; eexists; (split; [done|]).
    + rewrite Z.ltb_lt. lia.
    + rewrite Z.ltb_lt. lia.
  - eexists; split; [done|]. rewrite Z.ltb_lt. lia.
Qed.

Lemma key3_lt_trans (a b c : key3) : key3_lt a b → key3_lt b c → key3_lt a c.
Proof. unfold key3_lt. lia. Qed.

Lemma key3_lt_le_trans (a b c : key3) :
  key3_lt a b → ¬ key3_lt c b → key3_lt a c.
Proof. unfold key3_lt. lia. Qed.

Lemma key3_lt_irrefl (a : key3) : ¬ key3_lt a a.
Proof. unfold key3_lt. lia. Qed.

Lemma py_min_loop_scan (rest l1 l2 : list avail_entry) (b0 : avail_entry)
    (k0 : key3) :
  entry_key b0 = Some k0 →
  (∀ x, x ∈ rest → is_Some (entry_key x)) →
  (∀ x k, x ∈ l1 → entry_key x = Some k → key3_lt k0 k) →
  (∀ x k, x ∈ l2 → entry_key x = Some k → ¬ key3_lt k k0) →
  ∃ b kb l1' l2',
    py_min_loop b0 rest = Ok b
    ∧ entry_key b = Some kb
    ∧ (l1 ++ b0 :: l2 ++ rest = l1' ++ b :: l2')%list
    ∧ (∀ x k, x ∈ l1' → entry_key x = Some k → key3_lt kb k)
    ∧ (∀ x k, x ∈ l2' → entry_key x = Some k → ¬ key3_lt k kb).
Proof.
  revert l1 l2 b0 k0.
  induction rest as [|x rest IH]; intros l1 l2 b0 k0 Hk0 Hsome H1 H2.
  - exists b0, k0, l1, l2. simpl. rewrite app_nil_r. done.
  - destruct (Hsome x) as [kx Hkx]; [set_solver|].
    destruct x as [[[nx [sx|]] px] cx]; [|done].
    destruct b0 as [[[nb [sb|]] pb] cb]; [|done].
    simpl in Hkx, Hk0. simplify_eq.
    destruct (key_lt_some sx px (- cx) sb pb (- cb)) as [r [Hr Hiff]].
    cbn [py_min_loop key_of]. rewrite Hr. simpl.
    destruct r.
    + destruct (IH (l1 ++ (nb, Some sb, pb, cb) :: l2)%list []
                  (nx, Some sx, px, cx) (sx, px, - cx))
        as (b & kb & l1' & l2' & Hm & Hkb & Heq & Hl1 & Hl2); try done.
      * set_solver.
      * intros y k Hy Hyk. assert (Hlt : key3_lt (sx, px, - cx) (sb, pb, - cb))
          by by apply Hiff.
        apply elem_of_app in Hy as [Hy|Hy].
        { eapply key3_lt_trans; [exact Hlt|]. by eapply H1. }
        apply elem_of_cons in Hy as [->|Hy].
        { simpl in Hyk. by simplify_eq. }
        eapply key3_lt_le_trans; [exact Hlt|]. by eapply H2.
      * set_solver.
      * exists b, kb, l1', l2'. repeat split; try done.
        rewrite <- Heq. by rewrite <- !app_assoc.
    + destruct (IH l1 (l2 ++ [(nx, Some sx, px, cx)])%list
                  (nb, Some sb, pb, cb) (sb, pb, - cb))
        as (b & kb & l1' & l2' & Hm & Hkb & Heq & Hl1 & Hl2); try done.
      * set_solver.
      * intros y k Hy Hyk. apply elem_of_app in Hy as [Hy|Hy].
        { by eapply H2. }
        apply list_elem_of_singleton in Hy as ->. simpl in Hyk. simplify_eq.
        intros Hlt. apply Hiff in Hlt. done.
      * exists b, kb, l1', l2'. repeat split; try done.
        rewrite <- Heq. by rewrite <- !app_assoc.
Qed.

Section available.
Context (cn : string) (module : Z) (ts : list Teacher) (strict : bool).

Local Abbreviation entry_for := (entry_for cn module ts strict).

Lemma available_loop_split (names : list string) (av l1 l2 : list avail_entry)
    (e : avail_entry) :
  available_loop cn names module ts strict = Ok av →
  av = (l1 ++ e :: l2)%list →
  ∃ pre post t,
    names = (pre ++ e.1.1.1 :: post)%list
    ∧ entry_for (e.1.1.1) t e
    ∧ available_loop cn pre module ts strict = Ok l1
    ∧ available_loop cn post module ts strict = Ok l2.
Proof.
  revert av l1.
  induction names as [|n names IH]; intros av l1 Hav Heq; simpl in Hav.
  - simplify_eq. by destruct l1.
  - destruct (get_teacher ts n) as [t|] eqn:Ht; [|done].
    inv_bind Hav. destruct x.
    + inv_bind Hav. inv_bind Hav. simplify_eq.
      destruct l1 as [|e1 l1]; simplify_eq/=.
      * exists [], names, t. split_and!; done.
      * destruct (IH _ _ Hx1 eq_refl) as (pre & post & t' & -> & He & Hp & Hq).
        exists (n :: pre), post, t'. split_and!; try done.
        simpl. rewrite Ht. rewrite Hx. simpl. rewrite Hx0. simpl.
        by rewrite Hp.
    + destruct (IH _ _ Hav Heq) as (pre & post & t' & -> & He & Hp & Hq).
      exists (n :: pre), post, t'. split_and!; try done.
      simpl. rewrite Ht. rewrite Hx. simpl. done.
Qed.

Lemma available_loop_mem (names : list string) (av : list avail_entry)
    (n : string) (t : Teacher) :
  available_loop cn names module ts strict = Ok av →
  n ∈ names →
  get_teacher ts n = Some t →
  is_available_for t cn module strict = Ok true →
  ∃ e, e ∈ av ∧ entry_for n t e.
Proof.
  revert av. induction names as [|n0 names IH]; intros av Hav Hin Ht Hok.
  - by apply elem_of_nil in Hin.
  - simpl in Hav. destruct (get_teacher ts n0) as [t0|] eqn:Ht0; [|done].
    inv_bind Hav. apply elem_of_cons in Hin as [->|Hin].
    + rewrite Ht in Ht0. simplify_eq. rewrite Hok in Hx. simplify_eq.
      inv_bind Hav. inv_bind Hav. simplify_eq.
      eexists. split; [by left|]. repeat split; done.
    + destruct x.
      * inv_bind Hav. inv_bind Hav. simplify_eq.
        destruct (IH _ Hx1 Hin Ht Hok) as (e & He & Hf).
        exists e. split; [by right|done].
      * by apply IH.
Qed.

Lemma entry_for_key (n : string) (t : Teacher) (e : avail_entry) :
  preferences_declared ts → entry_for n t e →
  ∃ k, entry_key e = Some k ∧ resource_key t module = Some k.
Proof.
  intros Hdecl (Ht & Hok & Hsc & Hn & Hsp & Hcap).
  destruct (available_score ts t cn module strict Hdecl) as [sc Hs];
    [by eapply (store_get_elem t_name)|done|].
  unfold resource_key. rewrite Hs.
  destruct e as [[[ne se] pe] ce]. simpl in *. simplify_eq.
  rewrite Hs in Hsc. simplify_eq. eexists. split; done.
Qed.
Lemma available_loop_checks (names : list string) (av : list avail_entry) :
  available_loop cn names module ts strict = Ok av →
  ∀ n, n ∈ names →
    ∃ t b, get_teacher ts n = Some t
      ∧ is_available_for t cn module strict = Ok b.
Proof.
  revert av. induction names as [|n0 names IH]; intros av Hav n Hin.
  - by apply elem_of_nil in Hin.
  - simpl in Hav. destruct (get_teacher ts n0) as [t0|] eqn:Ht0; [|done].
    inv_bind Hav. apply elem_of_cons in Hin as [->|Hin].
    + by exists t0, x.
    + destruct x.
      * inv_bind Hav. inv_bind Hav. by eapply IH.
      * by eapply IH.
Qed.

Lemma available_loop_returns (names : list string) :
  preferences_declared ts →
  (∀ n, n ∈ names →
     ∃ t b, get_teacher ts n = Some t
       ∧ is_available_for t cn module strict = Ok b) →
  ∃ av, available_loop cn names module ts strict = Ok av.
Proof.
  intros Hdecl. induction names as [|n0 names IH]; intros Hall; simpl.
  - by eexists.
  - destruct (Hall n0) as (t & b & Ht & Hb); [by left|].
    destruct IH as [av Hav]; [intros n Hn; apply Hall; by right|].
    rewrite Ht, Hb. simpl. destruct b; [|by eexists].
    destruct (available_score ts t cn module strict Hdecl) as [sc Hsc];
      [by eapply (store_get_elem t_name)|done|].
    rewrite Hsc. simpl. rewrite Hav. simpl. by eexists.
Qed.
End available.

(** The teacher returned is available, its key is minimal, and it is the
    first of the minimal ones in the order of [possible_teachers]. *)
Lemma chosen_teacher_first_minimal (self : Course) (module : Z)
    (teachers : list Teacher) (strict : bool) (name : string) :
  preferences_declared teachers →
  get_teacher_for_module self module teachers strict = Ok (Some name) →
  ∃ t k pre post,
    possible_teachers self = (pre ++ name :: post)%list
    ∧ get_teacher teachers name = Some t
    ∧ is_available_for t (c_name self) module strict = Ok true
    ∧ resource_key t module = Some k
    ∧ (∀ n' t', n' ∈ pre → get_teacher teachers n' = Some t' →
         is_available_for t' (c_name self) module strict = Ok true →
         ∃ k', resource_key t' module = Some k' ∧ key3_lt k k')
    ∧ (∀ n' t', n' ∈ post → get_teacher teachers n' = Some t' →
         is_available_for t' (c_name self) module strict = Ok true →
         ∃ k', resource_key t' module = Some k' ∧ ¬ key3_lt k' k).
Proof.
  intros Hdecl H. unfold get_teacher_for_module in H.
  inv_bind H. destruct x as [|first rest]; [done|].
  inv_bind H. simplify_eq. rename x into best.
  assert (Hsome : ∀ e, e ∈ first :: rest → is_Some (entry_key e)).
  { intros e He. apply list_elem_of_split in He as (l1 & l2 & Heq).
    destruct (available_loop_split _ _ _ _ _ _ l1 l2 e Hx Heq)
      as (pre & post & t & _ & Hf & _).
    destruct (entry_for_key _ _ _ _ _ _ _ Hdecl Hf) as (k & Hk & _).
    by rewrite Hk. }
  destruct (Hsome first) as [k0 Hk0]; [by left|].
  destruct (py_min_loop_scan rest [] [] first k0 Hk0)
    as (b & kb & l1 & l2 & Hm & Hkb & Heq & Hl1 & Hl2).
  { intros y Hy. apply Hsome. by right. }
  { intros y k Hy. by apply elem_of_nil in Hy. }
  { intros y k Hy. by apply elem_of_nil in Hy. }
  simpl in Heq. rewrite Hm in Hx0. simplify_eq.
  destruct (available_loop_split _ _ _ _ _ _ l1 l2 best Hx Heq)
    as (pre & post & t & Hnames & Hf & Hpre & Hpost).
  destruct (entry_for_key _ _ _ _ _ _ _ Hdecl Hf) as (k & Hk & Hrk).
  rewrite Hkb in Hk. simplify_eq.
  exists t, k, pre, post.
  destruct Hf as (Ht & Hok & _).
  repeat split; try done.
  - intros n' t' Hin Ht' Hok'.
    destruct (available_loop_mem _ _ _ _ _ _ _ _ Hpre Hin Ht' Hok')
      as (e & He & Hfe).
    destruct (entry_for_key _ _ _ _ _ _ _ Hdecl Hfe) as (k' & Hk' & Hrk').
    exists k'. split; [done|]. by eapply Hl1.
  - intros n' t' Hin Ht' Hok'.
    destruct (available_loop_mem _ _ _ _ _ _ _ _ Hpost Hin Ht' Hok')
      as (e & He & Hfe).
    destruct (entry_for_key _ _ _ _ _ _ _ Hdecl Hfe) as (k' & Hk' & Hrk').
    exists k'. split; [done|]. by eapply Hl2.
Qed.

(** C4, as the code has it.  With preference values 1, 0 or -1:
    - when [get_teacher_for_module] returns a teacher, that teacher is one of
      the possible teachers, is available for the module at the given
      strictness, and its key (availability score, number of teachable
      courses, minus capacity left) is minimal in ascending order; when
      several share the minimal key, it is the one met first while iterating
      over [possible_teachers]: every available teacher met earlier has a
      strictly larger key, and none met later has a smaller one.  The name
      plays no part in the choice;
    - when it returns [None], every possible teacher is in the dict and
      unavailable;
    - when every possible teacher is in the dict and its availability check
      returns, the function returns, and it returns a teacher as soon as one
      possible teacher is available. *)
Theorem get_teacher_for_module_minimal (self : Course) (module : Z)
    (teachers : list Teacher) (strict : bool) :
  preferences_declared teachers →
  (∀ name,
     get_teacher_for_module self module teachers strict = Ok (Some name) →
     ∃ t k pre post,
       possible_teachers self = (pre ++ name :: post)%list
       ∧ get_teacher teachers name = Some t
       ∧ is_available_for t (c_name self) module strict = Ok true
       ∧ resource_key t module = Some k
       ∧ (∀ n' t', n' ∈ pre → get_teacher teachers n' = Some t' →
            is_available_for t' (c_name self) module strict = Ok true →
            ∃ k', resource_key t' module = Some k' ∧ key3_lt k k')
       ∧ (∀ n' t', n' ∈ post → get_teacher teachers n' = Some t' →
            is_available_for t' (c_name self) module strict = Ok true →
            ∃ k', resource_key t' module = Some k' ∧ ¬ key3_lt k' k))
  ∧ (get_teacher_for_module self module teachers strict = Ok None →
     ∀ n, n ∈ possible_teachers self →
       ∃ t, get_teacher teachers n = Some t
         ∧ is_available_for t (c_name self) module strict = Ok false)
  ∧ ((∀ n, n ∈ possible_teachers self →
        ∃ t b, get_teacher teachers n = Some t
          ∧ is_available_for t (c_name self) module strict = Ok b) →
     ∃ r, get_teacher_for_module self module teachers strict = Ok r
       ∧ ∀ n t, n ∈ possible_teachers self →
           get_teacher teachers n = Some t →
           is_available_for t (c_name self) module strict = Ok true →
           is_Some r).
Proof.
  intros Hdecl. split_and!.
  - intros name H. by apply chosen_teacher_first_minimal.
  - unfold get_teacher_for_module. intros H n Hn.
    inv_bind H. destruct x as [|first rest]; [|by inv_bind H].
    destruct (available_loop_checks _ _ _ _ _ _ Hx n Hn) as (t & b & Ht & Hb).
    exists t. split; [done|]. destruct b; [|done].
    destruct (available_loop_mem _ _ _ _ _ _ _ _ Hx Hn Ht Hb) as (e & He & _).
    by apply elem_of_nil in He.
  - intros Hall.
    destruct (available_loop_returns (c_name self) module teachers strict
                (possible_teachers self) Hdecl Hall) as [av Hav].
    unfold get_teacher_for_module. rewrite Hav. simpl.
    destruct av as [|first rest].
    + eexists. split; [done|]. intros n t Hn Ht Hb.
      destruct (available_loop_mem _ _ _ _ _ _ _ _ Hav Hn Ht Hb)
        as (e & He & _).
      by apply elem_of_nil in He.
    + assert (Hsome : ∀ e, e ∈ first :: rest → is_Some (entry_key e)).
      { intros e He. apply list_elem_of_split in He as (l1 & l2 & Heq).
        destruct (available_loop_split _ _ _ _ _ _ l1 l2 e Hav Heq)
          as (pre & post & t & _ & Hf & _).
        destruct (entry_for_key _ _ _ _ _ _ _ Hdecl Hf) as (k & Hk & _).
        by rewrite Hk. }
      destruct (Hsome first) as [k0 Hk0]; [by left|].
      destruct (py_min_loop_scan rest [] [] first k0 Hk0)
        as (b & kb & l1 & l2 & Hm & _).
      { intros y Hy. apply Hsome. by right. }
      { intros y k Hy. by apply elem_of_nil in Hy. }
      { intros y k Hy. by apply elem_of_nil in Hy. }
      rewrite Hm. simpl. eexists. split; [done|]. by eexists.
Qed.

Lemma get_teacher_for_module_minimal_witness :
  preferences_declared two_teachers
  ∧ get_teacher_for_module cs101_bob_first 5 two_teachers false
    = Ok (Some "Bob")
  ∧ (∃ t k pre post,
       possible_teachers cs101_bob_first = (pre ++ "Bob" :: post)%list
       ∧ get_teacher two_teachers "Bob" = Some t
       ∧ is_available_for t (c_name cs101_bob_first) 5 false = Ok true
       ∧ resource_key t 5 = Some k
       ∧ (∀ n' t', n' ∈ pre → get_teacher two_teachers n' = Some t' →
            is_available_for t' (c_name cs101_bob_first) 5 false = Ok true →
            ∃ k', resource_key t' 5 = Some k' ∧ key3_lt k k')
       ∧ (∀ n' t', n' ∈ post → get_teacher two_teachers n' = Some t' →
            is_available_for t' (c_name cs101_bob_first) 5 false = Ok true →
            ∃ k', resource_key t' 5 = Some k' ∧ ¬ key3_lt k' k))
  ∧ (∀ n, n ∈ possible_teachers cs101_bob_first →
       ∃ t b, get_teacher two_teachers n = Some t
         ∧ is_available_for t (c_name cs101_bob_first) 5 false = Ok b)
  ∧ (∃ r, get_teacher_for_module cs101_bob_first 5 two_teachers false = Ok r
       ∧ ∀ n t, n ∈ possible_teachers cs101_bob_first →
           get_teacher two_teachers n = Some t →
           is_available_for t (c_name cs101_bob_first) 5 false = Ok true →
           is_Some r).
Proof.
  assert (Hd : preferences_declared two_teachers).
  { unfold preferences_declared. apply (bool_decide_unpack _).
    vm_compute. exact I. }
  assert (Hr : get_teacher_for_module cs101_bob_first 5 two_teachers false
               = Ok (Some "Bob")) by (vm_compute; reflexivity).
  assert (Hall : ∀ n, n ∈ possible_teachers cs101_bob_first →
            ∃ t b, get_teacher two_teachers n = Some t
              ∧ is_available_for t (c_name cs101_bob_first) 5 false = Ok b).
  { intros n Hn. simpl in Hn.
    apply elem_of_cons in Hn as [->|Hn];
      [|apply list_elem_of_singleton in Hn as ->];
      eexists _, _; split; vm_compute; reflexivity. }
  pose proof (get_teacher_for_module_minimal cs101_bob_first 5 two_teachers
                false Hd) as (H1 & _ & H3).
  split; [exact Hd|]. split; [exact Hr|].
  split; [exact (H1 "Bob" Hr)|]. split; [exact Hall|]. exact (H3 Hall).
Defined.

(** C4, the tie-break as the claim words it, fails: with two teachers equal
    on the whole key and "Bob" iterated before "Alice", the function returns
    "Bob". *)
Lemma ties_not_broken_by_name :
  ¬ ties_broken_by_name cs101_bob_first 5 two_teachers false.
Proof.
  intros H.
  specialize (H "Bob" (open_teacher "Bob") (0, 1, -1) "Alice"
                (open_teacher "Alice")).
  assert (Hleb : String.leb "Bob" "Alice" = true).
  { apply H; try (vm_compute; reflexivity). set_solver. }
  vm_compute in Hleb. discriminate.
Qed.

(** ** Pass 1 *)

Lemma pass1_row_inv (self self' : Scheduler) (cn0 tn0 : string) (m : Z) :
  pass1_row self (cn0, m, tn0) = Ok self' →
  ∃ module course teacher teacher' module',
    get_module (modules self) m = Some module
    ∧ get_course (courses self) (strip cn0) = Some course
    ∧ get_teacher (teachers self) (strip tn0) = Some teacher
    ∧ module_assigned course = None
    ∧ strip tn0 ∈ possible_teachers course
    ∧ can_accept module course 0 true (courses self) = true
    ∧ assign_to teacher (strip cn0) m = Ok (true, teacher')
    ∧ add_course module (set_celebrity course m (strip tn0)) 0 true
        (set_course (courses self) (set_celebrity course m (strip tn0)))
      = Ok module'
    ∧ self' = {| teachers := set_teacher (teachers self) teacher';
                 courses := set_course (courses self)
                              (set_celebrity course m (strip tn0));
                 modules := set_module (modules self) module' |}.
Proof.
  unfold pass1_row. intros H.
  destruct (_ || _); [done|].
  destruct (get_module (modules self) m) as [module|]; [|done].
  destruct (get_course (courses self) (strip cn0)) as [course|]; [|done].
  destruct (get_teacher (teachers self) (strip tn0)) as [teacher|]; [|done].
  case_bool_decide as Hassigned; [done|].
  case_bool_decide as Hposs; [|done]. simpl in H.
  inv_bind H. destruct x; [|done]. simpl in H.
  destruct (can_accept module course 0 true (courses self)) eqn:Hacc; [|done].
  simpl in H. inv_bind H. destruct x as [ok teacher'].
  destruct ok; [|done]. simpl in H. inv_bind H. simplify_eq.
  exists module, course, teacher, teacher', x. split_and!; try done.
  destruct (module_assigned course); [|done]. by destruct Hassigned.
Qed.

(** A row that Pass 1 accepts names a course that had no module; afterwards
    the course has the module, the teacher and the celebrity mark of the row,
    and the layer it had before. *)
Lemma pass1_row_course (self self' : Scheduler) (cn0 tn0 : string) (m : Z) :
  pass1_row self (cn0, m, tn0) = Ok self' →
  ∃ course,
    get_course (courses self) (strip cn0) = Some course
    ∧ module_assigned course = None
    ∧ get_course (courses self') (strip cn0)
      = Some (set_celebrity course m (strip tn0))
    ∧ layer_assigned (set_celebrity course m (strip tn0))
      = layer_assigned course.
Proof.
  intros H.
  apply pass1_row_inv in H
    as (module & course & teacher & teacher' & module' & Hm & Hc & Ht & Hnone
        & Hposs & Hacc & Hassign & Hadd & ->).
  exists course. split_and!; try done. simpl.
  rewrite get_course_set. simpl.
  rewrite (get_course_name _ _ _ Hc), decide_True by done. by rewrite Hc.
Qed.

(** C1, what the code does on the first scenario of the specification.
    After Pass 1 has processed the row ("CS101", 5, "Alice"), the course has
    its module and its teacher set and is marked as a celebrity course, but its
    [layer_assigned] is still [None]: Pass 1 writes two of the three
    assignment fields, where [assign_to_module] writes all three. *)
Theorem pass1_leaves_layer_unset :
  ∃ self' course,
    pass1_celebrity scenario1 [("CS101", 5, "Alice")] = Ok (1, self')
    ∧ get_course (courses self') "CS101" = Some course
    ∧ module_assigned course = Some 5
    ∧ teacher_assigned course = Some "Alice"
    ∧ is_celebrity course = true
    ∧ layer_assigned course = None.
Proof.
  eexists _, _. split; [vm_compute; reflexivity|].
  split; [vm_compute; reflexivity|]. split_and!; reflexivity.
Qed.

(** ** Placements made by Pass 2 and Pass 3 *)

Lemma placements_app (P : Z → Prop) (n m : nat) (a b c : Scheduler)
    (ua ub uc : list string) :
  placements P n a ua b ub → placements P m b ub c uc →
  placements P (n + m) a ua c uc.
Proof.
  induction 1 as [|n layer s s1 s2 u u1 u2 HP Hstep Hrest IH]; intros Hm.
  - done.
  - simpl. eapply placements_step; eauto.
Qed.

Lemma placements_one (P : Z → Prop) (layer : Z) (a b : Scheduler)
    (ua ub : list string) :
  P layer → placement layer a ua b ub → placements P 1 a ua b ub.
Proof. intros. eapply placements_step; eauto. constructor. Qed.

Lemma placements_weaken (P Q : Z → Prop) (n : nat) (a b : Scheduler)
    (ua ub : list string) :
  (∀ l, P l → Q l) → placements P n a ua b ub → placements Q n a ua b ub.
Proof. intros HPQ. induction 1; econstructor; eauto. Qed.

Lemma placements_zero (P : Z → Prop) (a b : Scheduler) (ua ub : list string) :
  placements P 0 a ua b ub → a = b ∧ ua = ub.
Proof. by inversion 1. Qed.

Lemma placement_length (layer : Z) (a b : Scheduler) (ua ub : list string) :
  placement layer a ua b ub → S (List.length ub) = List.length ua.
Proof. destruct 1. by apply list_remove_length. Qed.

Lemma placements_length (P : Z → Prop) (n : nat) (a b : Scheduler)
    (ua ub : list string) :
  placements P n a ua b ub → (List.length ub + n = List.length ua)%nat.
Proof.
  induction 1 as [|n layer s s1 s2 u u1 u2 HP Hstep Hrest IH]; [lia|].
  apply placement_length in Hstep. lia.
Qed.

Lemma fits_in_module_true (self : Scheduler) (c : Course) (m layer : Z)
    (strict : bool) :
  fits_in_module self c m layer strict = Ok true →
  ∃ modl, get_module (modules self) m = Some modl
    ∧ has_celebrity_course modl = false
    ∧ can_accept modl c layer false (courses self) = true
    ∧ can_be_assigned_to_module c m layer (courses self) (teachers self) strict
      = Ok true.
Proof.
  unfold fits_in_module. intros H.
  destruct (get_module (modules self) m) as [modl|]; [|done].
  destruct (has_celebrity_course modl) eqn:Hc; [done|].
  destruct (can_accept modl c layer false (courses self)) eqn:Ha; [|done].
  by exists modl.
Qed.

Lemma pass2_candidates_elem (self : Scheduler) (u : list string)
    (m layer : Z) (strict : bool) (cands : list candidate2) (x : candidate2) :
  pass2_candidates self u m layer strict = Ok cands → x ∈ cands →
  c_name x.2 ∈ u
  ∧ get_course (courses self) (c_name x.2) = Some x.2
  ∧ fits_in_module self x.2 m layer strict = Ok true.
Proof.
  revert cands. induction u as [|n u IH]; intros cands H Hx; simpl in H.
  - simplify_eq. by apply elem_of_nil in Hx.
  - destruct (get_course (courses self) n) as [course|] eqn:Hc; [|done].
    inv_bind H. destruct x0; simpl in H.
    + inv_bind H. destruct x0; simpl in H.
      * inv_bind H. inv_bind H. inv_bind H. simplify_eq.
        apply elem_of_cons in Hx as [->|Hx].
        { simpl. pose proof (get_course_name _ _ _ Hc) as Hn.
          rewrite Hn. split_and!; [by left|done|done]. }
        destruct (IH _ Hx4 Hx) as (? & ? & ?). split_and!; [by right|done..].
      * destruct (IH _ H Hx) as (? & ? & ?). split_and!; [by right|done..].
    + destruct (IH _ H Hx) as (? & ? & ?). split_and!; [by right|done..].
Qed.

Lemma pass3_candidates_elem (self : Scheduler) (modl : ModuleSlot)
    (u : list string) (m : Z) (strict : bool) (cands : list candidate3)
    (x : candidate3) :
  pass3_candidates self modl u m strict = Ok cands → x ∈ cands →
  c_name x.2 ∈ u
  ∧ get_course (courses self) (c_name x.2) = Some x.2
  ∧ can_accept modl x.2 0 false (courses self) = true.
Proof.
  revert cands. induction u as [|n u IH]; intros cands H Hx; simpl in H.
  - simplify_eq. by apply elem_of_nil in Hx.
  - destruct (get_course (courses self) n) as [course|] eqn:Hc; [|done].
    destruct (can_accept modl course 0 false (courses self)) eqn:Ha;
      simpl in H.
    + inv_bind H. destruct x0; simpl in H.
      * inv_bind H. inv_bind H. simplify_eq.
        apply elem_of_cons in Hx as [->|Hx].
        { simpl. pose proof (get_course_name _ _ _ Hc) as Hn.
          rewrite Hn. split_and!; [by left|done|done]. }
        destruct (IH _ Hx2 Hx) as (? & ? & ?). split_and!; [by right|done..].
      * destruct (IH _ H Hx) as (? & ? & ?). split_and!; [by right|done..].
    + destruct (IH _ H Hx) as (? & ? & ?). split_and!; [by right|done..].
Qed.

Lemma pass2_module_inv (layer : Z) (strict : bool) (s s' : p2) (m : Z) :
  pass2_module layer strict s m = Ok s' →
  s' = s
  ∨ (placement layer (p2_self s) (p2_unassigned s)
       (p2_self s') (p2_unassigned s')
     ∧ p2_assigned_total s' = p2_assigned_total s + 1
     ∧ p2_progress_phase s' = p2_progress_phase s + 1).
Proof.
  unfold pass2_module. intros H.
  destruct (get_module (modules (p2_self s)) m) as [modl|] eqn:Hm; [|done].
  destruct (has_celebrity_course modl) eqn:Hceleb; [left; by simplify_eq|].
  destruct (chain_count_in_layer modl layer >=? 1);
    [left; by simplify_eq|].
  inv_bind H. rename x into cands.
  destruct (py_sort candidate2_lt cands) as [|[[[mc nl] nm] chosen] tl]
    eqn:Hsort; [left; by simplify_eq|].
  apply py_sort_head in Hsort.
  destruct (pass2_candidates_elem _ _ _ _ _ _ _ Hx Hsort) as (Hu & Hget & Hfit).
  simpl in Hu, Hget, Hfit.
  apply fits_in_module_true in Hfit as (modl0 & Hm0 & _ & Hacc & _).
  rewrite Hm in Hm0. simplify_eq.
  inv_bind H. destruct x as [[ok chosen'] teachers'].
  destruct ok; [|done]. cbn [negb] in H. inv_bind H. simplify_eq.
  right. simpl. split_and!; try done.
  by eapply placement_intro.
Qed.

Lemma pass3_module_inv (strict : bool) (s s' : p3) (m : Z) :
  pass3_module strict s m = Ok s' →
  s' = s
  ∨ (placement 0 (p3_self s) (p3_unassigned s) (p3_self s') (p3_unassigned s')
     ∧ p3_assigned_total s' = p3_assigned_total s + 1
     ∧ p3_progress s' = p3_progress s + 1).
Proof.
  unfold pass3_module. intros H.
  destruct (get_module (modules (p3_self s)) m) as [modl|] eqn:Hm; [|done].
  inv_bind H. rename x into cands.
  destruct (py_sort candidate3_lt cands) as [|[[op nm] chosen] tl]
    eqn:Hsort; [left; by simplify_eq|].
  apply py_sort_head in Hsort.
  destruct (pass3_candidates_elem _ _ _ _ _ _ _ Hx Hsort) as (Hu & Hget & Hacc).
  simpl in Hu, Hget, Hacc.
  inv_bind H. destruct x as [[ok chosen'] teachers'].
  destruct ok; cbn [negb] in H; [|left; by simplify_eq]. inv_bind H.
  simplify_eq.
  right. simpl. split_and!; try done.
  by eapply placement_intro.
Qed.

Lemma pass2_sweep_inv (layer : Z) (strict : bool) (ms : list Z) (s s' : p2) :
  pass2_sweep layer strict s ms = Ok s' →
  ∃ n, placements (eq layer) n (p2_self s) (p2_unassigned s)
         (p2_self s') (p2_unassigned s')
    ∧ p2_assigned_total s' = p2_assigned_total s + Z.of_nat n
    ∧ p2_progress_phase s' = p2_progress_phase s + Z.of_nat n.
Proof.
  revert s. induction ms as [|m ms IH]; intros s H; simpl in H.
  - simplify_eq. exists 0%nat. split_and!; [constructor|lia|lia].
  - inv_bind H. destruct (IH _ H) as (n & Hn & Ht & Hp).
    apply pass2_module_inv in Hx as [->|(Hpl & Ht1 & Hp1)].
    + by exists n.
    + exists (S n). split_and!; [|lia|lia].
      eapply placements_step; eauto.
Qed.

Lemma pass2_phases_cons (layer : Z) (s : p2_layer) (strict : bool)
    (flags : list bool) :
  pass2_phases layer s (strict :: flags) =
    r ← pass2_sweep layer strict
          (mkP2 (pl_self s) (pl_unassigned s) (pl_assigned_total s) 0)
          module_range;
    if p2_progress_phase r >? 0
    then Ok (mkP2Layer (p2_self r) (p2_unassigned r) (p2_assigned_total r)
               (pl_progress_this_layer s + p2_progress_phase r)
               (pl_phases_run s ++ [strict]))
    else pass2_phases layer
           (mkP2Layer (p2_self r) (p2_unassigned r) (p2_assigned_total r)
              (pl_progress_this_layer s) (pl_phases_run s ++ [strict]))
           flags.
Proof. reflexivity. Qed.

Lemma pass2_phases_inv (layer : Z) (flags : list bool) (s r : p2_layer) :
  pass2_phases layer s flags = Ok r →
  ∃ n, placements (eq layer) n (pl_self s) (pl_unassigned s)
         (pl_self r) (pl_unassigned r)
    ∧ pl_assigned_total r = pl_assigned_total s + Z.of_nat n
    ∧ pl_progress_this_layer r = pl_progress_this_layer s + Z.of_nat n.
Proof.
  revert s. induction flags as [|strict flags IH]; intros s H.
  - simpl in H. simplify_eq. exists 0%nat. split_and!; [constructor|lia|lia].
  - rewrite pass2_phases_cons in H.
    inv_bind H. apply pass2_sweep_inv in Hx as (n & Hn & Ht & Hp).
    simpl in Hn, Ht, Hp.
    destruct (Z.gtb_spec (p2_progress_phase x) 0).
    + simplify_eq. exists n. simpl. split_and!; [done|lia|lia].
    + assert (n = 0%nat) as -> by lia.
      apply IH in H as (k & Hk & Htk & Hpk). simpl in Hk, Htk, Hpk.
      apply placements_zero in Hn as [Hs Hu]. rewrite <- Hs, <- Hu in Hk.
      exists k. split_and!; [done|lia|lia].
Qed.

Lemma pass2_while_inv (fuel : nat) (self self' : Scheduler) (u : list string)
    (total layer max_layers tot : Z) :
  pass2_while fuel self u total layer max_layers = Ok (tot, self') →
  ∃ n u', placements (fun _ => True) n self u self' u'
    ∧ tot = total + Z.of_nat n.
Proof.
  revert self u total layer.
  induction fuel as [|fuel IH]; intros self u total layer H; simpl in H.
  - destruct u; [|destruct (layer >? max_layers); [|done]];
      simplify_eq; exists 0%nat; eexists; (split; [constructor|lia]).
  - destruct u as [|n0 u]; [|destruct (layer >? max_layers)];
      try (simplify_eq; exists 0%nat; eexists; (split; [constructor|lia])).
    inv_bind H. unfold pass2_layer_iteration in Hx.
    apply pass2_phases_inv in Hx as (n & Hn & Ht & _). simpl in Hn, Ht.
    apply IH in H as (k & u' & Hk & Htk).
    exists (n + k)%nat, u'. split; [|lia].
    eapply placements_app; [|exact Hk].
    eapply placements_weaken; [|exact Hn]. done.
Qed.

Lemma pass2_chains_placements (self self' : Scheduler) (max_layers tot : Z) :
  pass2_chains self max_layers = Ok (tot, self') →
  ∃ n u', placements (fun _ => True) n self (chain_unassigned self) self' u'
    ∧ tot = Z.of_nat n.
Proof.
  unfold pass2_chains. intros H.
  apply pass2_while_inv in H as (n & u' & Hn & ->). by exists n, u'.
Qed.

Lemma pass3_sweep_inv (strict : bool) (ms : list Z) (s s' : p3) :
  pass3_sweep strict s ms = Ok s' →
  ∃ n, placements (eq 0) n (p3_self s) (p3_unassigned s)
         (p3_self s') (p3_unassigned s')
    ∧ p3_assigned_total s' = p3_assigned_total s + Z.of_nat n
    ∧ p3_progress s' = p3_progress s + Z.of_nat n.
Proof.
  revert s. induction ms as [|m ms IH]; intros s H; simpl in H.
  - simplify_eq. exists 0%nat. split_and!; [constructor|lia|lia].
  - inv_bind H. destruct (IH _ H) as (n & Hn & Ht & Hp).
    apply pass3_module_inv in Hx as [->|(Hpl & Ht1 & Hp1)].
    + by exists n.
    + exists (S n). split_and!; [|lia|lia].
      eapply placements_step; eauto.
Qed.

Lemma pass3_while_inv (fuel : nat) (strict : bool) (s r : p3) :
  pass3_while fuel strict s = Ok r →
  ∃ n, placements (eq 0) n (p3_self s) (p3_unassigned s)
         (p3_self r) (p3_unassigned r)
    ∧ p3_assigned_total r = p3_assigned_total s + Z.of_nat n.
Proof.
  revert s. induction fuel as [|fuel IH]; intros s H; simpl in H.
  - destruct (p3_unassigned s) eqn:Hu in H; [|done].
    simplify_eq. exists 0%nat. split; [constructor|lia].
  - destruct (p3_unassigned s) eqn:Hu in H.
    { simplify_eq. exists 0%nat. split; [constructor|lia]. }
    inv_bind H. apply pass3_sweep_inv in Hx as (n & Hn & Ht & Hp).
    simpl in Hn, Ht, Hp. rewrite <- Hu in Hn.
    destruct (p3_progress x =? 0).
    + simplify_eq. by exists n.
    + apply IH in H as (k & Hk & Htk).
      exists (n + k)%nat. split; [|lia]. by eapply placements_app.
Qed.

Lemma pass3_phases_cons (s : p3) (strict : bool) (flags : list bool) :
  pass3_phases s (strict :: flags) =
    r ← pass3_while (S (List.length (p3_unassigned s))) strict s;
    match p3_unassigned r with
    | [] => Ok r
    | _ :: _ => pass3_phases r flags
    end.
Proof. reflexivity. Qed.

Lemma pass3_phases_inv (flags : list bool) (s r : p3) :
  pass3_phases s flags = Ok r →
  ∃ n, placements (eq 0) n (p3_self s) (p3_unassigned s)
         (p3_self r) (p3_unassigned r)
    ∧ p3_assigned_total r = p3_assigned_total s + Z.of_nat n.
Proof.
  revert s. induction flags as [|strict flags IH]; intros s H.
  - simpl in H. simplify_eq. exists 0%nat. split; [constructor|lia].
  - rewrite pass3_phases_cons in H.
    inv_bind H. apply pass3_while_inv in Hx as (n & Hn & Ht).
    destruct (p3_unassigned x) eqn:Hu in H.
    + simplify_eq. by exists n.
    + apply IH in H as (k & Hk & Htk).
      exists (n + k)%nat. split; [|lia]. by eapply placements_app.
Qed.

Lemma pass3_solitary_placements (self self' : Scheduler) (tot : Z) :
  pass3_solitary self = Ok (tot, self') →
  ∃ n u', placements (eq 0) n self (all_unassigned self) self' u'
    ∧ tot = Z.of_nat n.
Proof.
  unfold pass3_solitary. intros H. inv_bind H. simplify_eq.
  apply pass3_phases_inv in Hx as (n & Hn & Ht). simpl in Hn, Ht.
  exists n, (p3_unassigned x). split; [done|lia].
Qed.

Lemma placements_preserve (Inv : Scheduler → Prop) (P : Z → Prop) (n : nat)
    (a b : Scheduler) (ua ub : list string) :
  (∀ layer s us s' us', P layer → Inv s → placement layer s us s' us' → Inv s') →
  placements P n a ua b ub → Inv a → Inv b.
Proof. intros Hstep. induction 1; eauto. Qed.

(** ** What a successful [assign_to_module] has checked and written *)

Lemma prereqs_before_loop_true (ps : list string) (cs : list Course) (abs : Z) :
  prereqs_before_loop ps cs abs = Ok true →
  ∀ p, p ∈ ps →
    ∃ pc pl pm,
      get_course cs p = Some pc
      ∧ layer_assigned pc = Some pl
      ∧ module_assigned pc = Some pm
      ∧ pl * 14 + pm < abs.
Proof.
  induction ps as [|q ps IH]; intros H p Hp; simpl in H.
  - by apply elem_of_nil in Hp.
  - destruct (get_course cs q) as [pc|] eqn:Hq; [|done].
    destruct (layer_assigned pc) as [pl|] eqn:Hl; [|done].
    destruct (module_assigned pc) as [pm|] eqn:Hm; [|done].
    destruct (Z.leb_spec abs (pl * 14 + pm)); [done|].
    apply elem_of_cons in Hp as [->|Hp]; [|by apply IH].
    exists pc, pl, pm. done.
Qed.

Lemma can_be_assigned_true (c : Course) (m layer : Z) (cs : list Course)
    (ts : list Teacher) (strict : bool) :
  can_be_assigned_to_module c m layer cs ts strict = Ok true →
  module_assigned c = None
  ∧ min_layer c ≤ layer
  ∧ prereqs_before_loop (prereqs c) cs (layer * 14 + m) = Ok true.
Proof.
  unfold can_be_assigned_to_module. intros H.
  case_bool_decide as Ha; [done|].
  destruct (Z.ltb_spec layer (min_layer c)); [done|].
  inv_bind H. destruct x; [|done]. simpl in H.
  inv_bind H. destruct x; [|done].
  split_and!; try done.
  destruct (module_assigned c); [|done]. by destruct Ha.
Qed.

Lemma assign_to_module_true (c c' : Course) (m layer : Z) (cs : list Course)
    (ts ts' : list Teacher) (strict : bool) :
  assign_to_module c m layer cs ts strict = Ok (true, c', ts') →
  can_be_assigned_to_module c m layer cs ts strict = Ok true
  ∧ ∃ t, c' = set_assignment c m layer t.
Proof.
  unfold assign_to_module. intros H.
  inv_bind H. destruct x; [|simpl in H; by simplify_eq]. simpl in H.
  inv_bind H. destruct x as [name|]; [|by simplify_eq].
  destruct (get_teacher ts name) as [t|]; [|done].
  inv_bind H. destruct x as [ok t']. destruct ok; simpl in H; [|by simplify_eq].
  simplify_eq. split; [done|]. by eexists.
Qed.

(** A placement changes one course, which was unassigned and passes
    [can_be_assigned_to_module]; its name, chain flag, prerequisites and
    celebrity flag are kept. *)
Lemma placement_inv (layer : Z) (s s' : Scheduler) (u u' : list string) :
  placement layer s u s' u' →
  ∃ module_num strict modl modl' chosen t,
    get_module (modules s) module_num = Some modl
    ∧ get_course (courses s) (c_name chosen) = Some chosen
    ∧ can_accept modl chosen layer false (courses s) = true
    ∧ can_be_assigned_to_module chosen module_num layer (courses s)
        (teachers s) strict = Ok true
    ∧ courses s' =
        set_course (courses s) (set_assignment chosen module_num layer t)
    ∧ add_course modl (set_assignment chosen module_num layer t) layer false
        (courses s') = Ok modl'
    ∧ modules s' = set_module (modules s) modl'.
Proof.
  destruct 1 as [module_num strict modl modl' chosen chosen' teachers'
                   Hm Hc Hu Hacc Hassign Hadd].
  apply assign_to_module_true in Hassign as [Hcan [t ->]].
  exists module_num, strict, modl, modl', chosen, t. done.
Qed.

(** ** Courses that wait for a course placed by Pass 1 *)





Lemma held_back_placement (s s' : Scheduler) (us us' : list string)
    (u : string) :
  held_back s u → placement 0 s us s' us' → held_back s' u.
Proof.
  intros (cu & Hu & Hnone & Hmin) Hpl.
  apply placement_inv in Hpl
    as (mn & strict & modl & modl' & chosen & t & Hm & Hc & Hacc & Hcan
        & Hcs & Hadd & Hms).
  exists cu. rewrite Hcs, !get_course_set. simpl.
  assert (c_name chosen ≠ u) as Hne1.
  { intros <-. rewrite Hc in Hu. simplify_eq.
    apply can_be_assigned_true in Hcan as (_ & Hle & _). lia. }
  rewrite !decide_False by done. done.
Qed.


(** C10. A course whose [min_layer] is at least 1 and that is unassigned when
    Pass 3 starts is still unassigned when Pass 3 returns: Pass 3 places
    courses at layer 0 only, and [can_be_assigned_to_module] refuses a layer
    below [min_layer]. *)
Theorem pass3_keeps_min_layer_course_unassigned (self self' : Scheduler)
    (u : string) (n : Z) :
  held_back self u →
  pass3_solitary self = Ok (n, self') →
  held_back self' u.
Proof.
  intros Hb H.
  apply pass3_solitary_placements in H as (k & u' & Hk & _).
  eapply (placements_preserve (fun s => held_back s u));
    [|exact Hk|exact Hb].
  intros layer s us s' us' <- Hs Hpl. by eapply held_back_placement.
Qed.

(** ** Prerequisites come first *)

Lemma prereqs_precede_placement (layer : Z) (s s' : Scheduler)
    (us us' : list string) :
  prereqs_precede s → placement layer s us s' us' → prereqs_precede s'.
Proof.
  intros Hinv Hpl.
  apply placement_inv in Hpl
    as (mn & strict & modl & modl' & chosen & t & Hm & Hc & Hacc & Hcan
        & Hcs & Hadd & Hms).
  apply can_be_assigned_true in Hcan as (Hnone & _ & Hbefore).
  pose proof (prereqs_before_loop_true _ _ _ Hbefore) as Hpre.
  assert (Hkeep : ∀ p pc pm, get_course (courses s) p = Some pc →
            module_assigned pc = Some pm →
            get_course (courses s') p = Some pc).
  { intros p pc pm Hp Hpm. rewrite Hcs, get_course_set. simpl.
    case_decide as Heq; [|done]. subst p. rewrite Hc in Hp. simplify_eq. }
  intros n c l Hn Hl. rewrite Hcs, get_course_set in Hn. simpl in Hn.
  case_decide as Heq.
  - subst n. rewrite Hc in Hn. simplify_eq. simpl in *. simplify_eq.
    exists mn. split; [done|]. intros p Hp.
    destruct (Hpre p Hp) as (pc & pl & pm & Hgp & Hpl & Hpm & Hlt).
    exists pc, pl, pm. split_and!; try done. by eapply Hkeep.
  - destruct (Hinv n c l Hn Hl) as (m & Hcm & Hps).
    exists m. split; [done|]. intros p Hp.
    destruct (Hps p Hp) as (pc & pl & pm & Hgp & Hpl & Hpm & Hlt).
    exists pc, pl, pm. split_and!; try done. by eapply Hkeep.
Qed.

Lemma prereqs_precede_pass1_row (s s' : Scheduler) (row : string * Z * string) :
  prereqs_precede s → pass1_row s row = Ok s' → prereqs_precede s'.
Proof.
  intros Hinv H. destruct row as [[cn0 m] tn0].
  apply pass1_row_inv in H
    as (module & course & teacher & teacher' & module' & Hm & Hc & Ht & Hnone
        & Hposs & Hacc & Hassign & Hadd & ->).
  pose proof (get_course_name _ _ _ Hc) as Hname.
  assert (Hkeep : ∀ p pc pm, get_course (courses s) p = Some pc →
            module_assigned pc = Some pm →
            get_course
              (set_course (courses s) (set_celebrity course m (strip tn0))) p
            = Some pc).
  { intros p pc pm Hp Hpm. rewrite get_course_set. simpl.
    case_decide as Heq; [|done]. rewrite Hname in Heq. subst p.
    rewrite Hc in Hp. simplify_eq. }
  intros n c l Hn Hl. simpl in Hn. rewrite get_course_set in Hn. simpl in Hn.
  case_decide as Heq.
  - rewrite Hname in Heq. subst n. rewrite Hc in Hn. simplify_eq.
    simpl in Hl. destruct (Hinv _ _ _ Hc Hl) as (m' & Hm' & _).
    rewrite Hnone in Hm'. done.
  - destruct (Hinv n c l Hn Hl) as (m' & Hcm & Hps).
    exists m'. split; [done|]. intros p Hp.
    destruct (Hps p Hp) as (pc & pl & pm & Hgp & Hpl & Hpm & Hlt).
    exists pc, pl, pm. split_and!; try done. simpl. by eapply Hkeep.
Qed.

Lemma pass1_loop_preserve (Inv : Scheduler → Prop)
    (rows : list (string * Z * string)) (s s' : Scheduler) (k n : Z) :
  (∀ a b row, Inv a → pass1_row a row = Ok b → Inv b) →
  Inv s → pass1_loop s rows k = Ok (n, s') → Inv s'.
Proof.
  intros Hstep. revert s k.
  induction rows as [|row rows IH]; intros s k Hs H; simpl in H.
  - by simplify_eq.
  - inv_bind H. eapply IH; [|exact H]. by eapply Hstep.
Qed.

(** C3, as the code has it.  If the ordering holds for the courses that have
    a layer, it still holds after Pass 1, after Pass 2 and after Pass 3: every
    course that Pass 2 or Pass 3 placed has all its prerequisites placed with
    a layer, at a strictly smaller absolute index [layer * 14 + module].
    Courses placed by Pass 1 get no layer and are outside this statement:
    Pass 1 looks at no prerequisite. *)
Theorem prereqs_precede_preserved (self : Scheduler) :
  prereqs_precede self →
  (∀ rows n self',
     pass1_celebrity self rows = Ok (n, self') → prereqs_precede self')
  ∧ (∀ max_layers n self',
       pass2_chains self max_layers = Ok (n, self') → prereqs_precede self')
  ∧ (∀ n self',
       pass3_solitary self = Ok (n, self') → prereqs_precede self').
Proof.
  intros Hinv. split_and!.
  - intros rows n self' H. unfold pass1_celebrity in H.
    eapply (pass1_loop_preserve prereqs_precede); [|exact Hinv|exact H].
    intros a b row. apply prereqs_precede_pass1_row.
  - intros max_layers n self' H.
    apply pass2_chains_placements in H as (k & u' & Hk & _).
    eapply (placements_preserve prereqs_precede); [|exact Hk|exact Hinv].
    intros layer s us s' us' _ Hs Hpl. by eapply prereqs_precede_placement.
  - intros n self' H.
    apply pass3_solitary_placements in H as (k & u' & Hk & _).
    eapply (placements_preserve prereqs_precede); [|exact Hk|exact Hinv].
    intros layer s us s' us' _ Hs Hpl. by eapply prereqs_precede_placement.
Qed.

(** C3 as the claim words it fails after Pass 1: the chain course "B" is
    placed by the row ("B", 5, "Bea") while its prerequisite "A" has no
    module. *)
Lemma fixed_unit_precedes_its_prereq :
  ∃ self',
    pass1_celebrity chain_scenario [("B", 5, "Bea")] = Ok (1, self')
    ∧ ¬ prereqs_precede_all_assigned self'.
Proof.
  eexists. split; [vm_compute; reflexivity|].
  intros H.
  destruct (H "B" (set_celebrity course_b 5 "Bea") 5) with (p := "A")
    as (pc & layer & pl & pm & Hp & _ & _ & Hpm & _); try reflexivity.
  - set_solver.
  - vm_compute in Hp. injection Hp as <-. discriminate Hpm.
Qed.

(** ** Celebrity modules and chain courses *)

Lemma any_chain_false (cs : list Course) (occupants : list string)
    (n : string) (c : Course) :
  any_chain cs occupants = false → n ∈ occupants → get_course cs n = Some c →
  part_of_chain c = false.
Proof.
  unfold any_chain. intros H Hn Hc.
  destruct (part_of_chain c) eqn:Hp; [|done].
  assert (existsb (fun n => match get_course cs n with
                            | Some c => part_of_chain c
                            | None => false
                            end) occupants = true) as Ht; [|congruence].
  apply existsb_exists. exists n. split; [by apply list_elem_of_In|].
  by rewrite Hc.
Qed.

Lemma can_accept_chain (modl : ModuleSlot) (c : Course) (layer : Z)
    (cs : list Course) :
  can_accept modl c layer false cs = true → part_of_chain c = true →
  has_celebrity_course modl = false.
Proof.
  unfold can_accept. intros H Hc. rewrite Hc in H.
  destruct (total_count modl >=? max_capacity modl); [done|].
  by destruct (has_celebrity_course modl).
Qed.

Lemma can_accept_celebrity (modl : ModuleSlot) (c : Course) (layer : Z)
    (cs : list Course) :
  can_accept modl c layer true cs = true →
  has_celebrity_course modl = false ∧ any_chain cs (m_courses modl) = false.
Proof.
  unfold can_accept. intros H.
  destruct (total_count modl >=? max_capacity modl); [done|].
  destruct (has_celebrity_course modl);
    [by destruct (part_of_chain c)|].
  destruct (any_chain cs (m_courses modl)); [|done].
  rewrite !andb_false_r in H. simpl in H. by repeat case_match.
Qed.

Lemma add_course_inv (modl modl' : ModuleSlot) (c : Course) (layer : Z)
    (fixed : bool) (cs : list Course) :
  add_course modl c layer fixed cs = Ok modl' →
  number modl' = number modl
  ∧ m_courses modl' = (m_courses modl ++ [c_name c])%list
  ∧ has_celebrity_course modl' = fixed || has_celebrity_course modl.
Proof.
  unfold add_course. intros H. inv_bind H. simplify_eq. simpl.
  split_and!; try done.
  destruct fixed; simpl in *; [|by simplify_eq].
  repeat case_match; by simplify_eq.
Qed.

Lemma apart_placement (layer : Z) (s s' : Scheduler) (us us' : list string) :
  fixed_and_chain_apart s → placement layer s us s' us' →
  fixed_and_chain_apart s'.
Proof.
  intros Hinv Hpl.
  apply placement_inv in Hpl
    as (mn & strict & modl & modl' & chosen & t & Hm & Hc & Hacc & Hcan
        & Hcs & Hadd & Hms).
  apply add_course_inv in Hadd as (Hnum & Hocc & Hflag). simpl in Hocc, Hflag.
  pose proof (get_module_number _ _ _ Hm) as Hmn.
  assert (Hold : ∀ num m0 n c, get_module (modules s) num = Some m0 →
            has_celebrity_course m0 = true → n ∈ m_courses m0 →
            get_course (courses s') n = Some c → part_of_chain c = true →
            is_celebrity c = true).
  { intros num m0 n c Hm0 Hf Hn Hgc Hchain.
    rewrite Hcs, get_course_set in Hgc. simpl in Hgc.
    case_decide as Heq; [|by eapply Hinv].
    subst n. rewrite Hc in Hgc. simplify_eq. simpl in *.
    by eapply (Hinv num m0 (c_name chosen) chosen). }
  intros num m2 n c Hm2 Hf Hn Hgc Hchain.
  rewrite Hms, get_module_set in Hm2.
  case_decide as Heq; [|by eapply Hold].
  rewrite Hnum, Hmn in Heq. subst num. rewrite Hm in Hm2. simplify_eq.
  rewrite Hflag in Hf. rewrite Hocc in Hn.
  apply elem_of_app in Hn as [Hn|Hn]; [by eapply Hold|].
  apply list_elem_of_singleton in Hn as ->.
  rewrite Hcs, get_course_set in Hgc. simpl in Hgc.
  rewrite decide_True in Hgc by done. rewrite Hc in Hgc. simplify_eq.
  simpl in Hchain.
  pose proof (can_accept_chain _ _ _ _ Hacc Hchain) as Hno.
  rewrite Hno in Hf. done.
Qed.

Lemma apart_pass1_row (s s' : Scheduler) (row : string * Z * string) :
  fixed_and_chain_apart s → pass1_row s row = Ok s' →
  fixed_and_chain_apart s'.
Proof.
  intros Hinv H. destruct row as [[cn0 m] tn0].
  apply pass1_row_inv in H
    as (module & course & teacher & teacher' & module' & Hm & Hc & Ht & Hnone
        & Hposs & Hacc & Hassign & Hadd & ->).
  pose proof (get_course_name _ _ _ Hc) as Hname.
  pose proof (get_module_number _ _ _ Hm) as Hmn.
  apply add_course_inv in Hadd as (Hnum & Hocc & Hflag). simpl in Hocc.
  apply can_accept_celebrity in Hacc as (Hnoflag & Hnochain).
  set (course' := set_celebrity course m (strip tn0)) in *.
  assert (Hget : ∀ n c, get_course (set_course (courses s) course') n = Some c →
            c = course' ∨ (n ≠ strip cn0 ∧ get_course (courses s) n = Some c)).
  { intros n c Hgc. rewrite get_course_set in Hgc. simpl in Hgc.
    rewrite Hname in Hgc. case_decide as Heq.
    - subst n. rewrite Hc in Hgc. left. by simplify_eq.
    - right. done. }
  intros num m2 n c Hm2 Hf Hn Hgc Hchain. simpl in Hm2, Hgc.
  destruct (Hget n c Hgc) as [->|[Hne Hgc0]]; [done|].
  rewrite get_module_set in Hm2.
  case_decide as Heq; [|by eapply Hinv].
  rewrite Hnum, Hmn in Heq. subst num. rewrite Hm in Hm2. simplify_eq.
  rewrite Hocc in Hn.
  apply elem_of_app in Hn as [Hn|Hn].
  - rewrite (any_chain_false _ _ _ _ Hnochain Hn Hgc0) in Hchain. done.
  - apply list_elem_of_singleton in Hn. simpl in Hn. congruence.
Qed.

(** C2, as the code has it.  If, in every module that holds the celebrity
    flag, the only chain courses are courses placed by Pass 1, this is still
    so after Pass 1, after Pass 2 and after Pass 3.  A chain course that is
    itself placed by Pass 1 does sit in a module with the flag. *)
Theorem fixed_and_chain_apart_preserved (self : Scheduler) :
  fixed_and_chain_apart self →
  (∀ rows n self',
     pass1_celebrity self rows = Ok (n, self') → fixed_and_chain_apart self')
  ∧ (∀ max_layers n self',
       pass2_chains self max_layers = Ok (n, self') →
       fixed_and_chain_apart self')
  ∧ (∀ n self',
       pass3_solitary self = Ok (n, self') → fixed_and_chain_apart self').
Proof.
  intros Hinv. split_and!.
  - intros rows n self' H. unfold pass1_celebrity in H.
    eapply (pass1_loop_preserve fixed_and_chain_apart); [|exact Hinv|exact H].
    intros a b row. apply apart_pass1_row.
  - intros max_layers n self' H.
    apply pass2_chains_placements in H as (k & u' & Hk & _).
    eapply (placements_preserve fixed_and_chain_apart);
      [|exact Hk|exact Hinv].
    intros layer s us s' us' _ Hs Hpl. by eapply apart_placement.
  - intros n self' H.
    apply pass3_solitary_placements in H as (k & u' & Hk & _).
    eapply (placements_preserve fixed_and_chain_apart);
      [|exact Hk|exact Hinv].
    intros layer s us s' us' _ Hs Hpl. by eapply apart_placement.
Qed.

(** C2 as the claim words it fails after Pass 1 when the fixed course is a
    chain course: the row ("A", 5, "Bea") puts the chain course "A" into
    module 5 and sets the celebrity flag of that module. *)
Lemma fixed_chain_course_shares_module :
  ∃ self',
    pass1_celebrity chain_scenario [("A", 5, "Bea")] = Ok (1, self')
    ∧ ¬ no_fixed_with_chain self'.
Proof.
  eexists. split; [vm_compute; reflexivity|].
  intros H.
  specialize (H 5 (mkModule 5 9 ["A"] {[0 := 1]} true)).
  assert (Hc : true = false); [|discriminate Hc].
  rewrite <- H; reflexivity.
Qed.

(** ** Termination: no loop of the embedding runs out of fuel *)

Create HintDb fuel.

(** Goals [e ≠ OutOfFuel]: follow the binds and the case distinctions of
    [e]; the leaves are results or calls covered by the hint database. *)
Ltac no_fuel :=
  repeat first
    [ done
    | solve [eauto with fuel]
    | apply bind_not_fuel; [|intros ? ?]
    | case_match
    | progress simpl ].

Lemma availability_score_fuel (t : Teacher) (m : Z) :
  availability_score t m ≠ OutOfFuel.
Proof.
  unfold availability_score.
  pose proof (py_index_fuel (availability t) (m - 1)). no_fuel.
Qed.

Lemma assign_to_fuel (t : Teacher) (cn : string) (m : Z) :
  assign_to t cn m ≠ OutOfFuel.
Proof.
  unfold assign_to. pose proof (is_available_for_fuel t cn m false). no_fuel.
Qed.

#[local] Hint Resolve py_index_fuel is_available_for_fuel
  availability_score_fuel assign_to_fuel : fuel.

Lemma all_prereqs_assigned_loop_fuel (ps : list string) (cs : list Course) :
  all_prereqs_assigned_loop ps cs ≠ OutOfFuel.
Proof. induction ps; no_fuel. Qed.

Lemma get_latest_assigned_prereq_loop_fuel (ps : list string)
    (cs : list Course) (latest : Z) :
  get_latest_assigned_prereq_loop ps cs latest ≠ OutOfFuel.
Proof. revert latest. induction ps; intros; no_fuel. Qed.

Lemma has_teachers_for_module_loop_fuel (cn : string) (names : list string)
    (m : Z) (ts : list Teacher) (strict : bool) :
  has_teachers_for_module_loop cn names m ts strict ≠ OutOfFuel.
Proof. induction names; no_fuel. Qed.

Lemma available_loop_fuel (cn : string) (names : list string) (m : Z)
    (ts : list Teacher) (strict : bool) :
  available_loop cn names m ts strict ≠ OutOfFuel.
Proof. induction names; no_fuel. Qed.

Lemma py_min_loop_fuel (rest : list avail_entry) (best : avail_entry) :
  py_min_loop best rest ≠ OutOfFuel.
Proof.
  revert best. induction rest as [|x rest IH]; intros best; simpl; [done|].
  apply bind_not_fuel; [|intros ? ?; apply IH].
  unfold key_lt, score_lt. repeat case_match; done.
Qed.

Lemma prereqs_before_loop_fuel (ps : list string) (cs : list Course) (abs : Z) :
  prereqs_before_loop ps cs abs ≠ OutOfFuel.
Proof. induction ps; no_fuel. Qed.

#[local] Hint Resolve all_prereqs_assigned_loop_fuel
  get_latest_assigned_prereq_loop_fuel has_teachers_for_module_loop_fuel
  available_loop_fuel py_min_loop_fuel prereqs_before_loop_fuel : fuel.

Lemma get_teacher_for_module_fuel (c : Course) (m : Z) (ts : list Teacher)
    (strict : bool) :
  get_teacher_for_module c m ts strict ≠ OutOfFuel.
Proof. unfold get_teacher_for_module. no_fuel. Qed.

Lemma can_be_assigned_to_module_fuel (c : Course) (m layer : Z)
    (cs : list Course) (ts : list Teacher) (strict : bool) :
  can_be_assigned_to_module c m layer cs ts strict ≠ OutOfFuel.
Proof.
  unfold can_be_assigned_to_module, all_prereqs_assigned,
    has_teachers_for_module. no_fuel.
Qed.

#[local] Hint Resolve get_teacher_for_module_fuel
  can_be_assigned_to_module_fuel : fuel.

Lemma assign_to_module_fuel (c : Course) (m layer : Z) (cs : list Course)
    (ts : list Teacher) (strict : bool) :
  assign_to_module c m layer cs ts strict ≠ OutOfFuel.
Proof. unfold assign_to_module. no_fuel. Qed.

Lemma add_course_fuel (modl : ModuleSlot) (c : Course) (layer : Z)
    (fixed : bool) (cs : list Course) :
  add_course modl c layer fixed cs ≠ OutOfFuel.
Proof. unfold add_course. no_fuel. Qed.

Lemma fits_in_module_fuel (self : Scheduler) (c : Course) (m layer : Z)
    (strict : bool) :
  fits_in_module self c m layer strict ≠ OutOfFuel.
Proof. unfold fits_in_module. no_fuel. Qed.

#[local] Hint Resolve assign_to_module_fuel add_course_fuel
  fits_in_module_fuel : fuel.

Lemma feasible_module_count_loop_fuel (self : Scheduler) (c : Course)
    (layer : Z) (strict : bool) (ms : list Z) (cnt : Z) :
  feasible_module_count_loop self c layer strict ms cnt ≠ OutOfFuel.
Proof. revert cnt. induction ms; intros; no_fuel. Qed.

Lemma is_ready_fuel (self : Scheduler) (c : Course) (layer : Z) :
  is_ready self c layer ≠ OutOfFuel.
Proof. unfold is_ready, all_prereqs_assigned. no_fuel. Qed.

#[local] Hint Resolve feasible_module_count_loop_fuel is_ready_fuel : fuel.

Lemma pass2_candidates_fuel (self : Scheduler) (u : list string) (m layer : Z)
    (strict : bool) :
  pass2_candidates self u m layer strict ≠ OutOfFuel.
Proof.
  induction u as [|n u IH]; simpl; [done|].
  unfold feasible_module_count, get_latest_assigned_prereq. no_fuel.
Qed.

#[local] Hint Resolve pass2_candidates_fuel : fuel.

Lemma pass2_module_fuel (layer : Z) (strict : bool) (s : p2) (m : Z) :
  pass2_module layer strict s m ≠ OutOfFuel.
Proof. unfold pass2_module. no_fuel. Qed.

Lemma pass2_sweep_fuel (layer : Z) (strict : bool) (ms : list Z) (s : p2) :
  pass2_sweep layer strict s ms ≠ OutOfFuel.
Proof.
  revert s. induction ms as [|m ms IH]; intros s; simpl; [done|].
  apply bind_not_fuel; [apply pass2_module_fuel|]. intros ? ?. apply IH.
Qed.

Lemma pass2_phases_fuel (layer : Z) (flags : list bool) (s : p2_layer) :
  pass2_phases layer s flags ≠ OutOfFuel.
Proof.
  revert s. induction flags as [|strict flags IH]; intros s; [done|].
  rewrite pass2_phases_cons.
  apply bind_not_fuel; [apply pass2_sweep_fuel|]. intros r _.
  destruct (p2_progress_phase r >? 0); [done|apply IH].
Qed.

Lemma pass2_while_fuel (fuel : nat) (self : Scheduler) (u : list string)
    (total layer max_layers : Z) :
  (List.length u + Z.to_nat (max_layers + 1 - layer) ≤ fuel)%nat →
  pass2_while fuel self u total layer max_layers ≠ OutOfFuel.
Proof.
  revert self u total layer.
  induction fuel as [|fuel IH]; intros self u total layer Hfuel; simpl.
  - destruct u as [|n0 u]; [done|]. simpl in Hfuel. lia.
  - destruct u as [|n0 u]; [done|].
    destruct (Z.gtb_spec layer max_layers); [done|].
    apply bind_not_fuel; [apply pass2_phases_fuel|]. intros r Hr.
    apply pass2_phases_inv in Hr as (n & Hn & _ & Hp). simpl in Hn, Hp.
    apply placements_length in Hn. apply IH.
    destruct (Z.eqb_spec (pl_progress_this_layer r) 0); simpl in *; lia.
Qed.

Lemma pass2_chains_terminates (self : Scheduler) (max_layers : Z) :
  pass2_chains self max_layers ≠ OutOfFuel.
Proof.
  unfold pass2_chains, pass2_fuel. apply pass2_while_fuel.
  rewrite Z.sub_0_r. lia.
Qed.

Lemma teacher_options_count_loop_fuel (self : Scheduler) (cn : string)
    (names : list string) (m : Z) (strict : bool) (cnt : Z) :
  teacher_options_count_loop self cn names m strict cnt ≠ OutOfFuel.
Proof. revert cnt. induction names; intros; no_fuel. Qed.

#[local] Hint Resolve teacher_options_count_loop_fuel : fuel.

Lemma pass3_candidates_fuel (self : Scheduler) (modl : ModuleSlot)
    (u : list string) (m : Z) (strict : bool) :
  pass3_candidates self modl u m strict ≠ OutOfFuel.
Proof.
  induction u as [|n u IH]; simpl; [done|].
  unfold teacher_options_count, has_teachers_for_module. no_fuel.
Qed.

#[local] Hint Resolve pass3_candidates_fuel : fuel.

Lemma pass3_module_fuel (strict : bool) (s : p3) (m : Z) :
  pass3_module strict s m ≠ OutOfFuel.
Proof. unfold pass3_module. no_fuel. Qed.

Lemma pass3_sweep_fuel (strict : bool) (ms : list Z) (s : p3) :
  pass3_sweep strict s ms ≠ OutOfFuel.
Proof.
  revert s. induction ms as [|m ms IH]; intros s; simpl; [done|].
  apply bind_not_fuel; [apply pass3_module_fuel|]. intros ? ?. apply IH.
Qed.

Lemma pass3_while_fuel (fuel : nat) (strict : bool) (s : p3) :
  (List.length (p3_unassigned s) < fuel)%nat →
  pass3_while fuel strict s ≠ OutOfFuel.
Proof.
  revert s. induction fuel as [|fuel IH]; intros s Hfuel; [lia|]. simpl.
  destruct (p3_unassigned s) as [|n0 u] eqn:Hu; [done|].
  apply bind_not_fuel; [apply pass3_sweep_fuel|]. intros r Hr.
  apply pass3_sweep_inv in Hr as (n & Hn & _ & Hp). simpl in Hn, Hp.
  destruct (Z.eqb_spec (p3_progress r) 0); [done|].
  apply IH. apply placements_length in Hn. simpl in *. lia.
Qed.

Lemma pass3_phases_fuel (flags : list bool) (s : p3) :
  pass3_phases s flags ≠ OutOfFuel.
Proof.
  revert s. induction flags as [|strict flags IH]; intros s; [done|].
  rewrite pass3_phases_cons.
  apply bind_not_fuel; [apply pass3_while_fuel; lia|]. intros r _.
  destruct (p3_unassigned r); [done|apply IH].
Qed.

Lemma pass3_solitary_terminates (self : Scheduler) :
  pass3_solitary self ≠ OutOfFuel.
Proof.
  unfold pass3_solitary.
  apply bind_not_fuel; [apply pass3_phases_fuel|done].
Qed.

Lemma pass1_row_fuel (self : Scheduler) (row : string * Z * string) :
  pass1_row self row ≠ OutOfFuel.
Proof. unfold pass1_row. destruct row as [[? ?] ?]. no_fuel. Qed.

Lemma pass1_celebrity_terminates (self : Scheduler)
    (rows : list (string * Z * string)) :
  pass1_celebrity self rows ≠ OutOfFuel.
Proof.
  unfold pass1_celebrity. generalize 0. revert self.
  induction rows as [|row rows IH]; intros self k; simpl; [done|].
  apply bind_not_fuel; [apply pass1_row_fuel|]. intros ? ?. apply IH.
Qed.

(** ** Pass 2: the layer cut-off and the two sub-phases *)

(** At a loop head with chain courses still in [unassigned] and [layer]
    above [max_layers], the [while] loop stops, whatever the fuel. *)
Lemma pass2_while_cutoff (fuel : nat) (self : Scheduler)
    (unassigned : list string) (assigned_total layer max_layers : Z) :
  unassigned ≠ [] →
  max_layers < layer →
  pass2_while fuel self unassigned assigned_total layer max_layers
  = Ok (assigned_total, self).
Proof.
  intros Hu Hlayer.
  destruct unassigned as [|n u]; [done|].
  destruct fuel; simpl;
    destruct (Z.gtb_spec layer max_layers); try done; lia.
Qed.

(** The cut-off on a whole run: with "A" fixed by Pass 1, "B" can never be
    placed; Pass 2 tries layers 0, 1 and 2, places nothing, and returns 0 with
    the stores as they were and "B" still unassigned. *)
Example pass2_cutoff_run :
  pass2_chains fixed_a_scenario 2 = Ok (0, fixed_a_scenario)
  ∧ chain_unassigned fixed_a_scenario = ["B"].
Proof. split; vm_compute; reflexivity. Qed.

(** Third scenario of the specification: "A" then "B", both at layer 0. *)
Example pass2_chain_order :
  ∃ self' a b,
    pass2_chains chain_scenario 2 = Ok (2, self')
    ∧ get_course (courses self') "A" = Some a
    ∧ get_course (courses self') "B" = Some b
    ∧ (module_assigned a, layer_assigned a) = (Some 1, Some 0)
    ∧ (module_assigned b, layer_assigned b) = (Some 2, Some 0).
Proof.
  eexists _, _, _. split; [vm_compute; reflexivity|].
  split_and!; vm_compute; reflexivity.
Qed.

(** C6. In one layer iteration the strict sub-phase always runs first.  Its
    progress counter is the number of courses it placed.  If that number is
    positive, the iteration ends with the strict sub-phase only; the soft
    sub-phase runs exactly when the strict one placed nothing, and then it
    starts from the unchanged stores. *)
Theorem pass2_soft_only_after_idle_strict (self : Scheduler)
    (unassigned : list string) (assigned_total layer : Z) (r : p2_layer) :
  pass2_layer_iteration self unassigned assigned_total layer = Ok r →
  ∃ strict_run placed,
    pass2_sweep layer true (mkP2 self unassigned assigned_total 0)
      module_range = Ok strict_run
    ∧ placements (eq layer) placed self unassigned
        (p2_self strict_run) (p2_unassigned strict_run)
    ∧ p2_progress_phase strict_run = Z.of_nat placed
    ∧ ((0 < placed)%nat
       ∧ pl_phases_run r = [true]
       ∧ pl_self r = p2_self strict_run
       ∧ pl_unassigned r = p2_unassigned strict_run
       ∧ pl_assigned_total r = p2_assigned_total strict_run
       ∧ pl_progress_this_layer r = Z.of_nat placed
       ∨ placed = 0%nat
       ∧ pl_phases_run r = [true; false]
       ∧ ∃ soft_run,
           pass2_sweep layer false (mkP2 self unassigned assigned_total 0)
             module_range = Ok soft_run
           ∧ pl_self r = p2_self soft_run
           ∧ pl_unassigned r = p2_unassigned soft_run
           ∧ pl_assigned_total r = p2_assigned_total soft_run
           ∧ pl_progress_this_layer r = p2_progress_phase soft_run).
Proof.
  unfold pass2_layer_iteration. intros H.
  rewrite pass2_phases_cons in H.
  cbn [pl_self pl_unassigned pl_assigned_total pl_progress_this_layer
       pl_phases_run app] in H.
  inv_bind H. rename x into r1.
  pose proof Hx as Hsweep.
  apply pass2_sweep_inv in Hx as (n & Hn & Ht & Hp). simpl in Hn, Ht, Hp.
  exists r1, n. split_and!; [done|done|lia|].
  destruct (Z.gtb_spec (p2_progress_phase r1) 0).
  - left. simplify_eq. simpl. split_and!; try done; lia.
  - right. assert (n = 0%nat) as -> by lia.
    apply placements_zero in Hn as [Hs Hu].
    rewrite pass2_phases_cons in H.
    cbn [pl_self pl_unassigned pl_assigned_total pl_progress_this_layer
         pl_phases_run app] in H.
    inv_bind H. rename x into r2.
    rewrite <- Hs, <- Hu, Ht, Z.add_0_r in Hx.
    assert (pl_phases_run r = [true; false]
            ∧ pl_self r = p2_self r2
            ∧ pl_unassigned r = p2_unassigned r2
            ∧ pl_assigned_total r = p2_assigned_total r2
            ∧ pl_progress_this_layer r = p2_progress_phase r2)
      as (? & ? & ? & ? & ?).
    { apply pass2_sweep_inv in Hx as (k & _ & _ & Hpk). simpl in Hpk.
      destruct (Z.gtb_spec (p2_progress_phase r2) 0); simpl in H;
        simplify_eq; simpl; split_and!; try done; lia. }
    split_and!; try done. exists r2. done.
Qed.

Lemma pass2_soft_only_after_idle_strict_witness :
  ∃ r,
    pass2_layer_iteration chain_scenario (chain_unassigned chain_scenario) 0 0
    = Ok r
    ∧ ∃ strict_run placed,
        pass2_sweep 0 true
          (mkP2 chain_scenario (chain_unassigned chain_scenario) 0 0)
          module_range = Ok strict_run
        ∧ placements (eq 0) placed chain_scenario
            (chain_unassigned chain_scenario)
            (p2_self strict_run) (p2_unassigned strict_run)
        ∧ p2_progress_phase strict_run = Z.of_nat placed
        ∧ ((0 < placed)%nat
           ∧ pl_phases_run r = [true]
           ∧ pl_self r = p2_self strict_run
           ∧ pl_unassigned r = p2_unassigned strict_run
           ∧ pl_assigned_total r = p2_assigned_total strict_run
           ∧ pl_progress_this_layer r = Z.of_nat placed
           ∨ placed = 0%nat
           ∧ pl_phases_run r = [true; false]
           ∧ ∃ soft_run,
               pass2_sweep 0 false
                 (mkP2 chain_scenario (chain_unassigned chain_scenario) 0 0)
                 module_range = Ok soft_run
               ∧ pl_self r = p2_self soft_run
               ∧ pl_unassigned r = p2_unassigned soft_run
               ∧ pl_assigned_total r = p2_assigned_total soft_run
               ∧ pl_progress_this_layer r = p2_progress_phase soft_run).
Proof.
  eexists. split; [vm_compute; reflexivity|].
  apply pass2_soft_only_after_idle_strict. vm_compute. reflexivity.
Defined.

(** ** The example scenarios satisfy the hypotheses *)



Lemma chain_scenario_holds_c_back : held_back chain_scenario "C".
Proof.
  exists course_c. split_and!; try (vm_compute; reflexivity).
  vm_compute. discriminate.
Defined.

Lemma pass3_keeps_min_layer_course_unassigned_witness :
  held_back chain_scenario "C"
  ∧ ∃ n self',
      pass3_solitary chain_scenario = Ok (n, self')
      ∧ held_back self' "C".
Proof.
  split; [exact chain_scenario_holds_c_back|].
  eexists _, _. split; [vm_compute; reflexivity|].
  eapply (pass3_keeps_min_layer_course_unassigned chain_scenario).
  - exact chain_scenario_holds_c_back.
  - vm_compute. reflexivity.
Defined.

Lemma chain_scenario_prereqs_precede : prereqs_precede chain_scenario.
Proof.
  intros n c layer Hn Hl.
  apply (store_get_elem c_name) in Hn. simpl in Hn.
  repeat (apply elem_of_cons in Hn as [->|Hn]; [discriminate Hl|]).
  by apply elem_of_nil in Hn.
Defined.

Lemma prereqs_precede_preserved_witness :
  prereqs_precede chain_scenario
  ∧ (∀ rows n self',
       pass1_celebrity chain_scenario rows = Ok (n, self') →
       prereqs_precede self')
  ∧ (∀ max_layers n self',
       pass2_chains chain_scenario max_layers = Ok (n, self') →
       prereqs_precede self')
  ∧ (∀ n self',
       pass3_solitary chain_scenario = Ok (n, self') → prereqs_precede self').
Proof.
  split; [exact chain_scenario_prereqs_precede|].
  exact (prereqs_precede_preserved chain_scenario
           chain_scenario_prereqs_precede).
Defined.

Lemma chain_scenario_apart : fixed_and_chain_apart chain_scenario.
Proof.
  intros num modl n c Hm Hf Hn Hc Hchain.
  apply (store_get_elem number) in Hm. simpl in Hm.
  unfold fourteen_modules in Hm.
  apply list_elem_of_fmap in Hm as (k & -> & _). discriminate Hf.
Defined.

Lemma fixed_and_chain_apart_preserved_witness :
  fixed_and_chain_apart chain_scenario
  ∧ (∀ rows n self',
       pass1_celebrity chain_scenario rows = Ok (n, self') →
       fixed_and_chain_apart self')
  ∧ (∀ max_layers n self',
       pass2_chains chain_scenario max_layers = Ok (n, self') →
       fixed_and_chain_apart self')
  ∧ (∀ n self',
       pass3_solitary chain_scenario = Ok (n, self') →
       fixed_and_chain_apart self').
Proof.
  split; [exact chain_scenario_apart|].
  exact (fixed_and_chain_apart_preserved chain_scenario chain_scenario_apart).
Defined.

(** * Further properties of the code *)

(** ** Teacher *)

Lemma is_available_strict_soft (self : Teacher) (course_name : string)
    (module : Z) (b : bool) :
  is_available_for self course_name module true = Ok b →
  ∃ b', is_available_for self course_name module false = Ok b'
    ∧ (b = true → b' = true).
Proof.
  unfold is_available_for.
  destruct (capacity_left self <? 1).
  { intros ?; simplify_eq. by exists false. }
  case_bool_decide.
  { intros ?; simplify_eq. by exists false. }
  destruct (py_index (availability self) (module - 1)) as [v| |]; simpl;
    try done.
  destruct (v =? -1).
  { intros ?; simplify_eq. by exists false. }
  destruct (v =? 0); simpl.
  - intros ?; simplify_eq. destruct (negb _); eexists; split; done.
  - intros ?. exists b. split; done.
Qed.


(** X1. Whatever [is_available_for] answers in strict mode, it answers
    without raising in soft mode as well, and a teacher available in strict
    mode is available in soft mode. *)
Theorem strict_available_is_soft_available (self : Teacher)
    (course_name : string) (module : Z) (b : bool) :
  is_available_for self course_name module true = Ok b →
  ∃ b', is_available_for self course_name module false = Ok b'
    ∧ (b = true → b' = true).
Proof. apply is_available_strict_soft. Qed.

Lemma strict_available_is_soft_available_witness :
  is_available_for alice "CS101" 5 true = Ok true
  ∧ ∃ b', is_available_for alice "CS101" 5 false = Ok b'
      ∧ (true = true → b' = true).
Proof.
  assert (H : is_available_for alice "CS101" 5 true = Ok true)
    by (vm_compute; reflexivity).
  split; [exact H|].
  exact (strict_available_is_soft_available alice "CS101" 5 true H).
Defined.

(** What a positive answer of [is_available_for] has checked. *)
Lemma is_available_true_inv (self : Teacher) (course_name : string)
    (module : Z) (strict : bool) :
  is_available_for self course_name module strict = Ok true →
  1 ≤ capacity_left self
  ∧ (module ∉ assigned_modules self)
  ∧ course_name ∈ can_teach_courses self
  ∧ ∃ v, py_index (availability self) (module - 1) = Ok v
      ∧ v ≠ (-1) ∧ (strict = true → v ≠ 0).
Proof.
  unfold is_available_for.
  destruct (Z.ltb_spec (capacity_left self) 1); [done|].
  case_bool_decide as Hin; [done|].
  destruct (py_index (availability self) (module - 1)) as [v| |]; simpl;
    try done.
  destruct (Z.eqb_spec v (-1)); [done|].
  destruct strict; simpl.
  - destruct (Z.eqb_spec v 0); simpl; [done|].
    case_bool_decide; simpl; [|done]. intros _. split_and!; try done.
    exists v. split_and!; done.
  - case_bool_decide; simpl; [|done]. intros _. split_and!; try done.
    exists v. split_and!; done.
Qed.

(** X2. A teacher teaches one course per module: once [assign_to] has booked
    a module, the teacher is reported unavailable for that module for every
    course and strictness, and a second [assign_to] on it returns [False] and
    changes nothing. *)
Theorem booked_module_is_refused (self self' : Teacher)
    (course_name : string) (module : Z) :
  assign_to self course_name module = Ok (true, self') →
  ∀ other strict,
    is_available_for self' other module strict = Ok false
    ∧ assign_to self' other module = Ok (false, self').
Proof.
  unfold assign_to. intros H. inv_bind H. destruct x; simpl in H; [|done].
  simplify_eq. intros other strict.
  assert (Hno : ∀ s, is_available_for
            {| t_name := t_name self;
               can_teach_courses := can_teach_courses self;
               availability := availability self;
               capacity_total := capacity_total self;
               capacity_left := capacity_left self - 1;
               teaches := teaches self ++ [(course_name, module)];
               assigned_modules := {[module]} ∪ assigned_modules self |}
            other module s = Ok false).
  { intros s. unfold is_available_for. simpl.
    destruct (capacity_left self - 1 <? 1); [done|].
    rewrite bool_decide_eq_true_2 by set_solver. done. }
  split; [apply Hno|]. rewrite Hno. done.
Qed.

Lemma booked_module_is_refused_witness :
  ∃ self',
    assign_to alice "CS101" 5 = Ok (true, self')
    ∧ ∀ other strict,
        is_available_for self' other 5 strict = Ok false
        ∧ assign_to self' other 5 = Ok (false, self').
Proof.
  eexists. split; [vm_compute; reflexivity|].
  apply (booked_module_is_refused alice _ "CS101" 5).
  vm_compute. reflexivity.
Defined.

(** A teacher as [__init__] builds it has consistent bookkeeping. *)
Lemma new_teacher_ok (name : string) (can_teach : gset string)
    (availability : list Z) (capacity : Z) :
  0 ≤ capacity → teacher_ok (new_teacher name can_teach availability capacity).
Proof.
  intros Hc. unfold teacher_ok, new_teacher. simpl.
  split_and!; [done|constructor|lia|done].
Qed.

Lemma assign_to_ok (self self' : Teacher) (course_name : string) (module : Z)
    (b : bool) :
  teacher_ok self →
  assign_to self course_name module = Ok (b, self') →
  teacher_ok self'.
Proof.
  intros (Hset & Hnd & Hcap & Hpos) H. unfold assign_to in H.
  inv_bind H. destruct x; simpl in H; simplify_eq; [|done].
  apply is_available_true_inv in Hx as (Hge & Hnotin & _).
  unfold teacher_ok. simpl.
  rewrite fmap_app, length_app. simpl. split_and!.
  - rewrite list_to_set_app_L, Hset. simpl. set_solver.
  - apply NoDup_app. split_and!; [done| |apply NoDup_singleton].
    intros x Hx ->%list_elem_of_singleton. apply Hnotin.
    rewrite Hset. by apply elem_of_list_to_set.
  - lia.
  - lia.
Qed.

(** X3. [assign_to] keeps the bookkeeping of a teacher consistent, whether it
    books or refuses: afterwards the modules taken are still exactly those of
    the bookings, no module is booked twice, [capacity_left] is
    [capacity_total] minus the number of bookings and is not negative.  When
    it books, the number of bookings grows by one and the capacity left
    shrinks by one. *)
Theorem assign_to_keeps_bookkeeping (self self' : Teacher)
    (course_name : string) (module : Z) (b : bool) :
  teacher_ok self →
  assign_to self course_name module = Ok (b, self') →
  teacher_ok self'
  ∧ size (assigned_modules self') = List.length (teaches self')
  ∧ (b = true →
       List.length (teaches self') = S (List.length (teaches self))
       ∧ capacity_left self' = capacity_left self - 1
       ∧ (course_name, module) ∈ teaches self')
  ∧ (b = false → self' = self).
Proof.
  intros Hok H. pose proof (assign_to_ok _ _ _ _ _ Hok H) as Hok'.
  split; [done|]. split.
  - destruct Hok' as (Hset & Hnd & _). rewrite Hset.
    rewrite size_list_to_set by done. by rewrite length_fmap.
  - unfold assign_to in H. inv_bind H.
    destruct x; simpl in H; simplify_eq; simpl.
    + split; [|done]. intros _. rewrite length_app. simpl.
      split_and!; [lia|done|set_solver].
    + split; done.
Qed.

Lemma assign_to_keeps_bookkeeping_witness :
  teacher_ok alice
  ∧ ∃ self',
      assign_to alice "CS101" 5 = Ok (true, self')
      ∧ teacher_ok self'
      ∧ size (assigned_modules self') = List.length (teaches self')
      ∧ (true = true →
           List.length (teaches self') = S (List.length (teaches alice))
           ∧ capacity_left self' = capacity_left alice - 1
           ∧ ("CS101", 5) ∈ teaches self')
      ∧ (true = false → self' = alice).
Proof.
  assert (Hok : teacher_ok alice).
  { apply (new_teacher_ok "Alice" {["CS101"]}
             [-1;-1;-1;-1;1;-1;-1;-1;-1;-1;-1;-1;-1;-1] 1). lia. }
  split; [exact Hok|].
  eexists. split; [vm_compute; reflexivity|].
  apply (assign_to_keeps_bookkeeping alice _ "CS101" 5 true Hok).
  vm_compute. reflexivity.
Defined.

Lemma py_index_error {A : Type} (l : list A) (i : Z) :
  py_index l i = Raise IndexError
  ↔ i < - Z.of_nat (List.length l) ∨ Z.of_nat (List.length l) ≤ i.
Proof.
  unfold py_index.
  destruct (Z.ltb_spec i 0).
  - destruct (Z.ltb_spec (i + Z.of_nat (List.length l)) 0); simpl.
    { split; [lia|done]. }
    destruct (Z.leb_spec (Z.of_nat (List.length l))
                (i + Z.of_nat (List.length l))); simpl; [lia|].
    destruct (l !! Z.to_nat (i + Z.of_nat (List.length l))) eqn:E.
    + split; [done|lia].
    + apply lookup_ge_None in E. lia.
  - destruct (Z.ltb_spec i 0); [lia|]. simpl.
    destruct (Z.leb_spec (Z.of_nat (List.length l)) i); simpl.
    { split; [lia|done]. }
    destruct (l !! Z.to_nat i) eqn:E.
    + split; [done|lia].
    + apply lookup_ge_None in E. lia.
Qed.

Lemma py_index_minus_one {A : Type} (l : list A) :
  (0 < List.length l)%nat →
  ∃ v, last l = Some v ∧ py_index l (-1) = Ok v.
Proof.
  intros Hlen. unfold py_index. simpl.
  destruct (Z.ltb_spec (-1 + Z.of_nat (List.length l)) 0); [lia|].
  destruct (Z.leb_spec (Z.of_nat (List.length l))
              (-1 + Z.of_nat (List.length l))); [lia|]. simpl.
  rewrite last_lookup.
  replace (Z.to_nat (-1 + Z.of_nat (List.length l)))
    with (Nat.pred (List.length l)) by lia.
  destruct (l !! Nat.pred (List.length l)) as [v|] eqn:E; [by exists v|].
  apply lookup_ge_None in E. lia.
Qed.

(** X4. Bounds of the preference list.  For a teacher with capacity left and
    the module not yet taken, [is_available_for] raises [IndexError] exactly
    when [module - 1] is outside [-len .. len - 1] of the preference list;
    inside that range it returns a boolean.  Module 0 is inside the range: it
    reads the last preference, as index -1 does. *)
Theorem is_available_for_index_error (self : Teacher) (course_name : string)
    (module : Z) (strict : bool) :
  1 ≤ capacity_left self →
  module ∉ assigned_modules self →
  let len := Z.of_nat (List.length (availability self)) in
  (is_available_for self course_name module strict = Raise IndexError
   ↔ module - 1 < - len ∨ len ≤ module - 1)
  ∧ (- len ≤ module - 1 < len →
     ∃ b, is_available_for self course_name module strict = Ok b)
  ∧ (module = 0 → 0 < len →
     ∃ v, last (availability self) = Some v
       ∧ py_index (availability self) (module - 1) = Ok v).
Proof.
  intros Hcap Hnot len. unfold is_available_for.
  destruct (Z.ltb_spec (capacity_left self) 1); [lia|].
  rewrite bool_decide_eq_false_2 by done.
  pose proof (py_index_error (availability self) (module - 1)) as Herr.
  fold len in Herr.
  destruct (py_index (availability self) (module - 1)) as [v|e|] eqn:Hi;
    simpl.
  - match goal with |- (?body = _ ↔ _) ∧ _ =>
      assert (Hb : ∃ b, body = Ok b)
    end.
    { destruct (v =? -1); [by eexists|].
      destruct strict; simpl; repeat case_match; by eexists. }
    destruct Hb as [b Hb]. rewrite Hb. split_and!.
    + split; [done|intros Hr; apply Herr in Hr; done].
    + intros _. by eexists.
    + intros -> Hlen.
      destruct (py_index_minus_one (availability self)) as (w & Hl & Hw);
        [subst len; lia|].
      change (0 - 1) with (-1) in Hi. rewrite Hw in Hi. simplify_eq.
      by exists v.
  - assert (e = IndexError) as ->.
    { unfold py_index in Hi. repeat case_match; by simplify_eq. }
    split_and!.
    + split; [intros _; by apply Herr|done].
    + intros Hr. assert (Hx : module - 1 < - len ∨ len ≤ module - 1)
        by by apply Herr. lia.
    + intros -> Hlen.
      assert (Hx : 0 - 1 < - len ∨ len ≤ 0 - 1) by by apply Herr. lia.
  - by apply py_index_fuel in Hi.
Qed.

Lemma is_available_for_index_error_witness :
  1 ≤ capacity_left alice
  ∧ (15 ∉ assigned_modules alice)
  ∧ is_available_for alice "CS101" 15 false = Raise IndexError
  ∧ ∃ b, is_available_for alice "CS101" 0 false = Ok b.
Proof.
  assert (H1 : 1 ≤ capacity_left alice) by (simpl; lia).
  assert (H2 : 15 ∉ assigned_modules alice) by set_solver.
  assert (H3 : 0 ∉ assigned_modules alice) by set_solver.
  split; [exact H1|]. split; [exact H2|]. split.
  - apply (is_available_for_index_error alice "CS101" 15 false H1 H2).
    right. simpl. lia.
  - apply (is_available_for_index_error alice "CS101" 0 false H1 H3).
    simpl. lia.
Defined.

(** X5. With preference values 1, 0 or -1, every teacher that
    [is_available_for] accepts has an availability score: 0 or 1 in soft
    mode, and always 0 in strict mode, so that in the strict sub-phases the
    choice between teachers is made on specialization and capacity only. *)
Theorem available_teacher_score (self : Teacher) (course_name : string)
    (module : Z) (strict : bool) :
  Forall (fun v => v = -1 ∨ v = 0 ∨ v = 1) (availability self) →
  is_available_for self course_name module strict = Ok true →
  ∃ s, availability_score self module = Ok (Some s)
    ∧ (s = 0 ∨ s = 1)
    ∧ (strict = true → s = 0).
Proof.
  intros Hdecl H.
  apply is_available_true_inv in H as (_ & _ & _ & v & Hv & Hne & Hstrict).
  unfold availability_score. rewrite Hv. simpl.
  rewrite Forall_forall in Hdecl.
  destruct (Hdecl v (py_index_elem _ _ _ Hv)) as [Hv1|[Hv1|Hv1]];
    subst v; [done| |].
  - simpl. exists 1. split_and!; [done|by right|].
    intros Hs. by apply Hstrict in Hs.
  - simpl. exists 0. split_and!; [done|by left|done].
Qed.

Lemma available_teacher_score_witness :
  Forall (fun v => v = -1 ∨ v = 0 ∨ v = 1) (availability alice)
  ∧ is_available_for alice "CS101" 5 true = Ok true
  ∧ ∃ s, availability_score alice 5 = Ok (Some s)
      ∧ (s = 0 ∨ s = 1)
      ∧ (true = true → s = 0).
Proof.
  assert (H1 : Forall (fun v => v = -1 ∨ v = 0 ∨ v = 1) (availability alice)).
  { apply (bool_decide_unpack _). vm_compute. exact I. }
  assert (H2 : is_available_for alice "CS101" 5 true = Ok true)
    by (vm_compute; reflexivity).
  split; [exact H1|]. split; [exact H2|].
  exact (available_teacher_score alice "CS101" 5 true H1 H2).
Defined.

(** ** Course *)

Lemma all_prereqs_assigned_loop_spec (ps : list string) (cs : list Course) :
  match all_prereqs_assigned_loop ps cs with
  | Ok true =>
      ∀ p, p ∈ ps →
        ∃ pc, get_course cs p = Some pc ∧ is_Some (module_assigned pc)
  | Ok false =>
      ∃ p pc, p ∈ ps ∧ get_course cs p = Some pc ∧ module_assigned pc = None
  | Raise e => e = KeyError ∧ ∃ p, p ∈ ps ∧ get_course cs p = None
  | OutOfFuel => False
  end.
Proof.
  induction ps as [|q ps IH]; simpl.
  - intros p Hp. by apply elem_of_nil in Hp.
  - destruct (get_course cs q) as [qc|] eqn:Hq.
    + destruct (module_assigned qc) as [m|] eqn:Hm.
      * destruct (all_prereqs_assigned_loop ps cs) as [[|]|e|]; try done.
        -- intros p [->|Hp]%elem_of_cons; [|by apply IH].
           exists qc. split; [done|]. rewrite Hm. by eexists.
        -- destruct IH as (p & pc & Hp & Hg & Hn).
           exists p, pc. split_and!; [by right|done..].
        -- destruct IH as (-> & p & Hp & Hg). split; [done|].
           exists p. split; [by right|done].
      * exists q, qc. split_and!; [by left|done..].
    + split; [done|]. exists q. split; [by left|done].
Qed.

(** X6. [all_prereqs_assigned] answers [True] exactly when every
    prerequisite is in the course dict and has a module; [False] only when
    some prerequisite is in the dict without a module; and the only exception
    it raises is [KeyError], for a prerequisite missing from the dict. *)
Theorem all_prereqs_assigned_spec (self : Course) (cs : list Course) :
  (all_prereqs_assigned self cs = Ok true
   ↔ ∀ p, p ∈ prereqs self →
       ∃ pc, get_course cs p = Some pc ∧ is_Some (module_assigned pc))
  ∧ (all_prereqs_assigned self cs = Ok false →
     ∃ p pc, p ∈ prereqs self ∧ get_course cs p = Some pc
       ∧ module_assigned pc = None)
  ∧ (∀ e, all_prereqs_assigned self cs = Raise e →
     e = KeyError ∧ ∃ p, p ∈ prereqs self ∧ get_course cs p = None).
Proof.
  unfold all_prereqs_assigned.
  pose proof (all_prereqs_assigned_loop_spec (prereqs self) cs) as H.
  split_and!.
  - split.
    + intros Ht. by rewrite Ht in H.
    + intros Hall.
      destruct (all_prereqs_assigned_loop (prereqs self) cs) as [[|]|e|];
        try done.
      * destruct H as (p & pc & Hp & Hg & Hn).
        destruct (Hall p Hp) as (pc' & Hg' & Hs). rewrite Hg in Hg'.
        simplify_eq. rewrite Hn in Hs. by destruct Hs.
      * destruct H as (_ & p & Hp & Hg).
        destruct (Hall p Hp) as (pc' & Hg' & _). congruence.
  - intros Hf. by rewrite Hf in H.
  - intros e He. by rewrite He in H.
Qed.

Lemma get_latest_loop_spec (ps : list string) (cs : list Course) (acc : Z) :
  all_prereqs_assigned_loop ps cs = Ok true →
  ∃ latest,
    get_latest_assigned_prereq_loop ps cs acc = Ok latest
    ∧ acc ≤ latest
    ∧ (∀ p pc m, p ∈ ps → get_course cs p = Some pc →
         module_assigned pc = Some m → m ≤ latest)
    ∧ (latest = acc
       ∨ ∃ p pc, p ∈ ps ∧ get_course cs p = Some pc
           ∧ module_assigned pc = Some latest).
Proof.
  revert acc. induction ps as [|q ps IH]; intros acc Hall; simpl in *.
  - exists acc. split_and!; [done|lia| |by left].
    intros p pc m Hp. by apply elem_of_nil in Hp.
  - destruct (get_course cs q) as [qc|] eqn:Hq; [|done].
    destruct (module_assigned qc) as [qm|] eqn:Hqm; [|done].
    destruct (IH (Z.max acc qm) Hall) as (latest & Hl & Hle & Hall' & Hor).
    exists latest. split_and!; [done|lia| |].
    + intros p pc m [->|Hp]%elem_of_cons Hg Hm; [|by eapply Hall'].
      rewrite Hq in Hg. simplify_eq. lia.
    + destruct Hor as [->|(p & pc & Hp & Hg & Hm)].
      * destruct (Z.max_spec acc qm) as [[_ ->]|[_ ->]]; [|by left].
        right. exists q, qc. split_and!; [by left|done..].
      * right. exists p, pc. split_and!; [by right|done..].
Qed.

(** X7. Once [all_prereqs_assigned] has answered [True],
    [get_latest_assigned_prereq] does not raise: it returns a number that is
    at least 0 and at least the module of every prerequisite, and that is
    either 0 or the module of one of the prerequisites. *)
Theorem get_latest_assigned_prereq_spec (self : Course) (cs : list Course) :
  all_prereqs_assigned self cs = Ok true →
  ∃ latest,
    get_latest_assigned_prereq self cs = Ok latest
    ∧ 0 ≤ latest
    ∧ (∀ p pc m, p ∈ prereqs self → get_course cs p = Some pc →
         module_assigned pc = Some m → m ≤ latest)
    ∧ (latest = 0
       ∨ ∃ p pc, p ∈ prereqs self ∧ get_course cs p = Some pc
           ∧ module_assigned pc = Some latest).
Proof.
  intros H. by apply get_latest_loop_spec.
Qed.

(** X8. A failed [assign_to_module] changes nothing: when it returns [False]
    the course object and the teacher dict are the ones it was given. *)
Theorem assign_to_module_false_unchanged (self self' : Course)
    (module layer : Z) (cs : list Course) (ts ts' : list Teacher)
    (strict : bool) :
  assign_to_module self module layer cs ts strict = Ok (false, self', ts') →
  self' = self ∧ ts' = ts.
Proof.
  unfold assign_to_module. intros H.
  inv_bind H. destruct x; simpl in H; [|by simplify_eq].
  inv_bind H. destruct x as [name|]; [|by simplify_eq].
  destruct (get_teacher ts name) as [t|]; [|done].
  inv_bind H. destruct x as [ok t']. destruct ok; simpl in H; by simplify_eq.
Qed.

Lemma get_latest_assigned_prereq_spec_witness :
  all_prereqs_assigned course_b (courses fixed_a_scenario) = Ok true
  ∧ ∃ latest,
      get_latest_assigned_prereq course_b (courses fixed_a_scenario)
      = Ok latest
      ∧ 0 ≤ latest
      ∧ (∀ p pc m, p ∈ prereqs course_b →
           get_course (courses fixed_a_scenario) p = Some pc →
           module_assigned pc = Some m → m ≤ latest)
      ∧ (latest = 0
         ∨ ∃ p pc, p ∈ prereqs course_b
             ∧ get_course (courses fixed_a_scenario) p = Some pc
             ∧ module_assigned pc = Some latest).
Proof.
  assert (H : all_prereqs_assigned course_b (courses fixed_a_scenario)
              = Ok true) by (vm_compute; reflexivity).
  split; [exact H|].
  exact (get_latest_assigned_prereq_spec course_b
           (courses fixed_a_scenario) H).
Defined.

Lemma assign_to_module_false_unchanged_witness :
  ∃ self' ts',
    assign_to_module course_c 1 0 (courses chain_scenario)
      (teachers chain_scenario) false = Ok (false, self', ts')
    ∧ self' = course_c ∧ ts' = teachers chain_scenario.
Proof.
  eexists _, _. split; [vm_compute; reflexivity|].
  apply (assign_to_module_false_unchanged course_c _ 1 0
           (courses chain_scenario) (teachers chain_scenario) _ false).
  vm_compute. reflexivity.
Defined.

(** ** Checking for a teacher and choosing one *)

Lemma has_loop_true (cn : string) (names : list string) (m : Z)
    (ts : list Teacher) (strict : bool) :
  has_teachers_for_module_loop cn names m ts strict = Ok true →
  ∃ n t, n ∈ names ∧ get_teacher ts n = Some t
    ∧ is_available_for t cn m strict = Ok true.
Proof.
  induction names as [|n names IH]; simpl; [done|].
  destruct (get_teacher ts n) as [t|] eqn:Ht; [|done].
  intros H. inv_bind H. destruct x.
  - exists n, t. split_and!; [by left|done..].
  - destruct (IH H) as (n' & t' & Hin & Hg & Ha).
    exists n', t'. split_and!; [by right|done..].
Qed.

Lemma available_loop_has (cn : string) (names : list string) (m : Z)
    (ts : list Teacher) (strict : bool) (av : list avail_entry) :
  available_loop cn names m ts strict = Ok av →
  has_teachers_for_module_loop cn names m ts strict
  = Ok (bool_decide (av ≠ [])).
Proof.
  revert av. induction names as [|n names IH]; intros av H; simpl in *.
  - by simplify_eq.
  - destruct (get_teacher ts n) as [t|]; [|done].
    inv_bind H. rewrite Hx. simpl. destruct x.
    + inv_bind H. inv_bind H. by simplify_eq.
    + by apply IH.
Qed.

Lemma py_min_loop_elem (rest : list avail_entry) (best b : avail_entry) :
  py_min_loop best rest = Ok b → b ∈ best :: rest.
Proof.
  revert best. induction rest as [|x rest IH]; intros best H; simpl in H.
  - simplify_eq. by left.
  - inv_bind H. apply IH in H. destruct x0; set_solver.
Qed.

(** X9. The check and the choice agree: whenever [get_teacher_for_module]
    returns, [has_teachers_for_module] returns too, and it answers [True]
    exactly when a teacher was chosen. *)
Theorem has_teachers_agrees_with_choice (self : Course) (module : Z)
    (ts : list Teacher) (strict : bool) (r : option string) :
  get_teacher_for_module self module ts strict = Ok r →
  has_teachers_for_module self module ts strict
  = Ok (bool_decide (is_Some r)).
Proof.
  unfold get_teacher_for_module, has_teachers_for_module. intros H.
  inv_bind H. rewrite (available_loop_has _ _ _ _ _ _ Hx).
  destruct x as [|first rest].
  - simplify_eq. f_equal.
  - inv_bind H. simplify_eq. f_equal.
Qed.

Lemma has_teachers_agrees_with_choice_witness :
  get_teacher_for_module cs101_bob_first 5 two_teachers false
  = Ok (Some "Bob")
  ∧ has_teachers_for_module cs101_bob_first 5 two_teachers false
    = Ok (bool_decide (is_Some (Some "Bob"))).
Proof.
  assert (H : get_teacher_for_module cs101_bob_first 5 two_teachers false
              = Ok (Some "Bob")) by (vm_compute; reflexivity).
  split; [exact H|].
  exact (has_teachers_agrees_with_choice cs101_bob_first 5 two_teachers false
           (Some "Bob") H).
Defined.

Lemma declared_14_preferences (ts : list Teacher) :
  teachers_declared_14 ts → preferences_declared ts.
Proof.
  unfold teachers_declared_14, preferences_declared. intros H.
  eapply Forall_impl; [exact H|]. by intros t [_ Ht].
Qed.

Lemma is_available_for_total (ts : list Teacher) (t : Teacher) (cn : string)
    (m : Z) (strict : bool) :
  teachers_declared_14 ts → t ∈ ts → 1 ≤ m ≤ 14 →
  ∃ b, is_available_for t cn m strict = Ok b.
Proof.
  intros Hdecl Ht Hm. unfold teachers_declared_14 in Hdecl.
  rewrite Forall_forall in Hdecl. destruct (Hdecl t Ht) as [Hlen _].
  destruct (py_index_in_range (availability t) (m - 1)) as (v & _ & Hv);
    [lia|].
  destruct (is_available_for_cases t cn m strict v Hv) as [[_ ->]|[_ ->]];
    by eexists.
Qed.

Lemma available_loop_total (cn : string) (names : list string) (m : Z)
    (ts : list Teacher) (strict : bool) :
  teachers_declared_14 ts → 1 ≤ m ≤ 14 →
  Forall (fun n => is_Some (get_teacher ts n)) names →
  ∃ av, available_loop cn names m ts strict = Ok av.
Proof.
  intros Hdecl Hm. induction 1 as [|n names [t Ht] Hall IH]; simpl.
  - by eexists.
  - rewrite Ht. destruct IH as [av Hav].
    assert (Hin : t ∈ ts) by by eapply (store_get_elem t_name).
    destruct (is_available_for_total ts t cn m strict Hdecl Hin Hm)
      as [b Hb].
    rewrite Hb. simpl. destruct b; [|by eexists].
    destruct (available_score ts t cn m strict
                (declared_14_preferences _ Hdecl) Hin Hb) as [s Hs].
    rewrite Hs. simpl. rewrite Hav. simpl. by eexists.
Qed.

Lemma can_be_assigned_has_teachers (c : Course) (m layer : Z)
    (cs : list Course) (ts : list Teacher) (strict : bool) :
  can_be_assigned_to_module c m layer cs ts strict = Ok true →
  has_teachers_for_module c m ts strict = Ok true.
Proof.
  unfold can_be_assigned_to_module. intros H.
  case_bool_decide; [done|].
  destruct (layer <? min_layer c); [done|].
  inv_bind H. destruct x; [|done]. simpl in H.
  inv_bind H. destruct x; [|done]. simpl in H.
  inv_bind H. by destruct x.
Qed.

Lemma get_teacher_for_module_some (c : Course) (m : Z) (ts : list Teacher)
    (strict : bool) (name : string) :
  get_teacher_for_module c m ts strict = Ok (Some name) →
  name ∈ possible_teachers c
  ∧ ∃ t, get_teacher ts name = Some t
      ∧ is_available_for t (c_name c) m strict = Ok true.
Proof.
  unfold get_teacher_for_module. intros H. inv_bind H.
  destruct x as [|first rest]; [done|]. inv_bind H. simplify_eq.
  apply py_min_loop_elem in Hx0.
  apply list_elem_of_split in Hx0 as (l1 & l2 & Heq).
  destruct (available_loop_split _ _ _ _ _ _ _ _ _ Hx Heq)
    as (pre & post & t & Hnames & (Hg & Ha & _) & _).
  split; [rewrite Hnames; set_solver|]. by exists t.
Qed.

Lemma feasible_assign_ok (self : Course) (module layer : Z)
    (cs : list Course) (ts : list Teacher) (strict : bool) :
  teachers_resolve self ts →
  teachers_declared_14 ts →
  1 ≤ module ≤ 14 →
  can_be_assigned_to_module self module layer cs ts strict = Ok true →
  ∃ self' ts',
    assign_to_module self module layer cs ts strict = Ok (true, self', ts').
Proof.
  intros Hres Hdecl Hm Hcan.
  pose proof (can_be_assigned_has_teachers _ _ _ _ _ _ Hcan) as Hhas.
  unfold assign_to_module. rewrite Hcan. simpl.
  destruct (available_loop_total (c_name self) (possible_teachers self)
              module ts strict Hdecl Hm Hres) as [av Hav].
  unfold has_teachers_for_module in Hhas.
  rewrite (available_loop_has _ _ _ _ _ _ Hav) in Hhas.
  destruct av as [|first rest]; [done|].
  assert (Hsome : ∀ e, e ∈ first :: rest → is_Some (entry_key e)).
  { intros e He. apply list_elem_of_split in He as (l1 & l2 & Heq).
    destruct (available_loop_split _ _ _ _ _ _ l1 l2 e Hav Heq)
      as (pre & post & t & _ & Hf & _).
    destruct (entry_for_key _ _ _ _ _ _ _
                (declared_14_preferences _ Hdecl) Hf) as (k & Hk & _).
    by rewrite Hk. }
  destruct (Hsome first) as [k0 Hk0]; [by left|].
  destruct (py_min_loop_scan rest [] [] first k0 Hk0)
    as (b & kb & l1 & l2 & Hmin & _).
  { intros y Hy. apply Hsome. by right. }
  { intros y k Hy. by apply elem_of_nil in Hy. }
  { intros y k Hy. by apply elem_of_nil in Hy. }
  assert (Hchoice : get_teacher_for_module self module ts strict
                    = Ok (Some b.1.1.1)).
  { unfold get_teacher_for_module. rewrite Hav. simpl. by rewrite Hmin. }
  rewrite Hchoice. simpl.
  apply get_teacher_for_module_some in Hchoice as (_ & t & Ht & Ha).
  rewrite Ht.
  assert (Hsoft : is_available_for t (c_name self) module false = Ok true).
  { destruct strict; [|done].
    destruct (is_available_strict_soft _ _ _ _ Ha) as (b' & Hb' & Himp).
    by rewrite Himp in Hb'. }
  unfold assign_to. rewrite Hsoft. simpl. by eexists _, _.
Qed.


(** X10. On well-formed data the feasibility check is enough: if every
    possible teacher of the course is in the teacher dict, every teacher has
    14 preference values among 1, 0 and -1, and the module number is in
    1..14, then whenever [can_be_assigned_to_module] answers [True],
    [assign_to_module] with the same arguments returns [True].  The
    "feasible but assignment failed" error of Pass 2 is then unreachable. *)
Theorem feasible_assignment_succeeds (self : Course) (module layer : Z)
    (cs : list Course) (ts : list Teacher) (strict : bool) :
  teachers_resolve self ts →
  teachers_declared_14 ts →
  1 ≤ module ≤ 14 →
  can_be_assigned_to_module self module layer cs ts strict = Ok true →
  ∃ self' ts',
    assign_to_module self module layer cs ts strict = Ok (true, self', ts').
Proof. apply feasible_assign_ok. Qed.

Lemma feasible_assignment_succeeds_witness :
  teachers_resolve course_a (teachers chain_scenario)
  ∧ teachers_declared_14 (teachers chain_scenario)
  ∧ 1 ≤ 3 ≤ 14
  ∧ can_be_assigned_to_module course_a 3 0 (courses chain_scenario)
      (teachers chain_scenario) true = Ok true
  ∧ ∃ self' ts',
      assign_to_module course_a 3 0 (courses chain_scenario)
        (teachers chain_scenario) true = Ok (true, self', ts').
Proof.
  assert (H1 : teachers_resolve course_a (teachers chain_scenario)).
  { unfold teachers_resolve. apply (bool_decide_unpack _).
    vm_compute. exact I. }
  assert (H2 : teachers_declared_14 (teachers chain_scenario)).
  { unfold teachers_declared_14. apply (bool_decide_unpack _).
    vm_compute. exact I. }
  assert (H3 : 1 ≤ 3 ≤ 14) by lia.
  assert (H4 : can_be_assigned_to_module course_a 3 0
                 (courses chain_scenario) (teachers chain_scenario) true
               = Ok true) by (vm_compute; reflexivity).
  split_and!; try done.
  exact (feasible_assignment_succeeds course_a 3 0 (courses chain_scenario)
           (teachers chain_scenario) true H1 H2 H3 H4).
Defined.

Lemma assign_to_module_inv (c c' : Course) (m layer : Z) (cs : list Course)
    (ts ts' : list Teacher) (strict : bool) :
  assign_to_module c m layer cs ts strict = Ok (true, c', ts') →
  ∃ name t t',
    can_be_assigned_to_module c m layer cs ts strict = Ok true
    ∧ name ∈ possible_teachers c
    ∧ get_teacher ts name = Some t
    ∧ is_available_for t (c_name c) m strict = Ok true
    ∧ assign_to t (c_name c) m = Ok (true, t')
    ∧ c' = set_assignment c m layer name
    ∧ ts' = set_teacher ts t'.
Proof.
  unfold assign_to_module. intros H.
  inv_bind H. destruct x; [|simpl in H; by simplify_eq]. simpl in H.
  inv_bind H. destruct x as [name|]; [|by simplify_eq].
  pose proof (get_teacher_for_module_some _ _ _ _ _ Hx0)
    as (Hin & t0 & Ht0 & Ha).
  rewrite Ht0 in H.
  inv_bind H. destruct x as [ok t']. destruct ok; simpl in H; [|by simplify_eq].
  simplify_eq. exists name, t0, t'. done.
Qed.

Lemma assign_to_true_inv (t t' : Teacher) (cn : string) (m : Z) :
  assign_to t cn m = Ok (true, t') →
  is_available_for t cn m false = Ok true
  ∧ t_name t' = t_name t
  ∧ capacity_left t' = capacity_left t - 1
  ∧ teaches t' = (teaches t ++ [(cn, m)])%list
  ∧ capacity_total t' = capacity_total t
  ∧ availability t' = availability t
  ∧ can_teach_courses t' = can_teach_courses t
  ∧ assigned_modules t' = {[m]} ∪ assigned_modules t.
Proof.
  unfold assign_to. intros H. inv_bind H.
  destruct x; simpl in H; by simplify_eq.
Qed.

(** X11. What a successful [assign_to_module] has done.  The course has its
    module, layer and teacher set together and keeps its name; the teacher is
    one of the course's possible teachers and was available for the module at
    the given strictness; in the teacher dict that teacher has one unit of
    capacity less and the booking (course, module) appended, and every other
    entry is untouched. *)
Theorem assign_to_module_effect (self self' : Course) (module layer : Z)
    (cs : list Course) (ts ts' : list Teacher) (strict : bool) :
  assign_to_module self module layer cs ts strict = Ok (true, self', ts') →
  ∃ name t t',
    name ∈ possible_teachers self
    ∧ get_teacher ts name = Some t
    ∧ is_available_for t (c_name self) module strict = Ok true
    ∧ module_assigned self' = Some module
    ∧ layer_assigned self' = Some layer
    ∧ teacher_assigned self' = Some name
    ∧ c_name self' = c_name self
    ∧ get_teacher ts' name = Some t'
    ∧ capacity_left t' = capacity_left t - 1
    ∧ teaches t' = (teaches t ++ [(c_name self, module)])%list
    ∧ ∀ other, other ≠ name → get_teacher ts' other = get_teacher ts other.
Proof.
  intros H.
  apply assign_to_module_inv in H
    as (name & t & t' & _ & Hin & Ht & Ha & Hassign & -> & ->).
  apply assign_to_true_inv in Hassign as (_ & Hname & Hcap & Hteaches & _).
  pose proof (get_teacher_name _ _ _ Ht) as Hn.
  exists name, t, t'. split_and!; try done.
  - rewrite get_teacher_set, Hname, Hn, decide_True by done. by rewrite Ht.
  - intros other Hne. rewrite get_teacher_set, Hname, Hn.
    by rewrite decide_False.
Qed.

Lemma assign_to_module_effect_witness :
  ∃ self' ts',
    assign_to_module course_a 3 0 (courses chain_scenario)
      (teachers chain_scenario) true = Ok (true, self', ts')
    ∧ ∃ name t t',
        name ∈ possible_teachers course_a
        ∧ get_teacher (teachers chain_scenario) name = Some t
        ∧ is_available_for t (c_name course_a) 3 true = Ok true
        ∧ module_assigned self' = Some 3
        ∧ layer_assigned self' = Some 0
        ∧ teacher_assigned self' = Some name
        ∧ c_name self' = c_name course_a
        ∧ get_teacher ts' name = Some t'
        ∧ capacity_left t' = capacity_left t - 1
        ∧ teaches t' = (teaches t ++ [(c_name course_a, 3)])%list
        ∧ ∀ other, other ≠ name →
            get_teacher ts' other
            = get_teacher (teachers chain_scenario) other.
Proof.
  eexists _, _. split; [vm_compute; reflexivity|].
  apply (assign_to_module_effect course_a _ 3 0 (courses chain_scenario)
           (teachers chain_scenario) _ true).
  vm_compute. reflexivity.
Defined.

Lemma has_loop_strict_soft (cn : string) (names : list string) (m : Z)
    (ts : list Teacher) :
  has_teachers_for_module_loop cn names m ts true = Ok true →
  has_teachers_for_module_loop cn names m ts false = Ok true.
Proof.
  induction names as [|n names IH]; simpl; [done|].
  destruct (get_teacher ts n) as [t|]; [|done].
  intros H. inv_bind H.
  destruct (is_available_strict_soft _ _ _ _ Hx) as (b' & Hb' & Himp).
  rewrite Hb'. simpl. destruct x.
  - by rewrite Himp.
  - destruct b'; [done|]. by apply IH.
Qed.

(** X12. Relaxing strictness never loses a placement: if
    [can_be_assigned_to_module] answers [True] in strict mode, it answers
    [True] in soft mode for the same course, module and layer. *)
Theorem strict_feasible_is_soft_feasible (self : Course) (module layer : Z)
    (cs : list Course) (ts : list Teacher) :
  can_be_assigned_to_module self module layer cs ts true = Ok true →
  can_be_assigned_to_module self module layer cs ts false = Ok true.
Proof.
  unfold can_be_assigned_to_module. intros H.
  case_bool_decide; [done|].
  destruct (layer <? min_layer self); [done|].
  inv_bind H. rewrite Hx. simpl. destruct x; [|done]. simpl in *.
  inv_bind H. rewrite Hx0. simpl. destruct x; [|done]. simpl in *.
  inv_bind H. destruct x; [|done].
  unfold has_teachers_for_module in *.
  by rewrite (has_loop_strict_soft _ _ _ _ Hx1).
Qed.

Lemma strict_feasible_is_soft_feasible_witness :
  can_be_assigned_to_module course_a 3 0 (courses chain_scenario)
    (teachers chain_scenario) true = Ok true
  ∧ can_be_assigned_to_module course_a 3 0 (courses chain_scenario)
      (teachers chain_scenario) false = Ok true.
Proof.
  assert (H : can_be_assigned_to_module course_a 3 0
                (courses chain_scenario) (teachers chain_scenario) true
              = Ok true) by (vm_compute; reflexivity).
  split; [exact H|].
  exact (strict_feasible_is_soft_feasible course_a 3 0
           (courses chain_scenario) (teachers chain_scenario) H).
Defined.

(** ** Module *)

Lemma can_accept_room (modl : ModuleSlot) (c : Course) (layer : Z)
    (fixed : bool) (cs : list Course) :
  can_accept modl c layer fixed cs = true →
  total_count modl < max_capacity modl
  ∧ (part_of_chain c = true →
     has_celebrity_course modl = false ∧ chain_count_in_layer modl layer < 1)
  ∧ (fixed = true →
     has_celebrity_course modl = false
     ∧ any_chain cs (m_courses modl) = false).
Proof.
  unfold can_accept.
  destruct (Z.geb_spec (total_count modl) (max_capacity modl)); [done|].
  destruct (part_of_chain c), (has_celebrity_course modl); simpl; try done;
    destruct (Z.geb_spec (chain_count_in_layer modl layer) 1); simpl;
    try done;
    destruct fixed; simpl; try done;
    destruct (any_chain cs (m_courses modl)); simpl; try done;
    intros _; split_and!; try done; try lia.
Qed.

Lemma add_course_fields (modl modl' : ModuleSlot) (c : Course) (layer : Z)
    (fixed : bool) (cs : list Course) :
  add_course modl c layer fixed cs = Ok modl' →
  number modl' = number modl
  ∧ max_capacity modl' = max_capacity modl
  ∧ m_courses modl' = (m_courses modl ++ [c_name c])%list
  ∧ total_count modl' = total_count modl + 1
  ∧ has_celebrity_course modl' = fixed || has_celebrity_course modl
  ∧ (∀ l, chain_count_in_layer modl' l =
          if part_of_chain c && bool_decide (l = layer)
          then chain_count_in_layer modl l + 1
          else chain_count_in_layer modl l).
Proof.
  intros H. pose proof (add_course_inv _ _ _ _ _ _ H) as (Hn & Hc & Hf).
  unfold add_course in H. inv_bind H. simplify_eq. simpl in *.
  split_and!; try done.
  - unfold total_count. simpl. rewrite length_app. simpl. lia.
  - intros l. unfold chain_count_in_layer. simpl.
    destruct (part_of_chain c); simpl; [|done].
    case_bool_decide as Hl.
    + subst l. by rewrite lookup_insert_eq.
    + by rewrite lookup_insert_ne.
Qed.

(** X13. A course that [can_accept] lets in is added without error, also as
    a celebrity course: [add_course] returns the module with the course
    appended to its occupants, one occupant more and still within
    [max_capacity]; the chain count of the layer grows by one for a chain
    course and stays at most 1, and the celebrity flag is set exactly for a
    celebrity placement. *)
Theorem accepted_course_is_added (self : ModuleSlot) (course : Course)
    (layer : Z) (fixed : bool) (cs : list Course) :
  can_accept self course layer fixed cs = true →
  ∃ self',
    add_course self course layer fixed cs = Ok self'
    ∧ m_courses self' = (m_courses self ++ [c_name course])%list
    ∧ total_count self' = total_count self + 1
    ∧ total_count self' ≤ max_capacity self'
    ∧ has_celebrity_course self' = fixed || has_celebrity_course self
    ∧ (part_of_chain course = true → chain_count_in_layer self' layer ≤ 1).
Proof.
  intros Hacc.
  destruct (can_accept_room _ _ _ _ _ Hacc) as (Hroom & Hchain & Hfixed).
  assert (Hadd : ∃ self', add_course self course layer fixed cs = Ok self').
  { unfold add_course. destruct fixed; simpl; [|by eexists].
    destruct (Hfixed eq_refl) as [-> ->]. simpl. by eexists. }
  destruct Hadd as [self' Hadd]. exists self'.
  destruct (add_course_fields _ _ _ _ _ _ Hadd)
    as (_ & Hcap & Hocc & Hcount & Hflag & Hlayers).
  split_and!; try done; [lia|].
  intros Hc. rewrite Hlayers, Hc, bool_decide_eq_true_2 by done. simpl.
  destruct (Hchain Hc) as [_ Hlt]. lia.
Qed.

Lemma accepted_course_is_added_witness :
  can_accept (new_module 5) course_a 0 true (courses chain_scenario) = true
  ∧ ∃ self',
      add_course (new_module 5) course_a 0 true (courses chain_scenario)
      = Ok self'
      ∧ m_courses self' = (m_courses (new_module 5) ++ [c_name course_a])%list
      ∧ total_count self' = total_count (new_module 5) + 1
      ∧ total_count self' ≤ max_capacity self'
      ∧ has_celebrity_course self'
        = true || has_celebrity_course (new_module 5)
      ∧ (part_of_chain course_a = true → chain_count_in_layer self' 0 ≤ 1).
Proof.
  assert (H : can_accept (new_module 5) course_a 0 true
                (courses chain_scenario) = true) by (vm_compute; reflexivity).
  split; [exact H|].
  exact (accepted_course_is_added (new_module 5) course_a 0 true
           (courses chain_scenario) H).
Defined.

(** ** Invariants of the three passes *)

(** What one accepted row of Pass 1 and one placement of Pass 2 or 3 change,
    in one shape: a course without a module gets one, its teacher books it,
    and the module that accepted the course receives it. *)
Lemma placement_step (layer : Z) (s s' : Scheduler) (us us' : list string) :
  placement layer s us s' us' →
  ∃ num modl modl' c c' name t t',
    get_module (modules s) num = Some modl
    ∧ get_course (courses s) (c_name c) = Some c
    ∧ module_assigned c = None
    ∧ can_accept modl c layer false (courses s) = true
    ∧ c' = set_assignment c num layer name
    ∧ get_teacher (teachers s) name = Some t
    ∧ assign_to t (c_name c) num = Ok (true, t')
    ∧ add_course modl c' layer false (set_course (courses s) c') = Ok modl'
    ∧ s' = {| teachers := set_teacher (teachers s) t';
               courses := set_course (courses s) c';
               modules := set_module (modules s) modl' |}.
Proof.
  destruct 1 as [num strict modl modl' c c' teachers' Hm Hc Hu Hacc Hassign
                   Hadd].
  apply assign_to_module_inv in Hassign
    as (name & t & t' & Hcan & _ & Ht & _ & Hto & -> & ->).
  apply can_be_assigned_true in Hcan as (Hnone & _).
  exists num, modl, modl', c, (set_assignment c num layer name), name, t, t'.
  split_and!; done.
Qed.

Lemma any_chain_set_course (cs : list Course) (c' : Course)
    (occupants : list string) :
  (∀ c, get_course cs (c_name c') = Some c →
        part_of_chain c' = part_of_chain c) →
  any_chain (set_course cs c') occupants = any_chain cs occupants.
Proof.
  intros Hsame. unfold any_chain. induction occupants as [|n ns IH];
    simpl; [done|].
  rewrite IH. f_equal. rewrite get_course_set. case_decide as Heq; [|done].
  subst n. destruct (get_course cs (c_name c')) as [c|] eqn:Hc; [|done].
  by apply Hsame.
Qed.

Lemma within_capacity_step (s : Scheduler) (num : Z) (modl modl' : ModuleSlot)
    (c c' : Course) (layer : Z) (fixed : bool) (cs' : list Course)
    (ts' : list Teacher) :
  modules_within_capacity s →
  get_module (modules s) num = Some modl →
  can_accept modl c layer fixed (courses s) = true →
  add_course modl c' layer fixed cs' = Ok modl' →
  modules_within_capacity
    {| teachers := ts'; courses := cs';
       modules := set_module (modules s) modl' |}.
Proof.
  intros Hinv Hm Hacc Hadd k m2 Hm2. simpl in Hm2.
  apply add_course_fields in Hadd as (Hn & Hcap & _ & Hcount & _).
  apply can_accept_room in Hacc as (Hroom & _).
  rewrite get_module_set in Hm2. case_decide as Heq; [|by eapply Hinv].
  destruct (get_module (modules s) k); [|done]. simplify_eq. lia.
Qed.

Lemma one_chain_step (s : Scheduler) (num : Z) (modl modl' : ModuleSlot)
    (c c' : Course) (layer : Z) (fixed : bool) (cs' : list Course)
    (ts' : list Teacher) :
  one_chain_per_layer s →
  get_module (modules s) num = Some modl →
  can_accept modl c layer fixed (courses s) = true →
  part_of_chain c' = part_of_chain c →
  add_course modl c' layer fixed cs' = Ok modl' →
  one_chain_per_layer
    {| teachers := ts'; courses := cs';
       modules := set_module (modules s) modl' |}.
Proof.
  intros Hinv Hm Hacc Hsame Hadd k m2 l Hm2. simpl in Hm2.
  apply add_course_fields in Hadd as (Hn & _ & _ & _ & _ & Hlayers).
  apply can_accept_room in Hacc as (_ & Hchain & _).
  rewrite get_module_set in Hm2. case_decide as Heq; [|by eapply Hinv].
  destruct (get_module (modules s) k); [|done]. simplify_eq.
  rewrite Hlayers, Hsame. pose proof (Hinv _ _ l Hm) as Hle.
  destruct (part_of_chain c) eqn:Hc; simpl; [|done].
  case_bool_decide; [|done]. subst l. destruct (Hchain eq_refl). lia.
Qed.

Lemma capacity_placement (layer : Z) (s s' : Scheduler)
    (us us' : list string) :
  modules_within_capacity s → placement layer s us s' us' →
  modules_within_capacity s'.
Proof.
  intros Hinv Hpl.
  apply placement_step in Hpl
    as (num & modl & modl' & c & c' & name & t & t' & Hm & Hc & Hnone
        & Hacc & -> & Ht & Hto & Hadd & ->).
  by eapply within_capacity_step.
Qed.

Lemma capacity_pass1_row (s s' : Scheduler) (row : string * Z * string) :
  modules_within_capacity s → pass1_row s row = Ok s' →
  modules_within_capacity s'.
Proof.
  destruct row as [[cn0 m] tn0]. intros Hinv Hrow.
  apply pass1_row_inv in Hrow
    as (module & course & teacher & teacher' & module' & Hm & Hc & Ht
        & Hnone & Hposs & Hacc & Hassign & Hadd & ->).
  by eapply within_capacity_step.
Qed.

Lemma one_chain_placement (layer : Z) (s s' : Scheduler)
    (us us' : list string) :
  one_chain_per_layer s → placement layer s us s' us' →
  one_chain_per_layer s'.
Proof.
  intros Hinv Hpl.
  apply placement_step in Hpl
    as (num & modl & modl' & c & c' & name & t & t' & Hm & Hc & Hnone
        & Hacc & -> & Ht & Hto & Hadd & ->).
  by eapply one_chain_step.
Qed.

Lemma one_chain_pass1_row (s s' : Scheduler) (row : string * Z * string) :
  one_chain_per_layer s → pass1_row s row = Ok s' →
  one_chain_per_layer s'.
Proof.
  destruct row as [[cn0 m] tn0]. intros Hinv Hrow.
  apply pass1_row_inv in Hrow
    as (module & course & teacher & teacher' & module' & Hm & Hc & Ht
        & Hnone & Hposs & Hacc & Hassign & Hadd & ->).
  by eapply one_chain_step.
Qed.

(** X14. Capacity is respected throughout: if no module holds more courses
    than its [max_capacity] before a pass, none does after Pass 1, after
    Pass 2 or after Pass 3. *)
Theorem modules_within_capacity_preserved (self : Scheduler) :
  modules_within_capacity self →
  (∀ rows n self',
     pass1_celebrity self rows = Ok (n, self') →
     modules_within_capacity self')
  ∧ (∀ max_layers n self',
       pass2_chains self max_layers = Ok (n, self') →
       modules_within_capacity self')
  ∧ (∀ n self',
       pass3_solitary self = Ok (n, self') → modules_within_capacity self').
Proof.
  intros Hinv. split_and!.
  - intros rows n self' H. unfold pass1_celebrity in H.
    eapply (pass1_loop_preserve modules_within_capacity);
      [|exact Hinv|exact H].
    intros a b row. apply capacity_pass1_row.
  - intros max_layers n self' H.
    apply pass2_chains_placements in H as (k & u' & Hk & _).
    eapply (placements_preserve modules_within_capacity);
      [|exact Hk|exact Hinv].
    intros layer s us s' us' _. apply capacity_placement.
  - intros n self' H.
    apply pass3_solitary_placements in H as (k & u' & Hk & _).
    eapply (placements_preserve modules_within_capacity);
      [|exact Hk|exact Hinv].
    intros layer s us s' us' _. apply capacity_placement.
Qed.

(** X15. One chain course per module and layer: if no module counts more
    than one chain course in any layer before a pass, none does after
    Pass 1, after Pass 2 or after Pass 3. *)
Theorem one_chain_per_layer_preserved (self : Scheduler) :
  one_chain_per_layer self →
  (∀ rows n self',
     pass1_celebrity self rows = Ok (n, self') → one_chain_per_layer self')
  ∧ (∀ max_layers n self',
       pass2_chains self max_layers = Ok (n, self') →
       one_chain_per_layer self')
  ∧ (∀ n self',
       pass3_solitary self = Ok (n, self') → one_chain_per_layer self').
Proof.
  intros Hinv. split_and!.
  - intros rows n self' H. unfold pass1_celebrity in H.
    eapply (pass1_loop_preserve one_chain_per_layer);
      [|exact Hinv|exact H].
    intros a b row. apply one_chain_pass1_row.
  - intros max_layers n self' H.
    apply pass2_chains_placements in H as (k & u' & Hk & _).
    eapply (placements_preserve one_chain_per_layer);
      [|exact Hk|exact Hinv].
    intros layer s us s' us' _. apply one_chain_placement.
  - intros n self' H.
    apply pass3_solitary_placements in H as (k & u' & Hk & _).
    eapply (placements_preserve one_chain_per_layer);
      [|exact Hk|exact Hinv].
    intros layer s us s' us' _. apply one_chain_placement.
Qed.

Lemma placement_booking (layer : Z) (s s' : Scheduler) (us us' : list string) :
  placement layer s us s' us' → booking_step s s'.
Proof.
  intros Hpl.
  apply placement_step in Hpl
    as (num & modl & modl' & c & c' & name & t & t' & Hm & Hc & Hnone
        & Hacc & -> & Ht & Hto & Hadd & ->).
  exists c, (set_assignment c num layer name), num, name, t, t'.
  split_and!; done.
Qed.

Lemma pass1_row_booking (s s' : Scheduler) (row : string * Z * string) :
  pass1_row s row = Ok s' → booking_step s s'.
Proof.
  destruct row as [[cn0 m] tn0]. intros Hrow.
  apply pass1_row_inv in Hrow
    as (module & course & teacher & teacher' & module' & Hm & Hc & Ht
        & Hnone & Hposs & Hacc & Hassign & Hadd & ->).
  pose proof (get_course_name _ _ _ Hc) as Hn.
  exists course, (set_celebrity course m (strip tn0)), m, (strip tn0),
    teacher, teacher'.
  rewrite Hn. split_and!; done.
Qed.

(** An invariant kept by every booking step is kept by the three passes. *)
Lemma passes_preserve (Inv : Scheduler → Prop) (self : Scheduler) :
  (∀ s s', Inv s → booking_step s s' → Inv s') →
  Inv self →
  (∀ rows n self', pass1_celebrity self rows = Ok (n, self') → Inv self')
  ∧ (∀ max_layers n self',
       pass2_chains self max_layers = Ok (n, self') → Inv self')
  ∧ (∀ n self', pass3_solitary self = Ok (n, self') → Inv self').
Proof.
  intros Hstep Hinv. split_and!.
  - intros rows n self' H. unfold pass1_celebrity in H.
    eapply (pass1_loop_preserve Inv); [|exact Hinv|exact H].
    intros a b row Ha Hrow. eapply Hstep; [exact Ha|].
    by eapply pass1_row_booking.
  - intros max_layers n self' H.
    apply pass2_chains_placements in H as (k & u' & Hk & _).
    eapply (placements_preserve Inv); [|exact Hk|exact Hinv].
    intros layer s us s' us' _ Hs Hpl. eapply Hstep; [exact Hs|].
    by eapply placement_booking.
  - intros n self' H.
    apply pass3_solitary_placements in H as (k & u' & Hk & _).
    eapply (placements_preserve Inv); [|exact Hk|exact Hinv].
    intros layer s us s' us' _ Hs Hpl. eapply Hstep; [exact Hs|].
    by eapply placement_booking.
Qed.

Lemma teachers_ok_step (s s' : Scheduler) :
  teachers_ok s → booking_step s s' → teachers_ok s'.
Proof.
  intros Hinv (c & c' & num & name & t & t' & Hc & Hnone & Hname & Hm & Htn
               & Ht & Hto & Hcs & Hts) n t2 Hn.
  rewrite Hts, get_teacher_set in Hn. case_decide as Heq; [|by eapply Hinv].
  destruct (get_teacher (teachers s) n); [|done]. simplify_eq.
  eapply assign_to_ok; [|exact Hto]. by eapply Hinv.
Qed.

(** X16. The bookkeeping of every teacher stays consistent through the
    passes: if for every teacher of the dict the modules taken are those of
    its bookings, no module is booked twice and [capacity_left] is
    [capacity_total] minus the number of bookings and not negative, then the
    same holds after Pass 1, after Pass 2 and after Pass 3. *)
Theorem teachers_ok_preserved (self : Scheduler) :
  teachers_ok self →
  (∀ rows n self',
     pass1_celebrity self rows = Ok (n, self') → teachers_ok self')
  ∧ (∀ max_layers n self',
       pass2_chains self max_layers = Ok (n, self') → teachers_ok self')
  ∧ (∀ n self', pass3_solitary self = Ok (n, self') → teachers_ok self').
Proof.
  intros Hinv. apply (passes_preserve teachers_ok); [|done].
  apply teachers_ok_step.
Qed.

Lemma bookings_match_step (s s' : Scheduler) :
  bookings_match s → booking_step s s' → bookings_match s'.
Proof.
  intros [Hfwd Hbwd] (c & c' & num & name & t & t' & Hc & Hnone & Hname & Hm
                      & Htn & Ht & Hto & Hcs & Hts).
  apply assign_to_true_inv in Hto as (_ & Htname & _ & Hteaches & _).
  pose proof (get_teacher_name _ _ _ Ht) as Hn.
  assert (Hnew : get_teacher (teachers s') name = Some t').
  { rewrite Hts, get_teacher_set, Htname, Hn, decide_True by done.
    by rewrite Ht. }
  assert (Hold : ∀ n c0 m0, get_course (courses s) n = Some c0 →
            module_assigned c0 = Some m0 →
            get_course (courses s') n = Some c0).
  { intros n c0 m0 Hg Hm0. rewrite Hcs, get_course_set, Hname.
    case_decide as Heq; [|done]. subst n. rewrite Hc in Hg. simplify_eq. }
  split.
  - intros n c2 m2 tn2 Hg Hm2 Htn2.
    rewrite Hcs, get_course_set, Hname in Hg. case_decide as Heq.
    + subst n. rewrite Hc in Hg. simplify_eq.
      exists t'. split; [done|]. rewrite Hteaches. set_solver.
    + destruct (Hfwd _ _ _ _ Hg Hm2 Htn2) as (t0 & Ht0 & Hin).
      destruct (decide (name = tn2)) as [<-|Hne].
      * rewrite Ht in Ht0. simplify_eq. exists t'. split; [done|].
        rewrite Hteaches. set_solver.
      * exists t0. split; [|done].
        rewrite Hts, get_teacher_set, Htname, Hn. by rewrite decide_False.
  - intros tn2 t2 n m2 Hg Hin.
    rewrite Hts, get_teacher_set, Htname, Hn in Hg. case_decide as Heq.
    + subst tn2. rewrite Ht in Hg. simplify_eq. rewrite Hteaches in Hin.
      apply elem_of_app in Hin as [Hin|Hin].
      * destruct (Hbwd _ _ _ _ Ht Hin) as (c0 & Hg0 & Hm0 & Ht0).
        exists c0. split_and!; try done. by eapply Hold.
      * apply list_elem_of_singleton in Hin. simplify_eq.
        exists c'. split_and!; try done.
        rewrite Hcs, get_course_set, Hname, decide_True by done.
        by rewrite Hc.
    + destruct (Hbwd _ _ _ _ Hg Hin) as (c0 & Hg0 & Hm0 & Ht0).
      exists c0. split_and!; try done. by eapply Hold.
Qed.

(** X17. The schedule and the teachers' bookings stay in step through the
    passes: if every course with a module and a teacher is booked by that
    teacher for that module, and every booking of a teacher is such a course,
    then the same holds after Pass 1, after Pass 2 and after Pass 3. *)
Theorem bookings_match_preserved (self : Scheduler) :
  bookings_match self →
  (∀ rows n self',
     pass1_celebrity self rows = Ok (n, self') → bookings_match self')
  ∧ (∀ max_layers n self',
       pass2_chains self max_layers = Ok (n, self') → bookings_match self')
  ∧ (∀ n self', pass3_solitary self = Ok (n, self') → bookings_match self').
Proof.
  intros Hinv. apply (passes_preserve bookings_match); [|done].
  apply bookings_match_step.
Qed.

Lemma assigned_stay_step (s0 s s' : Scheduler) :
  assigned_stay s0 s → booking_step s s' → assigned_stay s0 s'.
Proof.
  intros Hinv (c & c' & num & name & t & t' & Hc & Hnone & Hname & Hm & Htn
               & Ht & Hto & Hcs & Hts) n c0 Hg Hsome.
  pose proof (Hinv n c0 Hg Hsome) as Hg'.
  rewrite Hcs, get_course_set, Hname. case_decide as Heq; [|done].
  subst n. rewrite Hc in Hg'. simplify_eq. rewrite Hnone in Hsome.
  by destruct Hsome.
Qed.

(** X18. An assignment is final: a course that has a module keeps its
    module, layer, teacher and every other field through Pass 1, through
    Pass 2 and through Pass 3. *)
Theorem assigned_courses_stay (self : Scheduler) :
  (∀ rows n self',
     pass1_celebrity self rows = Ok (n, self') → assigned_stay self self')
  ∧ (∀ max_layers n self',
       pass2_chains self max_layers = Ok (n, self') →
       assigned_stay self self')
  ∧ (∀ n self',
       pass3_solitary self = Ok (n, self') → assigned_stay self self').
Proof.
  apply (passes_preserve (assigned_stay self)).
  - apply assigned_stay_step.
  - by intros n c Hg _.
Qed.

(** ** What Pass 2 and Pass 3 change *)

Lemma is_ready_true (self : Scheduler) (c : Course) (layer : Z) :
  is_ready self c layer = Ok true →
  part_of_chain c = true ∧ module_assigned c = None ∧ min_layer c ≤ layer.
Proof.
  unfold is_ready. destruct (part_of_chain c); simpl; [|done].
  case_bool_decide as Ha; [done|].
  destruct (Z.ltb_spec layer (min_layer c)); [done|]. intros _.
  split_and!; [done| |lia].
  destruct (module_assigned c); [|done]. by destruct Ha.
Qed.

Lemma pass2_candidates_ready (self : Scheduler) (u : list string)
    (m layer : Z) (strict : bool) (cands : list candidate2) (x : candidate2) :
  pass2_candidates self u m layer strict = Ok cands → x ∈ cands →
  is_ready self x.2 layer = Ok true.
Proof.
  revert cands. induction u as [|n u IH]; intros cands H Hx; simpl in H.
  - simplify_eq. by apply elem_of_nil in Hx.
  - destruct (get_course (courses self) n) as [course|] eqn:Hc; [|done].
    inv_bind H. destruct x0; simpl in H; [|by eapply IH].
    inv_bind H. destruct x0; simpl in H; [|by eapply IH].
    inv_bind H. inv_bind H. inv_bind H. simplify_eq.
    apply elem_of_cons in Hx as [->|Hx]; [done|by eapply IH].
Qed.

(** One pass of the body of the module loop of Pass 2 either changes nothing
    or places a ready chain course in a module without celebrity course. *)
Lemma pass2_module_facts (layer : Z) (strict : bool) (s s' : p2) (m : Z) :
  pass2_module layer strict s m = Ok s' →
  s' = s
  ∨ ∃ modl modl' c name t t',
      get_module (modules (p2_self s)) m = Some modl
      ∧ has_celebrity_course modl = false
      ∧ get_course (courses (p2_self s)) (c_name c) = Some c
      ∧ part_of_chain c = true
      ∧ module_assigned c = None
      ∧ min_layer c ≤ layer
      ∧ name ∈ possible_teachers c
      ∧ get_teacher (teachers (p2_self s)) name = Some t
      ∧ assign_to t (c_name c) m = Ok (true, t')
      ∧ add_course modl (set_assignment c m layer name) layer false
          (set_course (courses (p2_self s)) (set_assignment c m layer name))
        = Ok modl'
      ∧ p2_self s' =
          {| teachers := set_teacher (teachers (p2_self s)) t';
             courses := set_course (courses (p2_self s))
                          (set_assignment c m layer name);
             modules := set_module (modules (p2_self s)) modl' |}.
Proof.
  unfold pass2_module. intros H.
  destruct (get_module (modules (p2_self s)) m) as [modl|] eqn:Hm; [|done].
  destruct (has_celebrity_course modl) eqn:Hceleb; [left; by simplify_eq|].
  destruct (chain_count_in_layer modl layer >=? 1);
    [left; by simplify_eq|].
  inv_bind H. rename x into cands.
  destruct (py_sort candidate2_lt cands) as [|[[[mc nl] nm] chosen] tl]
    eqn:Hsort; [left; by simplify_eq|].
  apply py_sort_head in Hsort.
  destruct (pass2_candidates_elem _ _ _ _ _ _ _ Hx Hsort) as (Hu & Hget & _).
  apply (pass2_candidates_ready _ _ _ _ _ _ _ Hx) in Hsort.
  simpl in Hu, Hget, Hsort.
  apply is_ready_true in Hsort as (Hchain & Hnone & Hmin).
  inv_bind H. destruct x as [[ok chosen'] teachers'].
  destruct ok; [|done]. cbn [negb] in H. inv_bind H. simplify_eq.
  apply assign_to_module_inv in Hx0
    as (name & t & t' & _ & Hin & Ht & _ & Hto & -> & ->).
  right. exists modl, x, chosen, name, t, t'. simpl. split_and!; done.
Qed.

Lemma pass2_sweep_ind (R : Scheduler → Prop) (layer : Z) (strict : bool)
    (ms : list Z) (s s' : p2) :
  (∀ a b m, m ∈ ms → R (p2_self a) →
     pass2_module layer strict a m = Ok b → R (p2_self b)) →
  R (p2_self s) → pass2_sweep layer strict s ms = Ok s' → R (p2_self s').
Proof.
  revert s. induction ms as [|m ms IH]; intros s Hstep Hs H; simpl in H.
  - by simplify_eq.
  - inv_bind H. eapply IH; [|eapply Hstep; [by left|exact Hs|exact Hx]|done].
    intros a b m' Hm'. apply Hstep. by right.
Qed.

Lemma pass2_phases_ind (R : Scheduler → Prop) (layer : Z) (flags : list bool)
    (s r : p2_layer) :
  (∀ strict a b m, m ∈ module_range → R (p2_self a) →
     pass2_module layer strict a m = Ok b → R (p2_self b)) →
  R (pl_self s) → pass2_phases layer s flags = Ok r → R (pl_self r).
Proof.
  intros Hstep. revert s.
  induction flags as [|strict flags IH]; intros s Hs H.
  - simpl in H. by simplify_eq.
  - rewrite pass2_phases_cons in H. inv_bind H.
    apply (pass2_sweep_ind R) in Hx; [|by apply Hstep|done].
    destruct (p2_progress_phase x >? 0); [by simplify_eq|].
    eapply IH; [|exact H]. done.
Qed.

Lemma pass2_while_ind (R : Scheduler → Prop) (lo max_layers : Z) (fuel : nat)
    (self self' : Scheduler) (u : list string) (total layer n : Z) :
  (∀ layer strict a b m, lo ≤ layer ≤ max_layers → m ∈ module_range →
     R (p2_self a) → pass2_module layer strict a m = Ok b → R (p2_self b)) →
  lo ≤ layer → R self →
  pass2_while fuel self u total layer max_layers = Ok (n, self') → R self'.
Proof.
  intros Hstep. revert self u total layer.
  induction fuel as [|fuel IH]; intros self u total layer Hlo Hs H;
    simpl in H.
  - destruct u; [|destruct (layer >? max_layers); [|done]]; by simplify_eq.
  - destruct u as [|n0 u]; [by simplify_eq|].
    destruct (Z.gtb_spec layer max_layers); [by simplify_eq|].
    inv_bind H. unfold pass2_layer_iteration in Hx.
    apply (pass2_phases_ind R) in Hx; [| |done].
    + eapply IH; [|exact Hx|exact H].
      destruct (pl_progress_this_layer x =? 0); lia.
    + intros strict a b m. apply Hstep. lia.
Qed.

Lemma pass2_chains_ind (R : Scheduler → Prop) (self self' : Scheduler)
    (max_layers n : Z) :
  (∀ layer strict a b m, 0 ≤ layer ≤ max_layers → m ∈ module_range →
     R (p2_self a) → pass2_module layer strict a m = Ok b → R (p2_self b)) →
  R self → pass2_chains self max_layers = Ok (n, self') → R self'.
Proof.
  intros Hstep Hs H. unfold pass2_chains in H.
  eapply (pass2_while_ind R 0); [exact Hstep| |exact Hs|exact H]. lia.
Qed.

Lemma module_range_bounds (m : Z) : m ∈ module_range → 1 ≤ m ≤ 14.
Proof. unfold module_range. rewrite elem_of_seqZ. lia. Qed.

(** X19. What Pass 2 changes.  Every course is still in the dict after
    Pass 2, and it is either unchanged or it was an unassigned chain course
    that now has a module in 1..14, a layer between 0 and [max_layers] and
    not below its [min_layer], and one of its possible teachers; nothing else
    of the course changes.  In particular courses outside chains and courses
    already placed are untouched.  Modules with a celebrity course are
    untouched as well. *)
Theorem pass2_changes (self self' : Scheduler) (max_layers n : Z) :
  pass2_chains self max_layers = Ok (n, self') →
  courses_evolve (placed_by_pass2 max_layers) self self'
  ∧ celebrity_modules_stay self self'.
Proof.
  intros H.
  apply (pass2_chains_ind
           (fun s => courses_evolve (placed_by_pass2 max_layers) self s
                     ∧ celebrity_modules_stay self s)) in H; [done| |].
  - intros layer strict a b m Hlayer Hm [Hev Hst] Hmod.
    apply pass2_module_facts in Hmod
      as [->|(modl & modl' & c & name & t & t' & Hgm & Hflag & Hgc & Hchain
              & Hnone & Hmin & Hin & Ht & Hto & Hadd & ->)]; [done|].
    apply module_range_bounds in Hm. split.
    + intros nm c0 Hg0. destruct (Hev nm c0 Hg0) as (c1 & Hg1 & Hor).
      simpl. rewrite get_course_set. simpl.
      case_decide as Heq; [|by exists c1].
      subst nm. rewrite Hgc in Hg1. simplify_eq. rewrite Hgc.
      eexists. split; [done|]. right.
      destruct Hor as [->|(_ & _ & m1 & l1 & t1 & _ & _ & _ & _ & ->)];
        [|done].
      split_and!; try done. exists m, layer, name. split_and!; try done; lia.
    + intros num m0 Hg0 Hf0. pose proof (Hst num m0 Hg0 Hf0) as Hg1.
      simpl. rewrite get_module_set. case_decide as Heq; [|done].
      apply add_course_inv in Hadd as (Hnum & _).
      pose proof (get_module_number _ _ _ Hgm) as Hmn.
      rewrite Hnum, Hmn in Heq. subst num. rewrite Hgm in Hg1.
      simplify_eq. congruence.
  - split.
    + intros nm c0 Hg0. exists c0. split; [done|by left].
    + by intros num m0 Hg0 _.
Qed.

Lemma placement_step_full (layer : Z) (s s' : Scheduler)
    (us us' : list string) :
  placement layer s us s' us' →
  ∃ num c name,
    get_course (courses s) (c_name c) = Some c
    ∧ module_assigned c = None
    ∧ min_layer c ≤ layer
    ∧ name ∈ possible_teachers c
    ∧ is_Some (get_module (modules s) num)
    ∧ courses s' = set_course (courses s) (set_assignment c num layer name).
Proof.
  destruct 1 as [num strict modl modl' c c' teachers' Hm Hc Hu Hacc Hassign
                   Hadd].
  apply assign_to_module_inv in Hassign
    as (name & t & t' & Hcan & Hin & Ht & _ & Hto & -> & ->).
  apply can_be_assigned_true in Hcan as (Hnone & Hmin & _).
  exists num, c, name. split_and!; done.
Qed.

(** X20. What Pass 3 changes.  Every course is still in the dict after
    Pass 3, and it is either unchanged or it was an unassigned course whose
    [min_layer] allows layer 0 and that now has a module, layer 0 and one of
    its possible teachers; nothing else of the course changes. *)
Theorem pass3_changes (self self' : Scheduler) (n : Z) :
  pass3_solitary self = Ok (n, self') →
  courses_evolve placed_by_pass3 self self'.
Proof.
  intros H. apply pass3_solitary_placements in H as (k & u' & Hk & _).
  eapply (placements_preserve (courses_evolve placed_by_pass3 self));
    [|exact Hk|].
  - intros layer s us s' us' <- Hev Hpl.
    apply placement_step_full in Hpl
      as (num & c & name & Hgc & Hnone & Hmin & Hin & _ & Hcs).
    intros nm c0 Hg0. destruct (Hev nm c0 Hg0) as (c1 & Hg1 & Hor).
    rewrite Hcs, get_course_set. simpl.
    case_decide as Heq; [|by exists c1].
    subst nm. rewrite Hgc in Hg1. simplify_eq. rewrite Hgc.
    eexists. split; [done|]. right.
    destruct Hor as [->|(_ & _ & m1 & t1 & _ & ->)]; [|done].
    split_and!; try done. by exists num, name.
  - intros nm c0 Hg0. exists c0. split; [done|by left].
Qed.

Lemma pass3_changes_witness :
  ∃ n self',
    pass3_solitary chain_scenario = Ok (n, self')
    ∧ courses_evolve placed_by_pass3 chain_scenario self'.
Proof.
  eexists _, _. split; [vm_compute; reflexivity|].
  eapply (pass3_changes chain_scenario). vm_compute. reflexivity.
Defined.

Lemma pass2_changes_witness :
  ∃ n self',
    pass2_chains chain_scenario 2 = Ok (n, self')
    ∧ courses_evolve (placed_by_pass2 2) chain_scenario self'
    ∧ celebrity_modules_stay chain_scenario self'.
Proof.
  eexists _, _. split; [vm_compute; reflexivity|].
  eapply (pass2_changes chain_scenario). vm_compute. reflexivity.
Defined.

(** ** Pass 1 *)

Lemma pass1_row_honoured (s s1 : Scheduler) (row : string * Z * string) :
  pass1_row s row = Ok s1 → row_honoured s s1 row.
Proof.
  destruct row as [[cn0 m] tn0]. intros Hrow.
  apply pass1_row_inv in Hrow
    as (module & course & teacher & teacher' & module' & Hm & Hc & Ht
        & Hnone & Hposs & Hacc & Hassign & Hadd & ->).
  pose proof (get_course_name _ _ _ Hc) as Hn.
  pose proof (get_module_number _ _ _ Hm) as Hmn.
  apply can_accept_room in Hacc as (_ & _ & Hfixed).
  destruct (Hfixed eq_refl) as [Hflag _].
  apply add_course_fields in Hadd as (Hnum & _ & Hocc & _ & Hf' & _).
  simpl in Hocc. rewrite Hn in Hocc.
  exists course, module, module'. simpl. split_and!; try done.
  - rewrite get_course_set. simpl. rewrite Hn, decide_True by done.
    by rewrite Hc.
  - rewrite get_module_set, Hnum, Hmn, decide_True by done. by rewrite Hm.
Qed.

Lemma celebrity_stay_pass1_row (s0 a b : Scheduler)
    (row : string * Z * string) :
  celebrity_modules_stay s0 a → pass1_row a row = Ok b →
  celebrity_modules_stay s0 b.
Proof.
  intros Hst Hrow num modl Hg Hf. pose proof (Hst _ _ Hg Hf) as Hga.
  destruct row as [[cn0 m] tn0].
  apply pass1_row_inv in Hrow
    as (module & course & teacher & teacher' & module' & Hm & Hc & Ht
        & Hnone & Hposs & Hacc & Hassign & Hadd & ->).
  apply can_accept_room in Hacc as (_ & _ & Hfixed).
  destruct (Hfixed eq_refl) as [Hflag _].
  apply add_course_fields in Hadd as (Hnum & _).
  pose proof (get_module_number _ _ _ Hm) as Hmn.
  simpl. rewrite get_module_set, Hnum, Hmn. case_decide as Heq; [|done].
  subst num. rewrite Hm in Hga. simplify_eq. congruence.
Qed.

Lemma pass1_loop_facts (rows : list (string * Z * string)) (s s' : Scheduler)
    (k n : Z) :
  pass1_loop s rows k = Ok (n, s') →
  n = k + Z.of_nat (List.length rows)
  ∧ Forall (row_honoured s s') rows
  ∧ NoDup (row_course <$> rows)
  ∧ NoDup (row_module <$> rows).
Proof.
  revert s k. induction rows as [|row rows IH]; intros s k H; simpl in H.
  - simplify_eq. simpl. split_and!; [lia|constructor..].
  - inv_bind H. rename x into s1.
    destruct (IH _ _ H) as (Hn & Hall & Hnd1 & Hnd2).
    assert (Hstay : assigned_stay s1 s').
    { eapply (pass1_loop_preserve (assigned_stay s1)); [| |exact H].
      - intros a b r Ha Hr. eapply assigned_stay_step; [exact Ha|].
        by eapply pass1_row_booking.
      - by intros nm c Hg _. }
    assert (Hmstay : celebrity_modules_stay s1 s').
    { eapply (pass1_loop_preserve (celebrity_modules_stay s1)); [| |exact H].
      - intros a b r. apply celebrity_stay_pass1_row.
      - by intros num modl Hg _. }
    pose proof (pass1_row_honoured _ _ _ Hx) as Hhead.
    destruct row as [[cn0 m] tn0].
    destruct Hhead as (c & modl & modl' & Hgc & Hnone & Hposs & Hgm & Hflag
                       & Hgc1 & Hgm1 & Hflag1 & Hocc1).
    apply pass1_row_inv in Hx
      as (module & course & teacher & teacher' & module' & Hm & Hc & Ht
          & _ & _ & _ & _ & Hadd & Hs1).
    rewrite Hgc in Hc. rewrite Hgm in Hm.
    injection Hc as <-. injection Hm as <-.
    apply add_course_fields in Hadd as (Hnum & _).
    pose proof (get_course_name _ _ _ Hgc) as Hcn.
    pose proof (get_module_number _ _ _ Hgm) as Hmn.
    (* a later row names another course and another module *)
    assert (Hlater : ∀ r, r ∈ rows → row_honoured s1 s' r →
              row_course r ≠ strip cn0 ∧ row_module r ≠ m
              ∧ row_honoured s s' r).
    { intros [[cn2 m2] tn2] Hr (c2 & modl2 & modl2' & Hgc2 & Hnone2 & Hposs2
                                 & Hgm2 & Hflag2 & Hrest).
      assert (strip cn2 ≠ strip cn0) as Hne1.
      { intros Heq. rewrite Heq, Hgc1 in Hgc2. by simplify_eq. }
      assert (m2 ≠ m) as Hne2.
      { intros ->. rewrite Hgm1 in Hgm2. simplify_eq. congruence. }
      split_and!; try done.
      exists c2, modl2, modl2'. split_and!; try done; try apply Hrest.
      - rewrite Hs1 in Hgc2. simpl in Hgc2.
        rewrite get_course_set in Hgc2. simpl in Hgc2.
        rewrite Hcn, decide_False in Hgc2 by done. done.
      - rewrite Hs1 in Hgm2. simpl in Hgm2.
        rewrite get_module_set, Hnum, Hmn, decide_False in Hgm2 by done.
        done. }
    rewrite Forall_forall in Hall. split_and!.
    + simpl. lia.
    + constructor.
      * exists c, modl, modl'. split_and!; try done.
        -- apply Hstay; [done|]. simpl. by eexists.
        -- by apply Hmstay.
      * apply Forall_forall. intros r Hr. by apply Hlater, Hall.
    + simpl. constructor; [|done].
      intros (r & Heq & Hr)%list_elem_of_fmap.
      destruct (Hlater r Hr (Hall r Hr)) as (Hne & _). by symmetry in Heq.
    + simpl. constructor; [|done].
      intros (r & Heq & Hr)%list_elem_of_fmap.
      destruct (Hlater r Hr (Hall r Hr)) as (_ & Hne & _). by symmetry in Heq.
Qed.

(** X21. Pass 1 honours every row it is given.  When it returns, the count
    is the number of rows, and for each row (course, module, teacher): the
    course had no module before the pass and lists the teacher as possible,
    the module had no celebrity course; after the pass the course has exactly
    that module and teacher and the celebrity mark, with its layer left as it
    was, and the module holds the celebrity flag and the course as an
    occupant. *)
Theorem pass1_rows_honoured (self self' : Scheduler)
    (rows : list (string * Z * string)) (n : Z) :
  pass1_celebrity self rows = Ok (n, self') →
  n = Z.of_nat (List.length rows)
  ∧ Forall (row_honoured self self') rows.
Proof.
  intros H. apply pass1_loop_facts in H as (Hn & Hall & _). split; [lia|done].
Qed.

Lemma pass1_rows_honoured_witness :
  ∃ n self',
    pass1_celebrity chain_scenario [("A", 5, "Bea"); ("C", 6, "Bea")]
    = Ok (n, self')
    ∧ n = Z.of_nat (List.length [("A", 5, "Bea"); ("C", 6, "Bea")])
    ∧ Forall (row_honoured chain_scenario self')
        [("A", 5, "Bea"); ("C", 6, "Bea")].
Proof.
  eexists _, _. split; [vm_compute; reflexivity|].
  eapply (pass1_rows_honoured chain_scenario). vm_compute. reflexivity.
Defined.

(** X22. Pass 1 accepts no course and no module twice: when it returns, the
    rows name pairwise different courses (after stripping) and pairwise
    different modules.  A list of rows that repeats a course or a module makes
    Pass 1 raise. *)
Theorem pass1_rows_distinct (self self' : Scheduler)
    (rows : list (string * Z * string)) (n : Z) :
  pass1_celebrity self rows = Ok (n, self') →
  NoDup (row_course <$> rows) ∧ NoDup (row_module <$> rows).
Proof.
  intros H. by apply pass1_loop_facts in H as (_ & _ & Hnd1 & Hnd2).
Qed.

Lemma pass1_rows_distinct_witness :
  ∃ n self',
    pass1_celebrity chain_scenario [("A", 5, "Bea"); ("C", 6, "Bea")]
    = Ok (n, self')
    ∧ NoDup (row_course <$> [("A", 5, "Bea"); ("C", 6, "Bea")])
    ∧ NoDup (row_module <$> [("A", 5, "Bea"); ("C", 6, "Bea")]).
Proof.
  eexists _, _. split; [vm_compute; reflexivity|].
  eapply (pass1_rows_distinct chain_scenario). vm_compute. reflexivity.
Defined.

(** ** The counts the passes return *)

Lemma set_course_names (cs : list Course) (c' : Course) :
  c_name <$> set_course cs c' = c_name <$> cs.
Proof.
  unfold set_course, store_set. rewrite <- list_fmap_compose.
  apply list_fmap_ext. intros i x _. simpl. by case_bool_decide.
Qed.

Lemma set_course_fresh (cs : list Course) (c' : Course) :
  c_name c' ∉ c_name <$> cs → set_course cs c' = cs.
Proof.
  induction cs as [|x cs IH]; [done|]. intros Hnot.
  unfold set_course in *. rewrite (store_set_cons c_name).
  rewrite decide_False by set_solver. f_equal. apply IH. set_solver.
Qed.

Lemma set_course_count (cs : list Course) (c c' : Course) :
  NoDup (c_name <$> cs) →
  get_course cs (c_name c) = Some c →
  module_assigned c = None →
  c_name c' = c_name c →
  is_Some (module_assigned c') →
  List.length (filter (fun c => is_Some (module_assigned c))
                 (set_course cs c'))
  = S (List.length (filter (fun c => is_Some (module_assigned c)) cs)).
Proof.
  intros Hnd Hget Hnone Hname Hsome.
  induction cs as [|x cs IH]; [done|].
  rewrite fmap_cons in Hnd. apply NoDup_cons in Hnd as [Hnotin Hnd].
  unfold get_course, set_course in *.
  rewrite (store_get_cons c_name) in Hget.
  rewrite (store_set_cons c_name), Hname.
  case_decide as Heq.
  - injection Hget as ->. fold (set_course cs c').
    rewrite set_course_fresh by (by rewrite Hname).
    rewrite filter_cons_True by done.
    rewrite filter_cons_False; [done|]. rewrite Hnone. by intros [? ?].
  - rewrite !filter_cons. specialize (IH Hnd Hget).
    destruct (decide (is_Some (module_assigned x))); simpl; by rewrite IH.
Qed.

Lemma booking_step_count (s s' : Scheduler) :
  course_names_distinct s → booking_step s s' →
  course_names_distinct s' ∧ assigned_count s' = S (assigned_count s).
Proof.
  intros Hnd (c & c' & num & name & t & t' & Hc & Hnone & Hname & Hm & Htn
              & Ht & Hto & Hcs & Hts).
  unfold course_names_distinct, assigned_count. rewrite Hcs. split.
  - by rewrite set_course_names.
  - apply (set_course_count _ c); try done; rewrite Hm; by eexists.
Qed.

Lemma placements_count (P : Z → Prop) (n : nat) (s s' : Scheduler)
    (us us' : list string) :
  placements P n s us s' us' → course_names_distinct s →
  course_names_distinct s' ∧ assigned_count s' = (assigned_count s + n)%nat.
Proof.
  induction 1 as [|n layer s s1 s2 u u1 u2 HP Hstep Hrest IH]; intros Hnd.
  - split; [done|lia].
  - apply placement_booking in Hstep.
    destruct (booking_step_count _ _ Hnd Hstep) as [Hnd1 Hc1].
    destruct (IH Hnd1) as [Hnd2 Hc2]. split; [done|lia].
Qed.

Lemma pass1_loop_count (rows : list (string * Z * string)) (s s' : Scheduler)
    (k n : Z) :
  pass1_loop s rows k = Ok (n, s') → course_names_distinct s →
  course_names_distinct s'
  ∧ assigned_count s' = (assigned_count s + List.length rows)%nat.
Proof.
  revert s k. induction rows as [|row rows IH]; intros s k H Hnd; simpl in H.
  - simplify_eq. split; [done|simpl; lia].
  - inv_bind H. apply pass1_row_booking in Hx.
    destruct (booking_step_count _ _ Hnd Hx) as [Hnd1 Hc1].
    destruct (IH _ _ H Hnd1) as [Hnd2 Hc2]. split; [done|simpl; lia].
Qed.

(** X23. The count each pass returns is exactly the number of courses it
    assigned: with pairwise different course names, the number of courses
    that have a module after the pass is the number before the pass plus the
    returned count, for Pass 1, Pass 2 and Pass 3; and the names stay
    pairwise different. *)
Theorem returned_counts_are_exact (self : Scheduler) :
  course_names_distinct self →
  (∀ rows n self',
     pass1_celebrity self rows = Ok (n, self') →
     course_names_distinct self'
     ∧ Z.of_nat (assigned_count self') = Z.of_nat (assigned_count self) + n)
  ∧ (∀ max_layers n self',
       pass2_chains self max_layers = Ok (n, self') →
       course_names_distinct self'
       ∧ Z.of_nat (assigned_count self') = Z.of_nat (assigned_count self) + n)
  ∧ (∀ n self',
       pass3_solitary self = Ok (n, self') →
       course_names_distinct self'
       ∧ Z.of_nat (assigned_count self') = Z.of_nat (assigned_count self) + n).
Proof.
  intros Hnd. split_and!.
  - intros rows n self' H. unfold pass1_celebrity in H.
    pose proof (pass1_loop_facts _ _ _ _ _ H) as (Hn & _).
    destruct (pass1_loop_count _ _ _ _ _ H Hnd) as [Hnd' Hc].
    split; [done|lia].
  - intros max_layers n self' H.
    apply pass2_chains_placements in H as (k & u' & Hk & ->).
    destruct (placements_count _ _ _ _ _ _ Hk Hnd) as [Hnd' Hc].
    split; [done|lia].
  - intros n self' H.
    apply pass3_solitary_placements in H as (k & u' & Hk & ->).
    destruct (placements_count _ _ _ _ _ _ Hk Hnd) as [Hnd' Hc].
    split; [done|lia].
Qed.

(** ** The loops stop *)

Lemma pass2_while_S (fuel : nat) (self : Scheduler) (u : list string)
    (total layer max_layers : Z) :
  pass2_while (S fuel) self u total layer max_layers =
    match u with
    | [] => Ok (total, self)
    | _ :: _ =>
        if layer >? max_layers then Ok (total, self)
        else
          r ← pass2_layer_iteration self u total layer;
          pass2_while fuel (pl_self r) (pl_unassigned r) (pl_assigned_total r)
            (if pl_progress_this_layer r =? 0 then layer + 1 else layer)
            max_layers
    end.
Proof. by destruct u. Qed.

Lemma pass2_while_more_fuel (fuel : nat) (self : Scheduler) (u : list string)
    (total layer max_layers : Z) :
  pass2_while fuel self u total layer max_layers ≠ OutOfFuel →
  pass2_while (S fuel) self u total layer max_layers
  = pass2_while fuel self u total layer max_layers.
Proof.
  revert self u total layer.
  induction fuel as [|fuel IH]; intros self u total layer H.
  - rewrite pass2_while_S. simpl in *. destruct u; [done|].
    by destruct (layer >? max_layers).
  - rewrite (pass2_while_S (S fuel)). rewrite pass2_while_S in H.
    rewrite (pass2_while_S fuel).
    destruct u; [done|]. destruct (layer >? max_layers); [done|].
    destruct (pass2_layer_iteration self (s :: u) total layer) as [r|e|];
      simpl in *; try done.
    by apply IH.
Qed.

(** X24. Pass 2 stops: its [while] loop runs at most
    [len(unassigned) + max_layers + 1] times.  Running it with that many
    iterations allowed never exhausts them, and allowing more gives the same
    result. *)
Theorem pass2_loop_bound (self : Scheduler) (max_layers : Z) (fuel : nat) :
  (pass2_fuel (chain_unassigned self) max_layers ≤ fuel)%nat →
  pass2_while fuel self (chain_unassigned self) 0 0 max_layers
  = pass2_chains self max_layers
  ∧ pass2_chains self max_layers ≠ OutOfFuel.
Proof.
  intros Hfuel. split; [|apply pass2_chains_terminates].
  unfold pass2_chains.
  induction Hfuel as [|fuel Hle IH]; [done|].
  rewrite pass2_while_more_fuel; [done|].
  rewrite IH. apply pass2_chains_terminates.
Qed.

Lemma pass2_loop_bound_witness :
  (pass2_fuel (chain_unassigned chain_scenario) 2 ≤ 9)%nat
  ∧ pass2_while 9 chain_scenario (chain_unassigned chain_scenario) 0 0 2
    = pass2_chains chain_scenario 2
  ∧ pass2_chains chain_scenario 2 ≠ OutOfFuel.
Proof.
  assert (H : (pass2_fuel (chain_unassigned chain_scenario) 2 ≤ 9)%nat)
    by (vm_compute; lia).
  split; [exact H|].
  exact (pass2_loop_bound chain_scenario 2 9 H).
Defined.

Lemma pass3_while_S (fuel : nat) (strict : bool) (s : p3) :
  pass3_while (S fuel) strict s =
    match p3_unassigned s with
    | [] => Ok s
    | _ :: _ =>
        r ← pass3_sweep strict
              (mkP3 (p3_self s) (p3_unassigned s) (p3_assigned_total s) 0)
              (module_nums (p3_self s));
        if p3_progress r =? 0 then Ok r else pass3_while fuel strict r
    end.
Proof. reflexivity. Qed.

Lemma pass3_while_more_fuel (fuel : nat) (strict : bool) (s : p3) :
  pass3_while fuel strict s ≠ OutOfFuel →
  pass3_while (S fuel) strict s = pass3_while fuel strict s.
Proof.
  revert s. induction fuel as [|fuel IH]; intros s H.
  - rewrite pass3_while_S. simpl in *. by destruct (p3_unassigned s).
  - rewrite (pass3_while_S (S fuel)). rewrite pass3_while_S in H.
    rewrite (pass3_while_S fuel).
    destruct (p3_unassigned s); [done|].
    destruct (pass3_sweep strict _ _) as [r|e|]; simpl in *; try done.
    destruct (p3_progress r =? 0); [done|]. by apply IH.
Qed.

(** X25. Pass 3 stops: in each of its two phases the [while] loop runs at
    most [len(unassigned) + 1] times.  Allowing more iterations gives the same
    result, and the pass as a whole always returns or raises. *)
Theorem pass3_loop_bound (strict : bool) (s : p3) (fuel : nat) :
  (List.length (p3_unassigned s) < fuel)%nat →
  pass3_while fuel strict s
  = pass3_while (S (List.length (p3_unassigned s))) strict s
  ∧ pass3_while fuel strict s ≠ OutOfFuel
  ∧ pass3_solitary (p3_self s) ≠ OutOfFuel.
Proof.
  intros Hfuel. split_and!.
  - induction Hfuel as [|fuel Hle IH]; [done|].
    rewrite pass3_while_more_fuel; [done|]. apply pass3_while_fuel. lia.
  - by apply pass3_while_fuel.
  - apply pass3_solitary_terminates.
Qed.

Lemma pass3_loop_bound_witness :
  (List.length (p3_unassigned
                  (mkP3 chain_scenario (all_unassigned chain_scenario) 0 0))
   < 7)%nat
  ∧ pass3_while 7 true
      (mkP3 chain_scenario (all_unassigned chain_scenario) 0 0)
    = pass3_while
        (S (List.length
              (p3_unassigned
                 (mkP3 chain_scenario (all_unassigned chain_scenario) 0 0))))
        true (mkP3 chain_scenario (all_unassigned chain_scenario) 0 0)
  ∧ pass3_while 7 true
      (mkP3 chain_scenario (all_unassigned chain_scenario) 0 0)
    ≠ OutOfFuel
  ∧ pass3_solitary
      (p3_self (mkP3 chain_scenario (all_unassigned chain_scenario) 0 0))
    ≠ OutOfFuel.
Proof.
  assert (H : (List.length
                 (p3_unassigned
                    (mkP3 chain_scenario (all_unassigned chain_scenario) 0 0))
               < 7)%nat) by (vm_compute; lia).
  split; [exact H|].
  exact (pass3_loop_bound true
           (mkP3 chain_scenario (all_unassigned chain_scenario) 0 0) 7 H).
Defined.

(** ** The exported rows *)

Lemma insert_sorted_length {A : Type} (lt : A → A → bool) (x : A)
    (l : list A) :
  List.length (insert_sorted lt x l) = S (List.length l).
Proof.
  induction l as [|y l IH]; simpl; [done|].
  destruct (lt y x); simpl; by rewrite ?IH.
Qed.

Lemma py_sort_length {A : Type} (lt : A → A → bool) (l : list A) :
  List.length (py_sort lt l) = List.length l.
Proof.
  induction l as [|x l IH]; simpl; [done|].
  by rewrite insert_sorted_length, IH.
Qed.

Lemma schedule_rows_loop_spec (self : Scheduler) (cs : list Course)
    (rows : list schedule_row) :
  schedule_rows_loop self cs = Ok rows →
  List.length rows
  = List.length (filter (fun c => is_Some (module_assigned c)) cs)
  ∧ (∀ r, r ∈ rows →
       ∃ c, c ∈ cs ∧ module_assigned c = Some r.1.1.1
         ∧ c_name c = r.1.1.2
         ∧ default "" (teacher_assigned c) = r.1.2)
  ∧ ∃ soft,
      soft_rows_loop self cs = Ok soft
      ∧ ∀ m n t, (m, n, t) ∈ soft → (m, n, t, needs_confirmation) ∈ rows.
Proof.
  revert rows. induction cs as [|c cs IH]; intros rows H; simpl in H.
  - simplify_eq. split_and!; [done|by intros r ?%elem_of_nil|].
    exists []. split; [done|]. by intros m n t ?%elem_of_nil.
  - destruct (module_assigned c) as [module|] eqn:Hm.
    + inv_bind H. inv_bind H. simplify_eq. rename x0 into rest.
      destruct (IH _ Hx0) as (Hlen & Hrows & soft & Hsoft & Hsub).
      split_and!.
      * rewrite filter_cons_True by (rewrite Hm; by eexists).
        simpl. by rewrite Hlen.
      * intros r [->|Hr]%elem_of_cons.
        -- exists c. simpl. split_and!; [by left|done..].
        -- destruct (Hrows r Hr) as (c0 & Hin & Hrest).
           exists c0. split; [by right|done].
      * simpl. rewrite Hm. unfold assigned_teacher in Hx.
        destruct (teacher_assigned c) as [name|] eqn:Ht.
        2:{ exists soft. split; [done|]. intros m n t Hin. right. by apply Hsub. }
        case_bool_decide as Hempty.
        { exists soft. split; [done|]. intros m n t Hin. right.
          by apply Hsub. }
        destruct (get_teacher (teachers self) name) as [teacher|].
        2:{ exists soft. split; [done|]. intros m n t Hin. right. by apply Hsub. }
        inv_bind Hx. rewrite Hx1. simpl. rewrite Hsoft. simpl.
        destruct (Z.eqb_spec x0 0) as [->|Hne].
        -- eexists. split; [done|]. intros m n t [Heq|Hin]%elem_of_cons.
           ++ simplify_eq. simpl. by left.
           ++ right. by apply Hsub.
        -- exists soft. split; [done|]. intros m n t Hin. right.
           by apply Hsub.
    + destruct (IH _ H) as (Hlen & Hrows & soft & Hsoft & Hsub).
      split_and!.
      * rewrite filter_cons_False; [done|]. rewrite Hm. by intros [? ?].
      * intros r Hr. destruct (Hrows r Hr) as (c0 & Hin & Hrest).
        exists c0. split; [by right|done].
      * simpl. rewrite Hm. by exists soft.
Qed.

(** X26. The two exports agree.  When [export_schedule_csv] builds its rows
    without error, there is one row per course that has a module, each row
    carrying the module, the name and the teacher of such a course; then
    [export_soft_violations_csv] builds its rows without error too, and each
    of them is a schedule row marked "needs confirmation". *)
Theorem exports_agree (self : Scheduler) (rows : list schedule_row) :
  export_schedule_rows self = Ok rows →
  List.length rows = assigned_count self
  ∧ (∀ r, r ∈ rows →
       ∃ c, c ∈ courses self ∧ module_assigned c = Some r.1.1.1
         ∧ c_name c = r.1.1.2
         ∧ default "" (teacher_assigned c) = r.1.2)
  ∧ ∃ soft,
      export_soft_violations_rows self = Ok soft
      ∧ ∀ m n t, (m, n, t) ∈ soft → (m, n, t, needs_confirmation) ∈ rows.
Proof.
  unfold export_schedule_rows, export_soft_violations_rows. intros H.
  inv_bind H. simplify_eq.
  destruct (schedule_rows_loop_spec _ _ _ Hx)
    as (Hlen & Hrows & soft & Hsoft & Hsub).
  split_and!.
  - by rewrite py_sort_length.
  - intros r Hr. apply Hrows. by apply (py_sort_elem schedule_row_lt).
  - rewrite Hsoft. simpl. eexists. split; [done|].
    intros m n t Hin. apply py_sort_elem. apply Hsub.
    by apply (py_sort_elem key_mct_lt).
Qed.

Lemma exports_agree_witness :
  ∃ rows,
    export_schedule_rows fixed_a_scenario = Ok rows
    ∧ List.length rows = assigned_count fixed_a_scenario
    ∧ (∀ r, r ∈ rows →
         ∃ c, c ∈ courses fixed_a_scenario
           ∧ module_assigned c = Some r.1.1.1
           ∧ c_name c = r.1.1.2
           ∧ default "" (teacher_assigned c) = r.1.2)
    ∧ ∃ soft,
        export_soft_violations_rows fixed_a_scenario = Ok soft
        ∧ ∀ m n t, (m, n, t) ∈ soft → (m, n, t, needs_confirmation) ∈ rows.
Proof.
  eexists. split; [vm_compute; reflexivity|].
  apply (exports_agree fixed_a_scenario). vm_compute. reflexivity.
Defined.

(** ** The module dict of the loader *)

Lemma get_module_fmap (cap : Z) (l : list Z) (i : Z) :
  get_module ((fun i => new_module_cap i cap) <$> l) i =
    if decide (i ∈ l) then Some (new_module_cap i cap) else None.
Proof.
  unfold get_module. induction l as [|x l IH].
  - destruct (decide (i ∈ [])) as [Hin|_]; [|done].
    by apply elem_of_nil in Hin.
  - rewrite fmap_cons, (store_get_cons number), IH.
    change (number (new_module_cap x cap)) with x.
    destruct (decide (x = i)) as [->|Hne].
    + destruct (decide (i ∈ i :: l)) as [_|Hn]; [done|].
      exfalso. apply Hn. by left.
    + destruct (decide (i ∈ l)) as [Hin|Hn].
      * destruct (decide (i ∈ x :: l)) as [_|Hn']; [done|].
        exfalso. apply Hn'. by right.
      * destruct (decide (i ∈ x :: l)) as [Hin'|_]; [|done].
        apply elem_of_cons in Hin' as [->|Hin']; done.
Qed.

(** X27. [build_modules(total_modules, max_capacity)] builds an empty module
    for every number of 1..[total_modules] and for no other: looking a number
    up gives the module with that number, the given capacity, no occupant, no
    chain count and no celebrity flag when the number is in the range, and
    nothing otherwise.  The numbers are pairwise different. *)
Theorem build_modules_lookup (total_modules max_capacity i : Z) :
  get_module (build_modules total_modules max_capacity) i =
    (if bool_decide (1 ≤ i ≤ total_modules)
     then Some (mkModule i max_capacity [] ∅ false)
     else None)
  ∧ NoDup (number <$> build_modules total_modules max_capacity)
  ∧ List.length (build_modules total_modules max_capacity)
    = Z.to_nat total_modules.
Proof.
  unfold build_modules. split_and!.
  - rewrite get_module_fmap.
    destruct (decide (i ∈ seqZ 1 total_modules)) as [Hin|Hn];
      rewrite elem_of_seqZ in *; case_bool_decide; try done; lia.
  - rewrite <- list_fmap_compose.
    replace (number ∘ (fun i => new_module_cap i max_capacity) <$>
               seqZ 1 total_modules) with (seqZ 1 total_modules).
    + apply NoDup_seqZ.
    + rewrite <- (list_fmap_id (seqZ 1 total_modules)) at 1.
      apply list_fmap_ext. by intros.
  - by rewrite length_fmap, length_seqZ.
Qed.

(** ** A whole run *)

Lemma run_passes_preserve (Inv : Scheduler → Prop) (self s3 : Scheduler)
    (rows : list (string * Z * string)) (n1 n2 n3 : Z) :
  (∀ a b row, Inv a → pass1_row a row = Ok b → Inv b) →
  (∀ layer s us s' us', Inv s → placement layer s us s' us' → Inv s') →
  Inv self →
  run_passes self rows = Ok (n1, n2, n3, s3) →
  Inv s3.
Proof.
  intros Hrow Hpl Hinv H. unfold run_passes in H.
  inv_bind H. destruct x as [k1 s1]. inv_bind H. destruct x as [k2 s2].
  inv_bind H. destruct x as [k3 s3']. simplify_eq.
  apply (pass1_loop_preserve Inv _ _ _ _ _ Hrow Hinv) in Hx.
  apply pass2_chains_placements in Hx0 as (j2 & u2 & Hj2 & _).
  apply pass3_solitary_placements in Hx1 as (j3 & u3 & Hj3 & _).
  eapply (placements_preserve Inv); [|exact Hj3|].
  { intros layer s us s' us' _. apply Hpl. }
  eapply (placements_preserve Inv); [|exact Hj2|exact Hx].
  intros layer s us s' us' _. apply Hpl.
Qed.

Lemma fresh_invariants (self : Scheduler) :
  freshly_loaded self →
  modules_within_capacity self
  ∧ one_chain_per_layer self
  ∧ teachers_ok self
  ∧ bookings_match self
  ∧ prereqs_precede self
  ∧ fixed_and_chain_apart self.
Proof.
  intros (Hcs & Hms & Hts).
  rewrite Forall_forall in Hcs. rewrite Forall_forall in Hms.
  rewrite Forall_forall in Hts.
  assert (Hc : ∀ n c, get_course (courses self) n = Some c →
            module_assigned c = None ∧ layer_assigned c = None).
  { intros n c Hg. apply Hcs. by eapply (store_get_elem c_name). }
  assert (Hm : ∀ n m, get_module (modules self) n = Some m →
            m_courses m = [] ∧ chain_layers m = ∅
            ∧ has_celebrity_course m = false ∧ 0 ≤ max_capacity m).
  { intros n m Hg. apply Hms. by eapply (store_get_elem number). }
  assert (Ht : ∀ n t, get_teacher (teachers self) n = Some t →
            teaches t = [] ∧ assigned_modules t = ∅
            ∧ capacity_left t = capacity_total t ∧ 0 ≤ capacity_total t).
  { intros n t Hg. apply Hts. by eapply (store_get_elem t_name). }
  split_and!.
  - intros n m Hg. destruct (Hm n m Hg) as (Ho & _ & _ & Hcap).
    unfold total_count. rewrite Ho. simpl. lia.
  - intros n m l Hg. destruct (Hm n m Hg) as (_ & Hl & _).
    unfold chain_count_in_layer. rewrite Hl, lookup_empty. simpl. lia.
  - intros n t Hg. destruct (Ht n t Hg) as (Hte & Ha & Hcap & Hpos).
    unfold teacher_ok. rewrite Hte, Ha. simpl.
    split_and!; [done|constructor|lia|lia].
  - split.
    + intros n c m tn Hg Hmod. destruct (Hc n c Hg) as [Hnone _]. congruence.
    + intros tn t n m Hg Hin. destruct (Ht tn t Hg) as (Hte & _).
      rewrite Hte in Hin. by apply elem_of_nil in Hin.
  - intros n c l Hg Hl. destruct (Hc n c Hg) as [_ Hnone]. congruence.
  - intros num m n c Hg Hf. destruct (Hm num m Hg) as (_ & _ & Hflag & _).
    congruence.
Qed.

(** X28. A whole run.  Starting from freshly loaded stores, when the three
    passes run one after the other as in [main] and return, the first count
    is the number of celebrity rows, and at the end: no module exceeds its
    capacity; no module counts two chain courses in one layer; every
    teacher's bookkeeping is consistent; the schedule and the bookings match;
    every course with a layer comes strictly after all its prerequisites;
    and in a module with the celebrity flag the only chain courses are
    celebrity courses. *)
Theorem run_passes_invariants (self s3 : Scheduler)
    (rows : list (string * Z * string)) (n1 n2 n3 : Z) :
  freshly_loaded self →
  run_passes self rows = Ok (n1, n2, n3, s3) →
  n1 = Z.of_nat (List.length rows)
  ∧ modules_within_capacity s3
  ∧ one_chain_per_layer s3
  ∧ teachers_ok s3
  ∧ bookings_match s3
  ∧ prereqs_precede s3
  ∧ fixed_and_chain_apart s3.
Proof.
  intros Hfresh H.
  destruct (fresh_invariants _ Hfresh) as (H1 & H2 & H3 & H4 & H5 & H6).
  split_and!.
  - unfold run_passes in H. inv_bind H. destruct x as [k1 s1].
    inv_bind H. destruct x as [k2 s2]. inv_bind H. destruct x as [k3 s3'].
    simplify_eq. unfold pass1_celebrity in Hx.
    apply pass1_loop_facts in Hx as (Hn & _). lia.
  - eapply (run_passes_preserve modules_within_capacity); [| |exact H1|exact H].
    + intros a b row. apply capacity_pass1_row.
    + intros layer s us s' us'. apply capacity_placement.
  - eapply (run_passes_preserve one_chain_per_layer); [| |exact H2|exact H].
    + intros a b row. apply one_chain_pass1_row.
    + intros layer s us s' us'. apply one_chain_placement.
  - eapply (run_passes_preserve teachers_ok); [| |exact H3|exact H].
    + intros a b row Ha Hr. eapply teachers_ok_step; [exact Ha|].
      by eapply pass1_row_booking.
    + intros layer s us s' us' Hs Hpl. eapply teachers_ok_step; [exact Hs|].
      by eapply placement_booking.
  - eapply (run_passes_preserve bookings_match); [| |exact H4|exact H].
    + intros a b row Ha Hr. eapply bookings_match_step; [exact Ha|].
      by eapply pass1_row_booking.
    + intros layer s us s' us' Hs Hpl. eapply bookings_match_step; [exact Hs|].
      by eapply placement_booking.
  - eapply (run_passes_preserve prereqs_precede); [| |exact H5|exact H].
    + intros a b row. apply prereqs_precede_pass1_row.
    + intros layer s us s' us'. apply prereqs_precede_placement.
  - eapply (run_passes_preserve fixed_and_chain_apart); [| |exact H6|exact H].
    + intros a b row. apply apart_pass1_row.
    + intros layer s us s' us'. apply apart_placement.
Qed.

Lemma chain_scenario_fresh : freshly_loaded chain_scenario.
Proof.
  unfold freshly_loaded. split_and!; apply (bool_decide_unpack _);
    vm_compute; exact I.
Defined.

Lemma run_passes_invariants_witness :
  freshly_loaded chain_scenario
  ∧ ∃ n1 n2 n3 s3,
      run_passes chain_scenario [("C", 6, "Bea")] = Ok (n1, n2, n3, s3)
      ∧ n1 = Z.of_nat (List.length [("C", 6, "Bea")])
      ∧ modules_within_capacity s3
      ∧ one_chain_per_layer s3
      ∧ teachers_ok s3
      ∧ bookings_match s3
      ∧ prereqs_precede s3
      ∧ fixed_and_chain_apart s3.
Proof.
  split; [exact chain_scenario_fresh|].
  eexists _, _, _, _. split; [vm_compute; reflexivity|].
  eapply (run_passes_invariants chain_scenario _ [("C", 6, "Bea")]).
  - exact chain_scenario_fresh.
  - vm_compute. reflexivity.
Defined.

(** ** The consistency error of Pass 2 *)

Lemma bind_not_raise {A B : Type} (e : exn) (f : A → result B)
    (r : result A) :
  r ≠ Raise e → (∀ a, r = Ok a → f a ≠ Raise e) → (r ≫= f) ≠ Raise e.
Proof.
  destruct r; simpl; intros H1 H2;
    [by apply H2|intros [= ->]; by apply H1|done].
Qed.

Create HintDb noruntime.

(** Goals [e ≠ Raise RuntimeError], handled like [no_fuel]. *)
Ltac no_runtime :=
  repeat first
    [ done
    | congruence
    | solve [eauto with noruntime]
    | apply bind_not_raise; [|intros ? ?]
    | case_match
    | progress simpl ].

Lemma py_index_noruntime {A : Type} (l : list A) (i : Z) :
  py_index l i ≠ Raise RuntimeError.
Proof. unfold py_index. repeat case_match; done. Qed.

Lemma is_available_for_noruntime (t : Teacher) (cn : string) (m : Z)
    (strict : bool) :
  is_available_for t cn m strict ≠ Raise RuntimeError.
Proof.
  unfold is_available_for.
  pose proof (py_index_noruntime (availability t) (m - 1)) as Hi.
  destruct (py_index (availability t) (m - 1)); [| |by repeat case_match].
  - simpl. repeat (case_match; simpl; try done).
  - repeat case_match; simpl; congruence.
Qed.

Lemma availability_score_noruntime (t : Teacher) (m : Z) :
  availability_score t m ≠ Raise RuntimeError.
Proof.
  unfold availability_score.
  pose proof (py_index_noruntime (availability t) (m - 1)).
  destruct (py_index (availability t) (m - 1)); simpl; try congruence.
  repeat case_match; done.
Qed.

Lemma assign_to_noruntime (t : Teacher) (cn : string) (m : Z) :
  assign_to t cn m ≠ Raise RuntimeError.
Proof.
  unfold assign_to. pose proof (is_available_for_noruntime t cn m false).
  destruct (is_available_for t cn m false); simpl; try congruence.
  by case_match.
Qed.

#[local] Hint Resolve py_index_noruntime is_available_for_noruntime
  availability_score_noruntime assign_to_noruntime : noruntime.

Lemma all_prereqs_assigned_loop_noruntime (ps : list string)
    (cs : list Course) :
  all_prereqs_assigned_loop ps cs ≠ Raise RuntimeError.
Proof. induction ps; no_runtime. Qed.

Lemma get_latest_loop_noruntime (ps : list string) (cs : list Course)
    (latest : Z) :
  get_latest_assigned_prereq_loop ps cs latest ≠ Raise RuntimeError.
Proof. revert latest. induction ps; intros; no_runtime. Qed.

Lemma has_loop_noruntime (cn : string) (names : list string) (m : Z)
    (ts : list Teacher) (strict : bool) :
  has_teachers_for_module_loop cn names m ts strict ≠ Raise RuntimeError.
Proof. induction names; no_runtime. Qed.

Lemma available_loop_noruntime (cn : string) (names : list string) (m : Z)
    (ts : list Teacher) (strict : bool) :
  available_loop cn names m ts strict ≠ Raise RuntimeError.
Proof. induction names; no_runtime. Qed.

Lemma py_min_loop_noruntime (rest : list avail_entry) (best : avail_entry) :
  py_min_loop best rest ≠ Raise RuntimeError.
Proof.
  revert best. induction rest as [|x rest IH]; intros best; simpl; [done|].
  apply bind_not_raise; [|intros ? ?; apply IH].
  unfold key_lt, score_lt. repeat case_match; done.
Qed.

Lemma prereqs_before_loop_noruntime (ps : list string) (cs : list Course)
    (abs : Z) :
  prereqs_before_loop ps cs abs ≠ Raise RuntimeError.
Proof. induction ps; no_runtime. Qed.

#[local] Hint Resolve all_prereqs_assigned_loop_noruntime
  get_latest_loop_noruntime has_loop_noruntime available_loop_noruntime
  py_min_loop_noruntime prereqs_before_loop_noruntime : noruntime.

Lemma get_teacher_for_module_noruntime (c : Course) (m : Z)
    (ts : list Teacher) (strict : bool) :
  get_teacher_for_module c m ts strict ≠ Raise RuntimeError.
Proof. unfold get_teacher_for_module. no_runtime. Qed.

Lemma can_be_assigned_noruntime (c : Course) (m layer : Z)
    (cs : list Course) (ts : list Teacher) (strict : bool) :
  can_be_assigned_to_module c m layer cs ts strict ≠ Raise RuntimeError.
Proof.
  unfold can_be_assigned_to_module, all_prereqs_assigned,
    has_teachers_for_module. no_runtime.
Qed.

#[local] Hint Resolve get_teacher_for_module_noruntime
  can_be_assigned_noruntime : noruntime.

Lemma assign_to_module_noruntime (c : Course) (m layer : Z)
    (cs : list Course) (ts : list Teacher) (strict : bool) :
  assign_to_module c m layer cs ts strict ≠ Raise RuntimeError.
Proof. unfold assign_to_module. no_runtime. Qed.

Lemma add_course_noruntime (modl : ModuleSlot) (c : Course) (layer : Z)
    (fixed : bool) (cs : list Course) :
  add_course modl c layer fixed cs ≠ Raise RuntimeError.
Proof. unfold add_course. no_runtime. Qed.

Lemma fits_in_module_noruntime (self : Scheduler) (c : Course) (m layer : Z)
    (strict : bool) :
  fits_in_module self c m layer strict ≠ Raise RuntimeError.
Proof. unfold fits_in_module. no_runtime. Qed.

#[local] Hint Resolve assign_to_module_noruntime add_course_noruntime
  fits_in_module_noruntime : noruntime.

Lemma feasible_count_loop_noruntime (self : Scheduler) (c : Course)
    (layer : Z) (strict : bool) (ms : list Z) (cnt : Z) :
  feasible_module_count_loop self c layer strict ms cnt ≠ Raise RuntimeError.
Proof. revert cnt. induction ms; intros; no_runtime. Qed.

Lemma is_ready_noruntime (self : Scheduler) (c : Course) (layer : Z) :
  is_ready self c layer ≠ Raise RuntimeError.
Proof. unfold is_ready, all_prereqs_assigned. no_runtime. Qed.

#[local] Hint Resolve feasible_count_loop_noruntime is_ready_noruntime
  : noruntime.

Lemma pass2_candidates_noruntime (self : Scheduler) (u : list string)
    (m layer : Z) (strict : bool) :
  pass2_candidates self u m layer strict ≠ Raise RuntimeError.
Proof.
  induction u as [|n u IH]; simpl; [done|].
  unfold feasible_module_count, get_latest_assigned_prereq. no_runtime.
Qed.

Lemma set_teacher_declared (ts : list Teacher) (t t' : Teacher) :
  teachers_declared_14 ts → t ∈ ts → availability t' = availability t →
  teachers_declared_14 (set_teacher ts t').
Proof.
  unfold teachers_declared_14, set_teacher, store_set.
  intros Hd Hin Hav. rewrite Forall_fmap. rewrite Forall_forall in Hd.
  apply Forall_forall. intros x Hx. simpl.
  case_bool_decide; [|by apply Hd]. rewrite Hav. by apply Hd.
Qed.

Lemma set_teacher_resolve (ts : list Teacher) (t' : Teacher) (c : Course) :
  teachers_resolve c ts → teachers_resolve c (set_teacher ts t').
Proof.
  unfold teachers_resolve. intros H. eapply Forall_impl; [exact H|].
  intros n [t Ht]. simpl.
  rewrite get_teacher_set. case_decide; rewrite Ht; by eexists.
Qed.

(** One pass of the body of the module loop of Pass 2 on well-formed data
    does not raise [RuntimeError] and leaves the data well formed. *)
Lemma pass2_module_well_formed (layer : Z) (strict : bool) (s : p2) (m : Z) :
  well_formed_teachers (p2_self s) → 1 ≤ m ≤ 14 →
  pass2_module layer strict s m ≠ Raise RuntimeError
  ∧ ∀ s', pass2_module layer strict s m = Ok s' →
      well_formed_teachers (p2_self s').
Proof.
  intros [Hdecl Hres] Hm. split.
  - unfold pass2_module.
    destruct (get_module (modules (p2_self s)) m) as [modl|]; [|done].
    destruct (has_celebrity_course modl); [done|].
    destruct (chain_count_in_layer modl layer >=? 1); [done|].
    apply bind_not_raise; [apply pass2_candidates_noruntime|].
    intros cands Hc.
    destruct (py_sort candidate2_lt cands) as [|[[[mc nl] nm] chosen] tl]
      eqn:Hsort; [done|].
    apply py_sort_head in Hsort.
    destruct (pass2_candidates_elem _ _ _ _ _ _ _ Hc Hsort)
      as (_ & Hget & Hfit).
    simpl in Hget, Hfit.
    apply fits_in_module_true in Hfit as (_ & _ & _ & _ & Hcan).
    assert (Hr : teachers_resolve chosen (teachers (p2_self s))).
    { rewrite Forall_forall in Hres. apply Hres.
      by eapply (store_get_elem c_name). }
    destruct (feasible_assign_ok _ _ _ _ _ _ Hr Hdecl Hm Hcan)
      as (c' & ts' & Hok).
    rewrite Hok. cbn [mbind result_bind negb].
    apply bind_not_raise; [apply add_course_noruntime|done].
  - intros s' Hs'.
    apply pass2_module_facts in Hs'
      as [->|(modl & modl' & c & name & t & t' & Hgm & Hflag & Hgc & Hchain
              & Hnone & Hmin & Hin & Ht & Hto & Hadd & ->)]; [done|].
    apply assign_to_true_inv in Hto as (_ & _ & _ & _ & _ & Hav & _).
    split; simpl.
    + eapply set_teacher_declared; [done| |exact Hav].
      by eapply (store_get_elem t_name).
    + unfold set_course, store_set. rewrite Forall_fmap.
      rewrite Forall_forall in Hres. apply Forall_forall. intros x Hx.
      simpl. apply set_teacher_resolve.
      case_bool_decide; [|by apply Hres].
      assert (Hc : teachers_resolve c (teachers (p2_self s))).
      { apply Hres. by eapply (store_get_elem c_name). }
      exact Hc.
Qed.

Lemma pass2_sweep_well_formed (layer : Z) (strict : bool) (ms : list Z)
    (s : p2) :
  well_formed_teachers (p2_self s) → (∀ m, m ∈ ms → 1 ≤ m ≤ 14) →
  pass2_sweep layer strict s ms ≠ Raise RuntimeError
  ∧ ∀ s', pass2_sweep layer strict s ms = Ok s' →
      well_formed_teachers (p2_self s').
Proof.
  revert s. induction ms as [|m ms IH]; intros s Hwf Hms; simpl.
  - split; [done|]. intros s' ?. by simplify_eq.
  - destruct (pass2_module_well_formed layer strict s m Hwf)
      as [Hno Hnext]; [apply Hms; by left|].
    split.
    + apply bind_not_raise; [done|]. intros s1 Hs1.
      apply IH; [by apply Hnext|]. intros m' Hm'. apply Hms. by right.
    + intros s' Hs'. inv_bind Hs'.
      eapply IH; [by apply Hnext| |exact Hs'].
      intros m' Hm'. apply Hms. by right.
Qed.

Lemma pass2_phases_well_formed (layer : Z) (flags : list bool)
    (s : p2_layer) :
  well_formed_teachers (pl_self s) →
  pass2_phases layer s flags ≠ Raise RuntimeError
  ∧ ∀ r, pass2_phases layer s flags = Ok r → well_formed_teachers (pl_self r).
Proof.
  revert s. induction flags as [|strict flags IH]; intros s Hwf.
  - simpl. split; [done|]. intros r ?. by simplify_eq.
  - rewrite pass2_phases_cons.
    destruct (pass2_sweep_well_formed layer strict module_range
                (mkP2 (pl_self s) (pl_unassigned s) (pl_assigned_total s) 0)
                Hwf module_range_bounds) as [Hno Hnext].
    split.
    + apply bind_not_raise; [done|]. intros r1 Hr1.
      destruct (p2_progress_phase r1 >? 0); [done|].
      apply IH. by apply Hnext.
    + intros r Hr. inv_bind Hr. specialize (Hnext _ Hx).
      destruct (p2_progress_phase x >? 0); [by simplify_eq|].
      eapply IH; [|exact Hr]. done.
Qed.

Lemma pass2_while_no_runtime (fuel : nat) (self : Scheduler)
    (u : list string) (total layer max_layers : Z) :
  well_formed_teachers self →
  pass2_while fuel self u total layer max_layers ≠ Raise RuntimeError.
Proof.
  revert self u total layer.
  induction fuel as [|fuel IH]; intros self u total layer Hwf.
  - simpl. destruct u; [done|]. by destruct (layer >? max_layers).
  - rewrite pass2_while_S. destruct u; [done|].
    destruct (layer >? max_layers); [done|].
    unfold pass2_layer_iteration.
    destruct (pass2_phases_well_formed layer [true; false]
                (mkP2Layer self (s :: u) total 0 []) Hwf) as [Hno Hnext].
    apply bind_not_raise; [done|]. intros r Hr. apply IH. by apply Hnext.
Qed.

(** X29. On well-formed teacher data Pass 2 never raises its "feasible but
    assignment failed" [RuntimeError]: if every teacher has 14 preference
    values among 1, 0 and -1 and every possible teacher of every course is in
    the teacher dict, a course that the pass found feasible is always
    assigned. *)
Theorem pass2_never_inconsistent (self : Scheduler) (max_layers : Z) :
  well_formed_teachers self →
  pass2_chains self max_layers ≠ Raise RuntimeError.
Proof. intros Hwf. by apply pass2_while_no_runtime. Qed.

Lemma pass2_never_inconsistent_witness :
  well_formed_teachers chain_scenario
  ∧ pass2_chains chain_scenario 2 ≠ Raise RuntimeError.
Proof.
  assert (H : well_formed_teachers chain_scenario).
  { unfold well_formed_teachers, teachers_declared_14, teachers_resolve.
    split; apply (bool_decide_unpack _); vm_compute; exact I. }
  split; [exact H|].
  exact (pass2_never_inconsistent chain_scenario 2 H).
Defined.

(** ** The chain scenario satisfies the hypotheses of the invariants *)

Lemma chain_scenario_invariants :
  modules_within_capacity chain_scenario
  ∧ one_chain_per_layer chain_scenario
  ∧ teachers_ok chain_scenario
  ∧ bookings_match chain_scenario
  ∧ prereqs_precede chain_scenario
  ∧ fixed_and_chain_apart chain_scenario.
Proof. apply fresh_invariants. exact chain_scenario_fresh. Defined.

Lemma modules_within_capacity_preserved_witness :
  modules_within_capacity chain_scenario
  ∧ (∀ rows n self',
       pass1_celebrity chain_scenario rows = Ok (n, self') →
       modules_within_capacity self')
  ∧ (∀ max_layers n self',
       pass2_chains chain_scenario max_layers = Ok (n, self') →
       modules_within_capacity self')
  ∧ (∀ n self',
       pass3_solitary chain_scenario = Ok (n, self') →
       modules_within_capacity self').
Proof.
  assert (H : modules_within_capacity chain_scenario)
    by apply chain_scenario_invariants.
  split; [exact H|].
  exact (modules_within_capacity_preserved chain_scenario H).
Defined.

Lemma one_chain_per_layer_preserved_witness :
  one_chain_per_layer chain_scenario
  ∧ (∀ rows n self',
       pass1_celebrity chain_scenario rows = Ok (n, self') →
       one_chain_per_layer self')
  ∧ (∀ max_layers n self',
       pass2_chains chain_scenario max_layers = Ok (n, self') →
       one_chain_per_layer self')
  ∧ (∀ n self',
       pass3_solitary chain_scenario = Ok (n, self') →
       one_chain_per_layer self').
Proof.
  assert (H : one_chain_per_layer chain_scenario)
    by apply chain_scenario_invariants.
  split; [exact H|].
  exact (one_chain_per_layer_preserved chain_scenario H).
Defined.

Lemma teachers_ok_preserved_witness :
  teachers_ok chain_scenario
  ∧ (∀ rows n self',
       pass1_celebrity chain_scenario rows = Ok (n, self') →
       teachers_ok self')
  ∧ (∀ max_layers n self',
       pass2_chains chain_scenario max_layers = Ok (n, self') →
       teachers_ok self')
  ∧ (∀ n self',
       pass3_solitary chain_scenario = Ok (n, self') → teachers_ok self').
Proof.
  assert (H : teachers_ok chain_scenario) by apply chain_scenario_invariants.
  split; [exact H|].
  exact (teachers_ok_preserved chain_scenario H).
Defined.

Lemma bookings_match_preserved_witness :
  bookings_match chain_scenario
  ∧ (∀ rows n self',
       pass1_celebrity chain_scenario rows = Ok (n, self') →
       bookings_match self')
  ∧ (∀ max_layers n self',
       pass2_chains chain_scenario max_layers = Ok (n, self') →
       bookings_match self')
  ∧ (∀ n self',
       pass3_solitary chain_scenario = Ok (n, self') → bookings_match self').
Proof.
  assert (H : bookings_match chain_scenario)
    by apply chain_scenario_invariants.
  split; [exact H|].
  exact (bookings_match_preserved chain_scenario H).
Defined.

Lemma returned_counts_are_exact_witness :
  course_names_distinct chain_scenario
  ∧ (∀ rows n self',
       pass1_celebrity chain_scenario rows = Ok (n, self') →
       course_names_distinct self'
       ∧ Z.of_nat (assigned_count self')
         = Z.of_nat (assigned_count chain_scenario) + n)
  ∧ (∀ max_layers n self',
       pass2_chains chain_scenario max_layers = Ok (n, self') →
       course_names_distinct self'
       ∧ Z.of_nat (assigned_count self')
         = Z.of_nat (assigned_count chain_scenario) + n)
  ∧ (∀ n self',
       pass3_solitary chain_scenario = Ok (n, self') →
       course_names_distinct self'
       ∧ Z.of_nat (assigned_count self')
         = Z.of_nat (assigned_count chain_scenario) + n).
Proof.
  assert (H : course_names_distinct chain_scenario).
  { unfold course_names_distinct. apply (bool_decide_unpack _).
    vm_compute. exact I. }
  split; [exact H|].
  exact (returned_counts_are_exact chain_scenario H).
Defined.

(** ** Pass 2: the layer cut-off on a whole run *)

Lemma list_remove_NoDup (n : string) (l : list string) :
  NoDup l → NoDup (list_remove n l) ∧ n ∉ list_remove n l.
Proof.
  induction l as [|x l IH]; simpl; intros Hnd.
  - split; [constructor|]. by intros ?%elem_of_nil.
  - apply NoDup_cons in Hnd as [Hx Hnd]. case_bool_decide as Heq.
    + subst. done.
    + destruct (IH Hnd) as [Hnd' Hn]. split.
      * apply NoDup_cons. split; [|done].
        intros Hin. apply Hx. by apply (list_remove_subseteq n l).
      * intros Hin. apply elem_of_cons in Hin as [->|Hin]; done.
Qed.

Lemma get_course_distinct (cs : list Course) (c : Course) :
  NoDup (c_name <$> cs) → c ∈ cs → get_course cs (c_name c) = Some c.
Proof.
  induction cs as [|x cs IH]; intros Hnd Hin.
  - by apply elem_of_nil in Hin.
  - rewrite fmap_cons in Hnd. apply NoDup_cons in Hnd as [Hx Hnd].
    unfold get_course in *. rewrite (store_get_cons c_name).
    apply elem_of_cons in Hin as [->|Hin].
    + by rewrite decide_True.
    + rewrite decide_False; [by apply IH|].
      intros Heq. apply Hx. rewrite Heq. by apply list_elem_of_fmap_2.
Qed.

Lemma chain_unassigned_start (self : Scheduler) :
  course_names_distinct self →
  NoDup (chain_unassigned self)
  ∧ still_unassigned self (chain_unassigned self).
Proof.
  unfold course_names_distinct, chain_unassigned. intros Hnd. split.
  - eapply sublist_NoDup; [exact Hnd|].
    apply fmap_sublist. apply sublist_filter.
  - intros name Hin.
    apply list_elem_of_fmap in Hin as (c & -> & Hin).
    apply list_elem_of_filter in Hin as [[Hchain Hnone] Hin].
    exists c. split_and!; [|done|done]. by apply get_course_distinct.
Qed.

Lemma placement_working_list (layer : Z) (s s' : Scheduler)
    (u u' : list string) :
  placement layer s u s' u' →
  NoDup u → still_unassigned s u →
  NoDup u' ∧ still_unassigned s' u'.
Proof.
  destruct 1 as [num strict modl modl' c c' teachers' Hm Hc Hu Hacc Hassign
                   Hadd].
  intros Hnd Hst.
  apply assign_to_module_true in Hassign as (_ & t & ->).
  destruct (list_remove_NoDup (c_name c) u Hnd) as [Hnd' Hnot].
  split; [done|]. intros name Hin. cbn [courses].
  rewrite get_course_set. cbn [set_assignment c_name].
  case_decide as Heq; [by subst|].
  apply Hst. by apply (list_remove_subseteq (c_name c) u).
Qed.

Lemma placements_working_list (P : Z → Prop) (n : nat) (s s' : Scheduler)
    (u u' : list string) :
  placements P n s u s' u' →
  NoDup u → still_unassigned s u →
  NoDup u' ∧ still_unassigned s' u'.
Proof.
  induction 1 as [|n layer s s1 s2 u u1 u2 HP Hstep Hrest IH];
    intros Hnd Hst; [done|].
  destruct (placement_working_list _ _ _ _ _ Hstep Hnd Hst) as [Hnd1 Hst1].
  by apply IH.
Qed.

(** At every head of the loop: the layer is not negative, [assigned_total]
    counts the placements made so far, each at a layer of 0..[max_layers],
    and the rest of the loop from here is the rest of the pass. *)
Lemma pass2_loop_head_facts (self s : Scheduler) (max_layers : Z)
    (u : list string) (tot layer : Z) :
  pass2_loop_head self max_layers s u tot layer →
  0 ≤ layer
  ∧ (∃ n, placements (fun l => 0 ≤ l ≤ max_layers) n
            self (chain_unassigned self) s u
       ∧ tot = Z.of_nat n)
  ∧ ∃ fuel, pass2_while fuel s u tot layer max_layers
            = pass2_chains self max_layers.
Proof.
  induction 1 as [|s u tot layer r Hhead IH Hne Hle Hiter].
  - split; [lia|]. split.
    + exists 0%nat. split; [constructor|done].
    + eexists. reflexivity.
  - destruct IH as (Hl & (n & Hn & ->) & (fuel & Hf)).
    pose proof Hiter as Hphases. unfold pass2_layer_iteration in Hphases.
    apply pass2_phases_inv in Hphases as (k & Hk & Htot & _).
    simpl in Hk, Htot.
    split; [destruct (pl_progress_this_layer r =? 0); lia|]. split.
    + exists (n + k)%nat. split; [|lia].
      eapply placements_app; [exact Hn|].
      eapply placements_weaken; [|exact Hk]. intros l <-. lia.
    + destruct u as [|n0 u]; [done|].
      destruct fuel as [|fuel].
      * exfalso. simpl in Hf.
        destruct (Z.gtb_spec layer max_layers); [lia|].
        symmetry in Hf. by apply pass2_chains_terminates in Hf.
      * exists fuel. rewrite <- Hf. rewrite pass2_while_S.
        destruct (Z.gtb_spec layer max_layers); [lia|].
        by rewrite Hiter.
Qed.

(** A step of the loop with the next head given by its components. *)
Lemma loop_head_step (self s s' : Scheduler) (max_layers : Z)
    (u u' : list string) (tot layer tot' layer' : Z) (r : p2_layer) :
  pass2_loop_head self max_layers s u tot layer →
  u ≠ [] →
  layer ≤ max_layers →
  pass2_layer_iteration s u tot layer = Ok r →
  (pl_self r, pl_unassigned r, pl_assigned_total r,
   if pl_progress_this_layer r =? 0 then layer + 1 else layer)
  = (s', u', tot', layer') →
  pass2_loop_head self max_layers s' u' tot' layer'.
Proof.
  intros Hhead Hne Hle Hiter [= <- <- <- <-]. by eapply loop_head_next.
Qed.

(** C5. Whenever the run of Pass 2 comes to test its loop condition with
    chain courses still in [unassigned] and [layer] above [max_layers], the
    whole pass returns there without raising: [pass2_chains] returns the
    stores of that moment and the value of [assigned_total].  That value is
    the number of placements the run has made, each at a layer of
    0..[max_layers]; and when the keys of the course dict are pairwise
    different, it is the number of courses that gained a module, and every
    course still in [unassigned] is a chain course of the returned stores
    without a module. *)
Theorem pass2_stops_above_max_layers (self s : Scheduler) (max_layers : Z)
    (unassigned : list string) (assigned_total layer : Z) :
  pass2_loop_head self max_layers s unassigned assigned_total layer →
  unassigned ≠ [] →
  max_layers < layer →
  pass2_chains self max_layers = Ok (assigned_total, s)
  ∧ (∃ n, placements (fun l => 0 ≤ l ≤ max_layers) n
            self (chain_unassigned self) s unassigned
       ∧ assigned_total = Z.of_nat n)
  ∧ (course_names_distinct self →
     still_unassigned s unassigned
     ∧ Z.of_nat (assigned_count s)
       = Z.of_nat (assigned_count self) + assigned_total).
Proof.
  intros Hhead Hne Hlayer.
  destruct (pass2_loop_head_facts _ _ _ _ _ _ Hhead)
    as (_ & (n & Hn & ->) & (fuel & Hf)).
  split_and!.
  - rewrite <- Hf. by apply pass2_while_cutoff.
  - by exists n.
  - intros Hnd.
    destruct (chain_unassigned_start self Hnd) as [Hnd0 Hst0].
    destruct (placements_working_list _ _ _ _ _ _ Hn Hnd0 Hst0) as [_ Hst].
    destruct (placements_count _ _ _ _ _ _ Hn Hnd) as [_ Hcount].
    split; [done|lia].
Qed.

Lemma pass2_stops_above_max_layers_witness :
  ∃ s,
    pass2_loop_head late_unit_scenario 2 s ["D"] 2 3
    ∧ ["D"] ≠ []
    ∧ 2 < 3
    ∧ course_names_distinct late_unit_scenario
    ∧ pass2_chains late_unit_scenario 2 = Ok (2, s)
    ∧ (∃ n, placements (fun l => 0 ≤ l ≤ 2) n late_unit_scenario
              (chain_unassigned late_unit_scenario) s ["D"]
         ∧ 2 = Z.of_nat n)
    ∧ still_unassigned s ["D"]
    ∧ Z.of_nat (assigned_count s)
      = Z.of_nat (assigned_count late_unit_scenario) + 2.
Proof.
  eassert (H1 : pass2_loop_head late_unit_scenario 2 _ ["D"] 2 3).
  { eapply loop_head_step;
      [eapply loop_head_step;
         [eapply loop_head_step;
            [eapply loop_head_step;
               [apply loop_head_first
               |vm_compute; discriminate
               |vm_compute; discriminate
               |vm_compute; reflexivity
               |vm_compute; reflexivity]
            |vm_compute; discriminate
            |vm_compute; discriminate
            |vm_compute; reflexivity
            |vm_compute; reflexivity]
         |vm_compute; discriminate
         |vm_compute; discriminate
         |vm_compute; reflexivity
         |vm_compute; reflexivity]
      |vm_compute; discriminate
      |vm_compute; discriminate
      |vm_compute; reflexivity
      |vm_compute; reflexivity]. }
  assert (H2 : ["D"] ≠ ([] : list string)) by discriminate.
  assert (H3 : 2 < 3) by lia.
  assert (H4 : course_names_distinct late_unit_scenario).
  { unfold course_names_distinct. apply (bool_decide_unpack _).
    vm_compute. exact I. }
  pose proof (pass2_stops_above_max_layers late_unit_scenario _ 2 ["D"] 2 3
                H1 H2 H3) as (H5 & H6 & H7).
  destruct (H7 H4) as [H8 H9].
  eexists. split_and!; [exact H1|done..].
Defined.
